(** * Outreach orchestrator: quality evaluator, refinement loop, stage
      sequencer and batch runner

    A shallow embedding of [orchestrator.py] and of the two capabilities of
    [kimi_agent.py] that it drives.  Python [float]s are IEEE-754 binary64
    numbers and are modelled by Rocq's primitive floats, which compute with
    the same rounding; a [str] value is modelled by the [string] of its UTF-8
    encoding; dictionaries whose keys are fixed by the code
    are records of optional fields, the [lead_data] dictionary is a [gmap].
    Collaborators (scrapers, the completion endpoint, the database session,
    the clock) are oracles that answer from the history of calls made so far,
    so every statement holds for every behaviour of the collaborators.  The
    case mapping of the interpreter, [str.lower], is a parameter as well. *)

From Stdlib Require Import ZArith Floats Ascii String DecimalString.
From stdpp Require Import gmap strings list.

Set Warnings "-inexact-float".

Local Open Scope string_scope.
Local Open Scope list_scope.

(** ** Python string operations used by the source *)

Module PyStr.

(** [str.lower] restricted to the ASCII letters: what the method does to a
    text in which A-Z are the only cased characters. *)
Definition lower_ascii (c : ascii) : ascii :=
  let n := nat_of_ascii c in
  if (65 <=? n)%nat && (n <=? 90)%nat then ascii_of_nat (n + 32) else c.

Fixpoint lower (s : string) : string :=
  match s with
  | EmptyString => EmptyString
  | String c t => String (lower_ascii c) (lower t)
  end.

Fixpoint prefix (p s : string) : bool :=
  match p, s with
  | EmptyString, _ => true
  | String a p', String b s' => if Ascii.eqb a b then prefix p' s' else false
  | String _ _, EmptyString => false
  end.

(** [needle in hay]. *)
Fixpoint contains (needle hay : string) : bool :=
  prefix needle hay ||
  match hay with
  | EmptyString => false
  | String _ t => contains needle t
  end.

Definition of_bytes (codes : list nat) : string :=
  string_of_list_ascii (map ascii_of_nat codes).

Definition reverse (s : string) : string :=
  string_of_list_ascii (rev (list_ascii_of_string s)).

(** The characters [str.split()] and [str.strip()] treat as blanks, which
    are those [str.isspace] accepts, each in UTF-8: U+0009 to U+000D,
    U+001C to U+001F, the space, U+0085, U+00A0, U+1680, U+2000 to U+200A,
    U+2028, U+2029, U+202F, U+205F and U+3000. *)
Definition blanks : list string :=
  map of_bytes
    [[9]; [10]; [11]; [12]; [13]; [28]; [29]; [30]; [31]; [32];
     [194; 133]; [194; 160]; [225; 154; 128];
     [226; 128; 128]; [226; 128; 129]; [226; 128; 130]; [226; 128; 131];
     [226; 128; 132]; [226; 128; 133]; [226; 128; 134]; [226; 128; 135];
     [226; 128; 136]; [226; 128; 137]; [226; 128; 138];
     [226; 128; 168]; [226; 128; 169]; [226; 128; 175];
     [226; 129; 159]; [227; 128; 128]].

(** The number of bytes of the blank among [marks] that [s] starts with,
    0 when it starts with none. *)
Definition blank_length (marks : list string) (s : string) : nat :=
  match List.find (fun b => prefix b s) marks with
  | Some b => String.length b
  | None => 0
  end.

(** [len(s.split())]: the number of maximal runs of characters that are
    not blanks.  [skip] counts the bytes of a blank still to be passed and
    [inword] tells whether the previous character belonged to a word. *)
Fixpoint count_words (skip : nat) (inword : bool) (s : string) : nat :=
  match s with
  | EmptyString => 0
  | String c t =>
      match skip with
      | S k => count_words k inword t
      | O =>
          match blank_length blanks s with
          | S k => count_words k false t
          | O => if inword then count_words 0 true t
                 else S (count_words 0 true t)
          end
      end
  end.

Definition word_count (s : string) : nat := count_words 0 false s.

(** [s.split(sep)] for a non-empty separator: the pieces between the
    non-overlapping occurrences of [sep], scanned from the left.  [skip]
    counts the characters of a matched separator still to be dropped and
    [cur] holds the current piece, last character first. *)
Fixpoint split_go (sep : string) (skip : nat) (cur : list ascii) (s : string)
  : list string :=
  match s with
  | EmptyString => [string_of_list_ascii (rev cur)]
  | String c t =>
      match skip with
      | S k => split_go sep k cur t
      | O =>
          if prefix sep s
          then string_of_list_ascii (rev cur)
                 :: split_go sep (String.length sep - 1) [] t
          else split_go sep 0 (c :: cur) t
      end
  end.

Definition split (sep s : string) : list string := split_go sep 0 [] s.

(** [s] without the blanks it starts with. *)
Fixpoint drop_blanks (marks : list string) (skip : nat) (s : string) : string :=
  match s with
  | EmptyString => EmptyString
  | String c t =>
      match skip with
      | S k => drop_blanks marks k t
      | O =>
          match blank_length marks s with
          | S k => drop_blanks marks k t
          | O => s
          end
      end
  end.

Definition lstrip (s : string) : string := drop_blanks blanks 0 s.

(** The blanks at the end are those at the start of the text read
    backwards, each with its bytes in reverse order. *)
Definition rstrip (s : string) : string :=
  reverse (drop_blanks (map reverse blanks) 0 (reverse s)).

Definition strip (s : string) : string := rstrip (lstrip s).

(** [s[:n]]: the first [n] characters.  A byte from 128 to 191 continues
    the character the bytes before it started, so it is kept with it. *)
Definition continues (c : ascii) : bool :=
  let n := nat_of_ascii c in (128 <=? n)%nat && (n <=? 191)%nat.

Fixpoint take_chars (n : nat) (s : string) : string :=
  match s with
  | EmptyString => EmptyString
  | String c t =>
      if continues c then String c (take_chars n t)
      else match n with
           | O => EmptyString
           | S k => String c (take_chars k t)
           end
  end.

(** [str(n)] for a non-negative integer, as an f-string prints it. *)
Definition of_nat (n : nat) : string := NilZero.string_of_uint (Nat.to_uint n).

End PyStr.

(** ** Data model ([models.py], and the dictionaries the stages exchange) *)

(** The exceptions the modelled code can raise or receive.  [External] is
    any failure reported by a collaborator (network, service, database). *)
Inductive exn :=
| JSONDecodeError
| TypeError
| KeyError (key : string)
| IndexError
| ValueError
| External (msg : string).

(** [models.OutreachStatus]. *)
Inductive OutreachStatus :=
| PENDING | ANALYZING | READY | SENT | OPENED | CLICKED | REPLIED | FAILED | SKIPPED.

(** A structured value (a dictionary or a list) owned by a collaborator. *)
Definition Payload := string.

(** The columns of [models.Lead] that the orchestrator reads, and after
    them those it assigns.  A nullable column is an [option]. *)
Module Lead.
Record t := {
  id : Z;
  name : string;
  email : string;
  company : option string;
  job_title : option string;
  location : option string;
  linkedin_url : option string;
  company_website : option string;
  linkedin_profile_data : option Payload;
  recent_posts : option Payload;
  company_news : option Payload;
  company_industry : option Payload;
  pain_points : option (list string);
  interests : option (list string);
  trigger_events : option (list string);
  relevance_score : option float;
  last_enriched_at : option Z
}.

(** The assignments of [_enrich_lead_data]: the two LinkedIn columns when
    the profile was scraped, the two company columns when the company was
    looked up, and the time of the enrichment. *)
Definition enriched (linkedin : option Payload * option Payload)
    (company_columns : option (Payload * option Payload)) (now : Z) (row : t) : t :=
  {| id := id row; name := name row; email := email row;
     company := company row; job_title := job_title row;
     location := location row; linkedin_url := linkedin_url row;
     company_website := company_website row;
     linkedin_profile_data :=
       match fst linkedin with
       | Some profile_data => Some profile_data
       | None => linkedin_profile_data row
       end;
     recent_posts :=
       match snd linkedin with
       | Some recent_activity => Some recent_activity
       | None => recent_posts row
       end;
     company_news :=
       match company_columns with
       | Some (news, _) => Some news
       | None => company_news row
       end;
     company_industry :=
       match company_columns with
       | Some (_, industry) => industry
       | None => company_industry row
       end;
     pain_points := pain_points row; interests := interests row;
     trigger_events := trigger_events row;
     relevance_score := relevance_score row;
     last_enriched_at := Some now |}.

(** The assignments of [_analyze_lead]. *)
Definition analysed (pains topics events : list string) (relevance : float)
    (row : t) : t :=
  {| id := id row; name := name row; email := email row;
     company := company row; job_title := job_title row;
     location := location row; linkedin_url := linkedin_url row;
     company_website := company_website row;
     linkedin_profile_data := linkedin_profile_data row;
     recent_posts := recent_posts row;
     company_news := company_news row;
     company_industry := company_industry row;
     pain_points := Some pains; interests := Some topics;
     trigger_events := Some events;
     relevance_score := Some relevance;
     last_enriched_at := last_enriched_at row |}.

(** Two rows that agree on the columns the orchestrator reads. *)
Definition same_input (a b : t) : Prop :=
  id a = id b /\ name a = name b /\ email a = email b
  /\ company a = company b /\ job_title a = job_title b
  /\ location a = location b /\ linkedin_url a = linkedin_url b
  /\ company_website a = company_website b.
End Lead.

(** The analysis dictionary returned by [analyze_lead_profile]: every key
    may be absent. *)
Module Analysis.
Record t := {
  pain_points : option (list string);
  interests : option (list string);
  trigger_events : option (list string);
  communication_style : option string;
  relevance_score : option float;
  raw_analysis : option string
}.
End Analysis.

(** The draft dictionary returned by [generate_personalized_email]. *)
Module Email.
Record t := {
  subject_line : option string;
  email_body : option string;
  personalization_elements : option (list string);
  expected_response_rate : option float;
  error : option exn
}.
End Email.

(** The dictionary returned by [_quality_control]. *)
Module QualityCheck.
Record t := {
  quality_score : float;
  passes_qa : bool;
  issues : list string;
  word_count : nat;
  personalization_count : nat
}.
End QualityCheck.

(** A row of [models.OutreachCampaign]. *)
Module Campaign.
Record t := {
  id : Z;
  lead_id : Z;
  subject_line : string;
  email_body : string;
  personalization_elements : list string;
  model_used : string;
  generation_metadata : Analysis.t * option QualityCheck.t * option float;
  status : OutreachStatus;
  sent_at : option Z
}.

Definition mark_sent (now : Z) (c : t) : t :=
  {| id := id c; lead_id := lead_id c; subject_line := subject_line c;
     email_body := email_body c;
     personalization_elements := personalization_elements c;
     model_used := model_used c;
     generation_metadata := generation_metadata c;
     status := SENT; sent_at := Some now |}.

Definition with_id (i : Z) (c : t) : t :=
  {| id := i; lead_id := lead_id c; subject_line := subject_line c;
     email_body := email_body c;
     personalization_elements := personalization_elements c;
     model_used := model_used c;
     generation_metadata := generation_metadata c;
     status := status c; sent_at := sent_at c |}.
End Campaign.

(** The fields of [config.Settings] that the orchestrator and the agent read,
    with the rest of the agent configuration. *)
Record Settings := {
  kimi_model : string;
  max_concurrent_requests : Z;
  rate_limit_per_minute : Z;
  min_personalization_score : float;
  max_retries : Z;
  email_send_delay_seconds : Z
}.

(** An orchestrator: the attribute [min_personalization_score] that
    [__init__] copies from the settings, and the module-level [settings]
    object itself, which [_create_campaign] reads for the model name.  The
    database session [self.db] is the [World] below. *)
Module Orchestrator.
Record t := {
  min_personalization_score : float;
  settings : Settings
}.
End Orchestrator.

Definition __init__ (settings : Settings) : Orchestrator.t :=
  {| Orchestrator.min_personalization_score := min_personalization_score settings;
     Orchestrator.settings := settings |}.

(** ** Exceptions, the call history and the collaborators *)

Inductive Exc (A : Type) :=
| Ok (a : A)
| Raise (e : exn).
Arguments Ok {A} a.
Arguments Raise {A} e.

(** A Python value as far as [lead_data] needs it: [None], a [str], or a
    structured payload. *)

Inductive pyval :=
| PyNone
| PyStr (s : string)
| PyData (d : Payload).

Definition py_of_option (o : option string) : pyval :=
  match o with Some s => PyStr s | None => PyNone end.

(** [prefix + v] for a [str] prefix: defined on strings only. *)
Definition str_add (prefix : string) (v : pyval) : Exc string :=
  match v with
  | PyStr s => Ok (prefix +:+ s)
  | _ => Raise TypeError
  end.

Inductive KimiTask := AnalyzeLead | WriteEmail.

(** One entry per call that crosses into a collaborator, plus the two
    internal calls the properties count (the evaluator and the dispatch). *)
Inductive Event :=
| EvScrapeProfile (url : string)
| EvRecentActivity (url : string) (limit : Z)
| EvCompanyIntel (company : string) (website : option string)
| EvKimi (task : KimiTask) (lead_name : pyval)
| EvQualityControl (email : Email.t)
| EvDbAdd (lead_id : Z)
| EvDbCommit
| EvDbRefresh (campaign_id : Z)
| EvUtcNow
| EvSendEmail (campaign_id : Z).

Definition is_kimi (ev : Event) : bool :=
  match ev with EvKimi _ _ => true | _ => false end.
Definition is_analysis_call (ev : Event) : bool :=
  match ev with EvKimi AnalyzeLead _ => true | _ => false end.
Definition is_generation_call (ev : Event) : bool :=
  match ev with EvKimi WriteEmail _ => true | _ => false end.
Definition is_quality_call (ev : Event) : bool :=
  match ev with EvQualityControl _ => true | _ => false end.
Definition is_artifact_create (ev : Event) : bool :=
  match ev with EvDbAdd _ => true | _ => false end.
Definition is_send (ev : Event) : bool :=
  match ev with EvSendEmail _ => true | _ => false end.

Definition count_calls (p : Event -> bool) (l : list Event) : nat :=
  length (List.filter p l).

(** The collaborators.  Each answers from the history of calls, the call
    being answered included as its last entry, with a value or with an
    exception.  (The scrapers of the repository catch most of their own
    failures; the model lets every collaborator raise, as its interface
    allows, so the properties cover both.)  The last two fields are pure:
    [payload_get d key] is [d.get(key)] on a dictionary owned by a
    collaborator, and [str_lower] is [str.lower]. *)
Record Env := {
  scrape_profile : list Event -> Exc Payload;
  get_recent_activity : list Event -> Exc Payload;
  enrich_company_data : list Event -> Exc Payload;
  call_kimi : list Event -> Exc string;
  db_commit : list Event -> Exc unit;
  db_refresh : list Event -> Exc unit;
  utcnow : list Event -> Z;
  payload_get : Payload -> string -> option Payload;
  str_lower : string -> string
}.

(** ** The quality evaluator ([OutreachOrchestrator._quality_control]) *)

Local Open Scope float_scope.

Definition cta_keywords : list string :=
  ["call"; "chat"; "meet"; "discuss"; "connect"; "interested"]%string.

Definition spam_phrases : list string :=
  ["hope this email finds you well"; "i wanted to reach out";
   "just touching base"; "hope all is well"; "checking in"]%string.

(** [any(k in text for k in keys)]. *)
Definition any_in (keys : list string) (text : string) : bool :=
  existsb (fun k => PyStr.contains k text) keys.

Definition _quality_control (env : Env) (self : Orchestrator.t)
    (email : Email.t) (analysis : Analysis.t) : QualityCheck.t :=
  let quality_score := 0.0 in
  let issues : list string := [] in
  (* Check 1: personalization elements *)
  let personalization_count :=
    length (default [] (Email.personalization_elements email)) in
  let '(quality_score, issues) :=
    if (3 <=? personalization_count)%nat
    then (quality_score + 0.3, issues)
    else (quality_score,
          (issues ++ [("Only " +:+ PyStr.of_nat personalization_count
                       +:+ " personalization elements (need 3+)")%string])%list) in
  (* Check 2: length *)
  let body := default EmptyString (Email.email_body email) in
  let word_count := PyStr.word_count body in
  let '(quality_score, issues) :=
    if (50 <=? word_count)%nat && (word_count <=? 200)%nat
    then (quality_score + 0.2, issues)
    else (quality_score,
          (issues ++ [("Word count " +:+ PyStr.of_nat word_count
                       +:+ " (ideal: 50-200)")%string])%list) in
  (* Check 3: call to action *)
  let '(quality_score, issues) :=
    if any_in cta_keywords (str_lower env body)
    then (quality_score + 0.2, issues)
    else (quality_score, (issues ++ ["No clear call-to-action"%string])%list) in
  (* Check 4: no generic spam phrases *)
  let '(quality_score, issues) :=
    if negb (any_in spam_phrases (str_lower env body))
    then (quality_score + 0.2, issues)
    else (quality_score,
          (issues ++ ["Contains generic spam phrases"%string])%list) in
  (* Check 5: relevance score from the analysis *)
  let relevance := default 0.0 (Analysis.relevance_score analysis) in
  let quality_score := quality_score + relevance * 0.1 in
  {| QualityCheck.quality_score := quality_score;
     QualityCheck.passes_qa := 0.7 <=? quality_score;
     QualityCheck.issues := issues;
     QualityCheck.word_count := word_count;
     QualityCheck.personalization_count := personalization_count |}.

(** The evaluator as the specification tabulates it: five contributions,
    each a fixed weight or nothing, and their sum in the order of the table.
    [lower] is the case mapping. *)
Module EvaluatorSpec.
Definition personalization_ok (email : Email.t) : bool :=
  (3 <=? length (default [] (Email.personalization_elements email)))%nat.
Definition length_ok (email : Email.t) : bool :=
  let n := PyStr.word_count (default EmptyString (Email.email_body email)) in
  (50 <=? n)%nat && (n <=? 200)%nat.
Definition cta_ok (lower : string -> string) (email : Email.t) : bool :=
  any_in cta_keywords (lower (default EmptyString (Email.email_body email))).
Definition non_generic_ok (lower : string -> string) (email : Email.t) : bool :=
  negb (any_in spam_phrases
          (lower (default EmptyString (Email.email_body email)))).

Definition weight (ok : bool) (w : float) : float := if ok then w else 0.0.

Definition personalization_part email := weight (personalization_ok email) 0.3.
Definition length_part email := weight (length_ok email) 0.2.
Definition cta_part lower email := weight (cta_ok lower email) 0.2.
Definition non_generic_part lower email := weight (non_generic_ok lower email) 0.2.
Definition relevance_part (analysis : Analysis.t) : float :=
  default 0.0 (Analysis.relevance_score analysis) * 0.1.

Definition score (lower : string -> string) (email : Email.t)
    (analysis : Analysis.t) : float :=
  personalization_part email + length_part email + cta_part lower email
  + non_generic_part lower email + relevance_part analysis.

(** The issue each failed check reports, in the order of the checks. *)
Definition issues (lower : string -> string) (email : Email.t) : list string :=
  ((if personalization_ok email then []
   else [("Only "
          +:+ PyStr.of_nat (length (default [] (Email.personalization_elements email)))
          +:+ " personalization elements (need 3+)")%string])
  ++ (if length_ok email then []
      else [("Word count "
             +:+ PyStr.of_nat
                   (PyStr.word_count (default EmptyString (Email.email_body email)))
             +:+ " (ideal: 50-200)")%string])
  ++ (if cta_ok lower email then [] else ["No clear call-to-action"%string])
  ++ (if non_generic_ok lower email then []
      else ["Contains generic spam phrases"%string]))%list.

Definition failed_checks (lower : string -> string) (email : Email.t) : nat :=
  length (filter (fun b => b = false)
            [personalization_ok email; length_ok email; cta_ok lower email;
             non_generic_ok lower email]).
End EvaluatorSpec.

Local Close Scope float_scope.

(** The database behind the session, and the history of calls. *)
Record World := {
  log : list Event;
  campaigns : list Campaign.t;
  leads : list Lead.t
}.

Definition record_event (ev : Event) (w : World) : World :=
  {| log := log w ++ [ev]; campaigns := campaigns w; leads := leads w |}.

Definition set_campaigns (cs : list Campaign.t) (w : World) : World :=
  {| log := log w; campaigns := cs; leads := leads w |}.

Definition set_leads (ls : list Lead.t) (w : World) : World :=
  {| log := log w; campaigns := campaigns w; leads := ls |}.

(** ** A state-and-exception monad for the [async def] methods *)

Definition M (S A : Type) : Type := S -> Exc A * S.

Definition ret {S A} (a : A) : M S A := fun s => (Ok a, s).
Definition raise {S A} (e : exn) : M S A := fun s => (Raise e, s).
Definition bind {S A B} (c : M S A) (k : A -> M S B) : M S B :=
  fun s => match c s with
           | (Ok a, s') => k a s'
           | (Raise e, s') => (Raise e, s')
           end.
Definition of_exc {S A} (x : Exc A) : M S A := fun s => (x, s).

(** [try: c except Exception as e: h e]. *)
Definition try_except {S A} (c : M S A) (h : exn -> M S A) : M S A :=
  fun s => match c s with
           | (Ok a, s') => (Ok a, s')
           | (Raise e, s') => h e s'
           end.

Notation "x <~ c ;; k" := (bind c (fun x => k))
  (at level 100, c at next level, right associativity).
Notation "c ;;; k" := (bind c (fun _ => k))
  (at level 100, right associativity).

(** A call to a collaborator: it enters the history, then the collaborator
    answers. *)
Definition call {A} (ev : Event) (oracle : list Event -> Exc A) : M World A :=
  fun w => let w' := record_event ev w in (oracle (log w'), w').

Definition note (ev : Event) : M World unit :=
  fun w => (Ok tt, record_event ev w).

Definition now (env : Env) : M World Z :=
  fun w => let w' := record_event EvUtcNow w in (Ok (utcnow env (log w')), w').

(** [self.db.commit()]. *)
Definition commit (env : Env) : M World unit := call EvDbCommit (db_commit env).

(** [self.db.refresh(campaign)]. *)
Definition refresh (env : Env) (campaign_id : Z) : M World unit :=
  call (EvDbRefresh campaign_id) (db_refresh env).

(** ** Stage results *)

Module Enrichment.
Record data := {
  linkedin_profile : option Payload;
  recent_activity : option Payload;
  company_intelligence : option Payload
}.
Record t := {
  status : string;
  payload : data;
  error : option exn
}.
Definition no_data : data :=
  {| linkedin_profile := None; recent_activity := None;
     company_intelligence := None |}.
End Enrichment.

Module SendResult.
Record t := { success : bool; sent_at : Z }.
End SendResult.

(** The [result] dictionary of [process_lead]; a key that was never assigned
    is [None]. *)
Module Result.
Record t := {
  lead_id : Z;
  lead_name : string;
  status : string;
  enrichment : option Enrichment.t;
  analysis : option Analysis.t;
  email_generation : option (option Email.t);
  quality_check : option (option QualityCheck.t);
  send : option SendResult.t;
  campaign_id : option Z;
  relevance_score : option float;
  error : option exn
}.

Definition init (lead : Lead.t) : t :=
  {| lead_id := Lead.id lead; lead_name := Lead.name lead;
     status := "processing";
     enrichment := None; analysis := None; email_generation := None;
     quality_check := None; send := None; campaign_id := None;
     relevance_score := None; error := None |}.

Definition set_status (s : string) (r : t) : t :=
  {| lead_id := lead_id r; lead_name := lead_name r; status := s;
     enrichment := enrichment r; analysis := analysis r;
     email_generation := email_generation r; quality_check := quality_check r;
     send := send r; campaign_id := campaign_id r;
     relevance_score := relevance_score r; error := error r |}.

Definition set_enrichment (e : Enrichment.t) (r : t) : t :=
  {| lead_id := lead_id r; lead_name := lead_name r; status := status r;
     enrichment := Some e; analysis := analysis r;
     email_generation := email_generation r; quality_check := quality_check r;
     send := send r; campaign_id := campaign_id r;
     relevance_score := relevance_score r; error := error r |}.

Definition set_analysis (a : Analysis.t) (r : t) : t :=
  {| lead_id := lead_id r; lead_name := lead_name r; status := status r;
     enrichment := enrichment r; analysis := Some a;
     email_generation := email_generation r; quality_check := quality_check r;
     send := send r; campaign_id := campaign_id r;
     relevance_score := relevance_score r; error := error r |}.

Definition set_generation (e : option Email.t) (q : option QualityCheck.t)
    (r : t) : t :=
  {| lead_id := lead_id r; lead_name := lead_name r; status := status r;
     enrichment := enrichment r; analysis := analysis r;
     email_generation := Some e; quality_check := Some q;
     send := send r; campaign_id := campaign_id r;
     relevance_score := relevance_score r; error := error r |}.

Definition set_send (s : SendResult.t) (r : t) : t :=
  {| lead_id := lead_id r; lead_name := lead_name r; status := status r;
     enrichment := enrichment r; analysis := analysis r;
     email_generation := email_generation r; quality_check := quality_check r;
     send := Some s; campaign_id := campaign_id r;
     relevance_score := relevance_score r; error := error r |}.

Definition set_campaign_id (i : Z) (r : t) : t :=
  {| lead_id := lead_id r; lead_name := lead_name r; status := status r;
     enrichment := enrichment r; analysis := analysis r;
     email_generation := email_generation r; quality_check := quality_check r;
     send := send r; campaign_id := Some i;
     relevance_score := relevance_score r; error := error r |}.

Definition set_relevance_score (x : float) (r : t) : t :=
  {| lead_id := lead_id r; lead_name := lead_name r; status := status r;
     enrichment := enrichment r; analysis := analysis r;
     email_generation := email_generation r; quality_check := quality_check r;
     send := send r; campaign_id := campaign_id r;
     relevance_score := Some x; error := error r |}.

Definition set_error (e : exn) (r : t) : t :=
  {| lead_id := lead_id r; lead_name := lead_name r; status := status r;
     enrichment := enrichment r; analysis := analysis r;
     email_generation := email_generation r; quality_check := quality_check r;
     send := send r; campaign_id := campaign_id r;
     relevance_score := relevance_score r; error := Some e |}.
End Result.

(** The [stats] dictionary of [batch_process_leads]. *)
Module Statistics.
Record t := {
  total : nat;
  successful : nat;
  sent : nat;
  low_relevance : nat;
  failed : nat
}.
End Statistics.

(** What a call of [batch_process_leads] can do: return its dictionary,
    raise, or never return because every task waits for the limiter. *)
Inductive BatchOutcome :=
| Returned (results : list Result.t) (statistics : Statistics.t)
| BatchRaised (e : exn)
| Blocked.

(** ** The database rows *)

Definition fresh_id (rows : list Campaign.t) : Z :=
  1 + foldr Z.max 0%Z (map Campaign.id rows).

Definition get_campaign (i : Z) (rows : list Campaign.t) : option Campaign.t :=
  List.find (fun c => Z.eqb (Campaign.id c) i) rows.

Definition update_campaign (i : Z) (f : Campaign.t -> Campaign.t)
    (rows : list Campaign.t) : list Campaign.t :=
  map (fun c => if Z.eqb (Campaign.id c) i then f c else c) rows.

Definition update_lead (i : Z) (f : Lead.t -> Lead.t) (rows : list Lead.t)
  : list Lead.t :=
  map (fun l => if Z.eqb (Lead.id l) i then f l else l) rows.

(** The columns a stage assigns to [lead] reach its row when the commit of
    the stage has succeeded.  A stage that ends with an exception, raised by
    a collaborator or by the commit, stores none of its assignments. *)
Definition flush (lead : Lead.t) (assigned : Lead.t -> Lead.t) : M World unit :=
  fun w => (Ok tt, set_leads (update_lead (Lead.id lead) assigned (leads w)) w).

(** [self.db.query(Lead).filter(Lead.id.in_(lead_ids)).all()]: the rows of
    the table whose key is among [lead_ids], each row once. *)
Definition query_leads (lead_ids : list Z) (w : World) : list Lead.t :=
  List.filter (fun l => bool_decide (Lead.id l ∈ lead_ids)) (leads w).

(** [d[key]] on a dictionary that may lack the key. *)
Definition getitem {A} (key : string) (o : option A) : Exc A :=
  match o with
  | Some a => Ok a
  | None => Raise (KeyError key)
  end.

(** [l[i]]. *)
Definition item {A} (l : list A) (i : nat) : Exc A :=
  match l !! i with
  | Some a => Ok a
  | None => Raise IndexError
  end.

(** ** Concrete inputs used by the examples at the end of the file *)

Module Scenario.

Definition settings : Settings :=
{| kimi_model := "moonshot-v1-128k";
   max_concurrent_requests := 5;
   rate_limit_per_minute := 10;
   min_personalization_score := 0.7%float;
   max_retries := 3;
   email_send_delay_seconds := 30 |}.

Definition orchestrator : Orchestrator.t := __init__ settings.

Definition analysis_with (relevance : option float) : Analysis.t :=
{| Analysis.pain_points := None; Analysis.interests := None;
   Analysis.trigger_events := None; Analysis.communication_style := None;
   Analysis.relevance_score := relevance; Analysis.raw_analysis := None |}.

Definition draft (subject : option string) (body : string)
  (elements : list string) : Email.t :=
{| Email.subject_line := subject; Email.email_body := Some body;
   Email.personalization_elements := Some elements;
   Email.expected_response_rate := None; Email.error := None |}.

(** Two words, a spam phrase, no call to action, no personalization. *)
Definition generic_draft : Email.t := draft (Some "Hello") "checking in" [].

(** A short draft with three personalization elements and a call to
    action: it scores 0.7 plus a tenth of the relevance. *)
Definition short_draft : Email.t :=
draft (Some "Your post") "Worth a quick chat?" ["post"; "funding"; "hiring"].

(** The draft of the source's demonstration reply: 62 words, four
    personalization elements, a call to action, no spam phrase. *)
Definition demo_draft : Email.t :=
draft (Some "Your post about deployment bottlenecks")
  ("Hi Rahul, Saw your LinkedIn post this week about deployment bottlenecks "
   +:+ "as TechCorp scales. With your Series B and 15+ engineering openings, "
   +:+ "this timing feels familiar. We helped Razorpay tackle similar "
   +:+ "challenges during their hypergrowth phase - they went from 45-minute "
   +:+ "deploys to 12 minutes, letting their teams ship 3x more features. "
   +:+ "Worth a 15-minute chat about their approach? Best, [Your Name]")
  ["References specific LinkedIn post"; "Mentions Series B funding";
   "Ties to engineering hiring surge"; "Relevant social proof (Razorpay)"].

Definition rahul : Lead.t :=
{| Lead.id := 1; Lead.name := "Rahul Sharma"; Lead.email := "rahul@techcorp.in";
   Lead.company := Some "TechCorp India"; Lead.job_title := Some "VP Engineering";
   Lead.location := Some "Bangalore";
   Lead.linkedin_url := Some "https://linkedin.com/in/rahul";
   Lead.company_website := Some "https://techcorp.in";
   Lead.linkedin_profile_data := None; Lead.recent_posts := None;
   Lead.company_news := None; Lead.company_industry := None;
   Lead.pain_points := None; Lead.interests := None;
   Lead.trigger_events := None; Lead.relevance_score := Some 0%float;
   Lead.last_enriched_at := None |}.

(** A lead created without a company. *)
Definition priya : Lead.t :=
{| Lead.id := 2; Lead.name := "Priya Patel"; Lead.email := "priya@example.com";
   Lead.company := None; Lead.job_title := None; Lead.location := None;
   Lead.linkedin_url := None; Lead.company_website := None;
   Lead.linkedin_profile_data := None; Lead.recent_posts := None;
   Lead.company_news := None; Lead.company_industry := None;
   Lead.pain_points := None; Lead.interests := None;
   Lead.trigger_events := None; Lead.relevance_score := Some 0%float;
   Lead.last_enriched_at := None |}.

Definition store : World :=
{| log := []; campaigns := []; leads := [rahul; priya] |}.

(** Decoding: a text that starts with a brace is a document; the document
    is read by its name. *)
Definition json_loads (text : string) : option string :=
if PyStr.prefix "{" text then Some text else None.

Definition analysis_of_json (doc : string) : Analysis.t :=
if String.eqb doc "{low}" then analysis_with (Some 0.4%float)
else analysis_with (Some 0.92%float).

Definition email_of_json (doc : string) : Email.t :=
if String.eqb doc "{short}" then short_draft else demo_draft.

(** The completion endpoint answers the analysis request with
    [analysis_text] and the generation request with [email_text]. *)
Definition kimi (analysis_text email_text : string) (history : list Event)
  : Exc string :=
match last history with
| Some (EvKimi AnalyzeLead _) => Ok analysis_text
| Some (EvKimi WriteEmail _) => Ok email_text
| _ => Raise (External "unexpected call")
end.

Definition up {A} (a : A) (history : list Event) : Exc A := Ok a.
Definition down {A} (history : list Event) : Exc A :=
Raise (External "service unavailable").

(** The collaborators of the scenarios.  Their texts are ASCII, on which
    [str.lower] is [PyStr.lower]; the company data hold no news and no
    industry. *)
Definition env_with (scrape : list Event -> Exc Payload)
  (answers : list Event -> Exc string) (commits : list Event -> Exc unit) : Env :=
{| scrape_profile := scrape;
   get_recent_activity := fun _ => Ok "[]";
   enrich_company_data := fun _ => Ok "{}";
   call_kimi := answers;
   db_commit := commits;
   db_refresh := up tt;
   utcnow := fun history => Z.of_nat (length history);
   payload_get := fun _ _ => None;
   str_lower := PyStr.lower |}.

(** [env] with another behaviour of [db.refresh]. *)
Definition refreshing (refreshes : list Event -> Exc unit) (env : Env) : Env :=
{| scrape_profile := scrape_profile env;
   get_recent_activity := get_recent_activity env;
   enrich_company_data := enrich_company_data env;
   call_kimi := call_kimi env;
   db_commit := db_commit env;
   db_refresh := refreshes;
   utcnow := utcnow env;
   payload_get := payload_get env;
   str_lower := str_lower env |}.

(** Everything works and the first draft is the demonstration draft. *)
Definition env_demo : Env :=
env_with (up "{}") (kimi "{analysis}" "{draft}") (up tt).

(** Every draft is the short one, which scores below 0.8. *)
Definition env_short : Env :=
env_with (up "{}") (kimi "{analysis}" "{short}") (up tt).

(** The analysis finds a relevance of 0.4. *)
Definition env_low : Env :=
env_with (up "{}") (kimi "{low}" "{draft}") (up tt).

(** The database is unreachable: every commit raises. *)
Definition env_store_down : Env :=
env_with (up "{}") (kimi "{analysis}" "{draft}") down.

(** The commit of the dispatch fails: the database is lost once the
    e-mail is on its way. *)
Definition env_dispatch_down : Env :=
env_with (up "{}") (kimi "{analysis}" "{draft}")
  (fun history => if existsb is_send history then down history else Ok tt).

(** Every draft is the short one, and the database is lost between the
    commit of the campaign and its refresh. *)
Definition env_refresh_down : Env := refreshing down env_short.

(** The generation request is answered with plain text. *)
Definition env_garbled : Env :=
env_with (up "{}")
  (kimi "{analysis}" "I am the Kimi Agent. For this demo, a generic confirmation.")
  (up tt).

End Scenario.

(** ** The requests and replies of the routes of [main.py] *)

(** [main.CampaignRequest]. *)
Module CampaignRequest.
Record t := {
  lead_ids : list Z;
  company_context : string;
  value_proposition : string;
  auto_send : bool;
  generate_ab_variants : bool
}.
End CampaignRequest.

(** A call handed to [background_tasks.add_task]: it runs after the reply
    has been sent. *)
Module BackgroundTask.
Record t := {
  lead_ids : list Z;
  company_context : string;
  value_proposition : string;
  auto_send : bool
}.
End BackgroundTask.

(** The two dictionaries [create_campaign] can return. *)
Module CampaignReply.
Inductive t :=
| Completed (results : list Result.t) (statistics : Statistics.t)
| Processing (message : string) (lead_ids : list Z).
End CampaignReply.

(** The dictionary [send_campaign] returns. *)
Module SendReply.
Record t := { status : string; campaign_id : Z; sent_at : Z }.
End SendReply.

(** What a route does with a request: it returns a body, raises
    [HTTPException], lets an exception of the orchestrator through, or never
    returns. *)
Inductive Reply (A : Type) :=
| Answer (body : A)
| HTTPException (status_code : Z) (detail : string)
| Unhandled (e : exn)
| NoAnswer.
Arguments Answer {A} body.
Arguments HTTPException {A} status_code detail.
Arguments Unhandled {A} e.
Arguments NoAnswer {A}.

(** ** The completion client of [kimi_agent.py] *)

Module KimiAgent.

(** The literals of the source hold double quotes.  They are written here
    with [~] in place of each double quote ([~] occurs in none of them), and
    [quote] puts the double quotes back. *)
Definition quote_ascii (c : ascii) : ascii :=
if Ascii.eqb c "~" then ascii_of_nat 34 else c.

Fixpoint quote (s : string) : string :=
match s with
| EmptyString => EmptyString
| String c t => String (quote_ascii c) (quote t)
end.

(** [str(v)] as an f-string prints a value of [lead_data]. *)
Definition format_pyval (v : pyval) : string :=
match v with
| PyNone => "None"
| PyStr s => s
| PyData d => d
end.

Definition format_bool (b : bool) : string := if b then "True" else "False".

(** [str(n)] for an [int]. *)
Definition format_int (n : Z) : string := NilZero.string_of_int (Z.to_int n).

(** The f-string [analysis_prompt] of [analyze_lead_profile];
    [lead_data_json] is [json.dumps(lead_data, indent=2)]. *)
Definition analysis_prompt (lead_data_json : string) : string :=
"
You are an expert sales intelligence analyst. Analyze this lead's profile and identify:

1. **Pain Points**: What challenges might they be facing based on their role, industry, and recent activity?
2. **Interests**: What topics, technologies, or business areas are they interested in?
3. **Trigger Events**: Recent events that make NOW the perfect time to reach out
4. **Personalization Hooks**: Specific things we can reference to show we did our homework
5. **Communication Style**: How formal/casual should we be based on their online presence?

Lead Data:
```json
"
+:+ lead_data_json
+:+ quote "
```

Return your analysis as a structured JSON with these exact keys:
- pain_points: [list of identified pain points]
- interests: [list of professional interests]
- trigger_events: [list of recent trigger events with timestamps]
- personalization_hooks: [specific things to mention]
- communication_style: ~formal~ | ~semi-formal~ | ~casual~
- relevance_score: 0-1 (how relevant our offering is to them)
- recommended_approach: ~value-first~ | ~problem-solution~ | ~social-proof~ | ~educational~
".

(** The f-string [generation_prompt] of [generate_personalized_email]; the
    arguments are the formatted values, in the order of the text. *)
Definition generation_prompt (name company job_title analysis_json company_context value_proposition email_goal communication_style : string) : string :=
"
You are an expert B2B copywriter specializing in cold outreach that gets 15-20% response rates.

Write a hyper-personalized cold outreach email using this information:

**Lead Info:**
- Name: "
+:+ name
+:+ "
- Company: "
+:+ company
+:+ "
- Role: "
+:+ job_title
+:+ "

**Intelligence:**
"
+:+ analysis_json
+:+ "

**Our Context:**
"
+:+ company_context
+:+ "

**Value Proposition:**
"
+:+ value_proposition
+:+ "

**Goal:**
"
+:+ email_goal
+:+ "

**Critical Rules:**
1. Start with a SPECIFIC observation about their recent activity (post, article, company news)
2. NO generic compliments or fluff
3. Lead with VALUE, not your product
4. Keep it under 150 words
5. One clear call-to-action
6. Use their communication style ("
+:+ communication_style
+:+ quote ")
7. Never sound like a template
8. Reference something they posted/wrote in the last 2 weeks if available

Return JSON:
{
  ~subject_line~: ~...~,
  ~email_body~: ~...~,
  ~personalization_elements~: [~element1~, ~element2~, ...],
  ~reasoning~: ~Why this approach will work~,
  ~expected_response_rate~: 0.15-0.20
}
".

(** The f-string [variant_prompt] of [generate_ab_variants]. *)
Definition variant_prompt (num_variants subject_line email_body name company : string) : string :=
"
Generate "
+:+ num_variants
+:+ " alternative versions of this email with DIFFERENT strategic approaches:

Original Email:
Subject: "
+:+ subject_line
+:+ "
Body: "
+:+ email_body
+:+ "

Lead: "
+:+ name
+:+ " at "
+:+ company
+:+ quote "

Create variants using these different approaches:
1. ~Problem-Agitation~: Start with their pain point, agitate it, then offer solution
2. ~Social Proof~: Lead with a similar company/person who got results
3. ~Educational~: Share a useful insight/framework first, then connect to your offering

Each variant should:
- Have a DIFFERENT subject line strategy
- Take a DIFFERENT opening approach
- Still be hyper-personalized
- Be same length (under 150 words)

Return JSON array:
[
  {
    ~variant_name~: ~problem-agitation~,
    ~subject_line~: ~...~,
    ~email_body~: ~...~,
    ~strategy~: ~description~
  },
  ...
]
".

(** The f-string [followup_prompt] of [generate_follow_up];
    [sequence_number] is formatted twice. *)
Definition followup_prompt (sequence_number subject_line email_body days_since_sent opened clicked : string) : string :=
"
Generate follow-up email #"
+:+ sequence_number
+:+ " for this cold outreach:

Original Email:
Subject: "
+:+ subject_line
+:+ "
Body: "
+:+ email_body
+:+ "

Engagement:
- Days since sent: "
+:+ days_since_sent
+:+ "
- Opened: "
+:+ opened
+:+ "
- Clicked: "
+:+ clicked
+:+ quote "

Follow-up Rules:
1. If they opened but didn't reply: Assume they're interested but busy/forgot
2. If they didn't open: Try a completely different angle/subject
3. Keep it SHORT (under 100 words)
4. Add NEW value (new insight, different benefit, timely news)
5. No ~just following up~ or ~bumping this~ - that's weak
6. Sequence "
+:+ sequence_number
+:+ quote " should feel natural, not desperate

Return JSON:
{
  ~subject_line~: ~...~,
  ~email_body~: ~...~,
  ~strategy~: ~why this follow-up will work~
}
".

(** The three replies of [_get_mock_response]. *)
Definition mock_analysis : string :=
quote "
            ```json
            {
              ~pain_points~: [
                ~Deployment velocity bottlenecks as the engineering team scales~,
                ~High infrastructure maintenance overhead~,
                ~Difficulty in maintaining code quality during hypergrowth~
              ],
              ~interests~: [
                ~DevOps automation~,
                ~Cloud-native architecture~,
                ~Engineering productivity metrics~
              ],
              ~trigger_events~: [
                {
                  ~type~: ~hiring_surge~,
                  ~description~: ~15+ engineering openings posted recently~,
                  ~timestamp~: ~2024-02-01~,
                  ~relevance~: 0.95
                },
                {
                  ~type~: ~funding~,
                  ~description~: ~Company recently raised Series B funding~,
                  ~timestamp~: ~2024-01-15~,
                  ~relevance~: 0.90
                }
              ],
              ~personalization_hooks~: [
                ~Recent LinkedIn post about scaling engineering teams~,
                ~Mention of TechCorp's expansion into new markets~,
                ~Shared interest in sustainable open-source development~
              ],
              ~communication_style~: ~semi-formal~,
              ~relevance_score~: 0.92,
              ~recommended_approach~: ~problem-solution~
            }
            ```
            ".

Definition mock_email : string :=
quote "
            ```json
            {
              ~subject_line~: ~Your post about deployment bottlenecks~,
              ~email_body~: ~Hi Rahul,\n\nSaw your LinkedIn post this week about deployment bottlenecks as TechCorp scales. With your Series B and 15+ engineering openings, this timing feels familiar.\n\nWe helped Razorpay tackle similar challenges during their hypergrowth phase - they went from 45-minute deploys to 12 minutes, letting their teams ship 3x more features.\n\nWorth a 15-minute chat about their approach?\n\nBest,\n[Your Name]~,
              ~personalization_elements~: [
                ~References specific LinkedIn post~,
                ~Mentions Series B funding~,
                ~Ties to engineering hiring surge~,
                ~Relevant social proof (Razorpay)~
              ],
              ~reasoning~: ~Lead with a specific trigger event (hiring surge + funding) and provided relevant social proof that directly addresses their scaling bottleneck.~,
              ~expected_response_rate~: 0.18
            }
            ```
            ".

Definition mock_generic : string :=
"I am the Kimi Agent. In a real scenario, I would process your request and return a thoughtful response. For this demo, I'm providing this generic confirmation.".

Definition analysis_system : string :=
"You are an expert B2B sales intelligence analyst who identifies personalization opportunities.".

Definition generation_system : string :=
"You are a top 1% B2B copywriter. Your emails:
- Get opened because subjects are curiosity-driven and specific
- Get read because you lead with value
- Get responses because you show you did research
- Never sound like marketing spam".

Definition variant_system : string :=
"You are an expert at A/B testing different email approaches.".

Definition followup_system : string :=
"You create follow-ups that feel helpful, not pushy.".

(** An entry of [messages]. *)
Module Message.
Record t := { role : string; content : string }.
End Message.

Module Usage.
Record t := { prompt_tokens : Z; completion_tokens : Z; total_tokens : Z }.
End Usage.

(** The dictionary [_call_kimi] returns. *)
Module Completion.
Record t := {
  content : string;
  tool_calls : option Payload;
  usage : option Usage.t
}.
End Completion.

(** The keyword arguments of [client.chat.completions.create]; a key that
    was not set is [None]. *)
Module Kwargs.
Record t := {
  model : string;
  messages : list Message.t;
  temperature : float;
  max_tokens : Z;
  tools : option (list Payload);
  tool_choice : option string
}.
End Kwargs.

(** What [_call_kimi] reads: [settings.kimi_api_key] and the attribute
    [model] that [__init__] copies from [settings.kimi_model]. *)
Record t := {
  kimi_api_key : string;
  model : string
}.

(** The client: it answers a call from the calls made so far, the call
    being answered included as the last one. *)
Definition Client := list Kwargs.t -> Exc Completion.t.

(** [_get_mock_response]. *)
Definition _get_mock_response (messages : list Message.t) : Exc Completion.t :=
match last messages with
| None => Raise IndexError
| Some message =>
    let user_msg := PyStr.lower (Message.content message) in
    let content :=
      if PyStr.contains "analyze this lead" user_msg
         || PyStr.contains "identify:" user_msg
      then mock_analysis
      else if PyStr.contains "write a hyper-personalized cold outreach email"
                user_msg
      then mock_email
      else mock_generic in
    Ok {| Completion.content := content;
          Completion.tool_calls := None;
          Completion.usage :=
            Some {| Usage.prompt_tokens := 100;
                    Usage.completion_tokens := 150;
                    Usage.total_tokens := 250 |} |}
end.

(** [not settings.kimi_api_key or "test-key" in settings.kimi_api_key]. *)
Definition demo_key (key : string) : bool :=
String.eqb key EmptyString || PyStr.contains "test-key" key.

(** Truth value of [tools]: a list that is not empty. *)
Definition has_tools (tools : option (list Payload)) : bool :=
match tools with
| Some (_ :: _) => true
| _ => false
end.

(** [_call_kimi]; the state is the list of calls the client received. *)
Definition _call_kimi (self : t) (client : Client) (messages : list Message.t)
  (temperature : float) (max_tokens : Z) (tools : option (list Payload))
  : M (list Kwargs.t) Completion.t :=
if demo_key (kimi_api_key self) then of_exc (_get_mock_response messages)
else
  try_except
    (let kwargs :=
       {| Kwargs.model := model self;
          Kwargs.messages := messages;
          Kwargs.temperature := temperature;
          Kwargs.max_tokens := max_tokens;
          Kwargs.tools := if has_tools tools then tools else None;
          Kwargs.tool_choice := if has_tools tools then Some "auto" else None |} in
     fun calls => let calls' := calls ++ [kwargs] in (client calls', calls'))
    (fun e => raise e).

(** [engagement_data] as [generate_follow_up] reads it: the two keys it
    looks up, each a flag when present. *)
Module Engagement.
Record t := { opened : option bool; clicked : option bool }.
End Engagement.

(** The [messages] lists the four capabilities build. *)
Definition messages_of (system user : string) : list Message.t :=
[ {| Message.role := "system"; Message.content := system |};
  {| Message.role := "user"; Message.content := user |} ].

End KimiAgent.

(** ** The scrapers: values, exceptions, the network and parsed pages *)

Module Web.

(** The exceptions the scrapers can meet: those of [exn], an unbound name,
    a missing attribute, and the error of [tenacity] once its attempts are
    used up. *)
Inductive error :=
| Std (e : exn)
| NameError (name : string)
| AttributeError (attribute : string)
| RetryError.

Inductive Try (A : Type) :=
| Done (a : A)
| Failed (e : error).
Arguments Done {A} a.
Arguments Failed {A} e.

(** A decoded JSON document. *)
#[local] Unset Elimination Schemes.
Inductive json :=
| JNull
| JBool (b : bool)
| JInt (n : Z)
| JFloat (x : float)
| JString (s : string)
| JArray (items : list json)
| JObject (members : list (string * json)).
#[local] Set Elimination Schemes.

(** The value stored under [key] by a dictionary given by its entries. *)
Fixpoint lookup (key : string) (members : list (string * json)) : option json :=
match members with
| [] => None
| (k, v) :: rest => if String.eqb k key then Some v else lookup key rest
end.

(** [v.get(key, default)]: only a dictionary has the method. *)
Definition get_method (v : json) (key : string) (default : json) : Try json :=
match v with
| JObject members =>
    Done (match lookup key members with Some x => x | None => default end)
| _ => Failed (AttributeError "get")
end.

(** [v[key]] for a string [key]. *)
Definition subscript (v : json) (key : string) : Try json :=
match v with
| JObject members =>
    match lookup key members with
    | Some x => Done x
    | None => Failed (Std (KeyError key))
    end
| _ => Failed (Std TypeError)
end.

(** [for x in v]: the items of a list, the keys of a dictionary, the
    characters of a string. *)
Definition iterate (v : json) : Try (list json) :=
match v with
| JArray items => Done items
| JObject members => Done (map (fun m => JString (fst m)) members)
| JString s =>
    Done (map (fun c => JString (String c EmptyString)) (list_ascii_of_string s))
| _ => Failed (Std TypeError)
end.

(** [v[:n]]: strings and lists can be sliced; anything else raises (a
    dictionary raises [TypeError] or, from Python 3.12 on, [KeyError]). *)
Definition slice_to (n : nat) (v : json) : Try json :=
match v with
| JString s => Done (JString (PyStr.take_chars n s))
| JArray items => Done (JArray (take n items))
| _ => Failed (Std TypeError)
end.

(** [v.lower()]. *)
Definition lower_method (v : json) : Try string :=
match v with
| JString s => Done (PyStr.lower s)
| _ => Failed (AttributeError "lower")
end.

(** [l[:limit]] for an integer [limit]: a negative limit counts from the
    end. *)
Definition slice_list {A} (limit : Z) (l : list A) : list A :=
if (0 <=? limit)%Z then take (Z.to_nat limit) l
else take (length l - Z.to_nat (- limit)) l.

(** [s.rstrip(c)] for a single character. *)
Fixpoint lstrip_char (c : ascii) (s : string) : string :=
match s with
| String a t => if Ascii.eqb a c then lstrip_char c t else s
| EmptyString => EmptyString
end.

Definition rstrip_char (c : ascii) (s : string) : string :=
string_of_list_ascii
  (rev (list_ascii_of_string
          (lstrip_char c (string_of_list_ascii (rev (list_ascii_of_string s)))))).

(** [sep.join(l)]. *)
Fixpoint join (sep : string) (l : list string) : string :=
match l with
| [] => EmptyString
| [x] => x
| x :: rest => x +:+ sep +:+ join sep rest
end.

(** The string made of one double quote. *)
Definition double_quote : string := String (ascii_of_nat 34) EmptyString.

(** Truth value of an optional string. *)
Definition truthy (o : option string) : bool :=
match o with
| Some (String _ _) => true
| _ => false
end.

(** [a or b]. *)
Definition or_else (a b : option string) : option string :=
if truthy a then a else b.

(** A request that leaves the process. *)
Inductive Request :=
| GET (url : string) (params : list (string * string))
| POST (url : string) (data : list (string * string)).

(** [httpx.Response] as the scrapers read it: what [raise_for_status()]
    and [json()] do is fixed by the response. *)
Record Response := {
  status_code : Z;
  url_holds_feed : Try bool;
  text : string;
  raise_for_status : Try unit;
  json_body : Try json
}.

(** The network and the clock: each answers from the requests made so
    far, the request being answered included as the last one. *)
Record Net := {
  send : list Request -> Try Response;
  utcnow_isoformat : list Request -> string;
  date_days_back : Z -> list Request -> Try string
}.

(** The arguments of [find] and [find_all]: a tag name and, possibly, a
    pattern for the class or the id, given attribute values, or an attribute
    that must be present. *)
Inductive Selector :=
| Tag (name : string)
| TagClass (name : string) (pattern : string)
| TagId (name : string) (pattern : string)
| TagAttrs (name : string) (attrs : list (string * string))
| TagWith (name : string) (attribute : string).

(** [BeautifulSoup] and the elements of a parsed page. *)
Record Html := {
  Element : Type;
  BeautifulSoup : string -> Element;
  find : Element -> Selector -> option Element;
  find_all : Element -> Selector -> list Element;
  text_of : Element -> string;
  attribute : Element -> string -> option string
}.

(** [re.compile(pattern)] in a module whose global names are [globals]:
    the name [re] must be bound. *)
Definition re_compile (globals : list string) (pattern : string) : Try string :=
if bool_decide ("re" ∈ globals) then Done pattern else Failed (NameError "re").

(** A state-and-exception monad over [Try]. *)
Definition W (S A : Type) : Type := S -> Try A * S.

Definition ret {S A} (a : A) : W S A := fun s => (Done a, s).
Definition raise {S A} (e : error) : W S A := fun s => (Failed e, s).
Definition bind {S A B} (c : W S A) (k : A -> W S B) : W S B :=
  fun s => match c s with
           | (Done a, s') => k a s'
           | (Failed e, s') => (Failed e, s')
           end.
Definition of_try {S A} (x : Try A) : W S A := fun s => (x, s).

(** [try: c except Exception as e: h e]. *)
Definition try_except {S A} (c : W S A) (h : error -> W S A) : W S A :=
  fun s => match c s with
           | (Done a, s') => (Done a, s')
           | (Failed e, s') => h e s'
           end.

(** [for x in l: ...] where the body can raise: the results in order, or
    the first exception. *)
Fixpoint for_each {S A B} (f : A -> W S B) (l : list A) : W S (list B) :=
match l with
| [] => ret []
| x :: rest =>
    bind (f x) (fun y => bind (for_each f rest) (fun ys => ret (y :: ys)))
end.

(** A task awaited by [asyncio.gather(..., return_exceptions=True)]: its
    exception becomes its result. *)
Definition captured {S A} (c : W S A) : W S (Try A) :=
  fun s => let '(r, s') := c s in (Done r, s').

(** [@retry(stop=stop_after_attempt(n))]: the function is called again
    while it raises, [n] times at most. *)
Fixpoint retry {S A} (attempts : nat) (f : W S A) : W S A :=
match attempts with
| O => raise RetryError
| S n => try_except f (fun _ => retry n f)
end.

Declare Scope web_scope.
Notation "x <~ c ;; k" := (bind c (fun x => k))
  (at level 100, c at next level, right associativity) : web_scope.
Notation "c ;;; k" := (bind c (fun _ => k))
  (at level 100, right associativity) : web_scope.

End Web.

(** ** [linkedin_scraper.py] *)

Module LinkedInScraper.
Import Web.
Local Open Scope web_scope.

(** The names bound at the top of [linkedin_scraper.py]. *)
Definition globals : list string :=
["time"; "Dict"; "List"; "Optional"; "Any"; "datetime"; "timedelta"; "re";
 "httpx"; "BeautifulSoup"; "logger"; "retry"; "stop_after_attempt";
 "wait_exponential"; "settings"; "LinkedInScraper"; "linkedin_scraper"].

(** The scraper: its flag, and the requests its session has made. *)
Record t := {
  is_logged_in : bool;
  history : list Request
}.

(** The two settings [login] falls back on. *)
Record Credentials := {
  linkedin_email : option string;
  linkedin_password : option string
}.

(** The dictionary [_parse_profile_html] builds.  The last three keys are
    set only when the page has the section they come from. *)
Module Profile.
Record t := {
  linkedin_url : string;
  scraped_at : string;
  name : option string;
  headline : option string;
  location : option string;
  about : option string;
  current_job_title : option (option string);
  current_company : option (option string);
  skills : option (list string)
}.
End Profile.

(** What [scrape_profile] returns: the profile, or the dictionary of its
    handler. *)
Inductive Scraped :=
| Parsed (profile : Profile.t)
| NotScraped (linkedin_url : string) (error : error) (scraped_at : string).

Module Activity.
Record t := {
  content : option string;
  posted_at : option string;
  type : string;
  likes : string;
  comments : string
}.
End Activity.

Module Person.
Record t := {
  name : option string;
  linkedin_url : option string;
  headline : option string;
  location : option string
}.
End Person.

Section Scraper.

Variable net : Net.
Variable html : Html.
Variable settings : Credentials.

(** A request of the session: it enters the history, then the network
    answers. *)
Definition request (r : Request) : W t Response :=
fun self =>
  let h := history self ++ [r] in
  (send net h, {| is_logged_in := is_logged_in self; history := h |}).

(** [datetime.utcnow().isoformat()]. *)
Definition utcnow : W t string :=
fun self => (Done (utcnow_isoformat net (history self)), self).

(** [elem.text.strip() if elem else None]. *)
Definition stripped_text (elem : option (Element html)) : option string :=
match elem with
| Some e => Some (PyStr.strip (text_of html e))
| None => None
end.

(** [login]. *)
Definition login (email password : option string) : W t bool :=
let email := or_else email (linkedin_email settings) in
let password := or_else password (linkedin_password settings) in
if negb (truthy email) || negb (truthy password) then ret false
else
  try_except
    (let login_url := "https://www.linkedin.com/uas/login-submit" in
     response <~ request (POST login_url
                            [("session_key", default EmptyString email);
                             ("session_password",
                               default EmptyString password)]) ;;
     success <~ (if (status_code response =? 200)%Z
                 then of_try (url_holds_feed response)
                 else ret false) ;;
     if (success : bool) then
       (fun self =>
          (Done tt, {| is_logged_in := true; history := history self |})) ;;;
       ret true
     else ret false)
    (fun _ => ret false).

(** [_parse_profile_html]. *)
Definition _parse_profile_html (soup : Element html) (url : string)
  : W t Profile.t :=
scraped_at <~ utcnow ;;
name_pattern <~ of_try (re_compile globals
                          "text-heading-xlarge|top-card-layout__title") ;;
let name_elem := find html soup (TagClass "h1" name_pattern) in
headline_pattern <~ of_try (re_compile globals
                              "text-body-medium|top-card-layout__headline") ;;
let headline_elem := find html soup (TagClass "div" headline_pattern) in
location_pattern <~ of_try (re_compile globals
                              "top-card__subline-item|text-body-small") ;;
let location_elem := find html soup (TagClass "span" location_pattern) in
about_pattern <~ of_try (re_compile globals
                           "core-section-container__content|about-section") ;;
let about_elem := find html soup (TagClass "div" about_pattern) in
experience_pattern <~ of_try (re_compile globals "experience") ;;
let experience_section := find html soup (TagId "section" experience_pattern) in
job <~ match experience_section with
       | Some section =>
           match find html section (Tag "li") with
           | Some first_job =>
               title_pattern <~ of_try (re_compile globals "t-bold") ;;
               let title_elem := find html first_job (TagClass "div" title_pattern) in
               company_pattern <~ of_try (re_compile globals "t-normal") ;;
               let company_elem :=
                 find html first_job (TagClass "span" company_pattern) in
               ret (Some (stripped_text title_elem),
                    Some (stripped_text company_elem))
           | None => ret (None, None)
           end
       | None => ret (None, None)
       end ;;
skills_pattern <~ of_try (re_compile globals "skills") ;;
let skills_section := find html soup (TagId "section" skills_pattern) in
skills <~ match skills_section with
          | Some section =>
              skill_pattern <~ of_try (re_compile globals "skill-name") ;;
              let skills :=
                map (fun s => PyStr.strip (text_of html s))
                  (find_all html section (TagClass "span" skill_pattern)) in
              ret (Some (take 10 skills))
          | None => ret None
          end ;;
ret {| Profile.linkedin_url := url;
       Profile.scraped_at := scraped_at;
       Profile.name := stripped_text name_elem;
       Profile.headline := stripped_text headline_elem;
       Profile.location := stripped_text location_elem;
       Profile.about := stripped_text about_elem;
       Profile.current_job_title := fst job;
       Profile.current_company := snd job;
       Profile.skills := skills |}.

(** The URL [scrape_profile] fetches. *)
Definition profile_url (linkedin_url : string) : string :=
if negb (PyStr.prefix "http" linkedin_url)
then "https://www.linkedin.com/in/" +:+ linkedin_url
else linkedin_url.

(** The body of [scrape_profile], under its [try]. *)
Definition scrape_profile_once (linkedin_url : string) : W t Scraped :=
let linkedin_url := profile_url linkedin_url in
try_except
  (response <~ request (GET linkedin_url []) ;;
   of_try (raise_for_status response) ;;;
   let soup := BeautifulSoup html (text response) in
   profile_data <~ _parse_profile_html soup linkedin_url ;;
   ret (Parsed profile_data))
  (fun e =>
     scraped_at <~ utcnow ;;
     ret (NotScraped linkedin_url e scraped_at)).

(** [scrape_profile], with its decorator
    [@retry(stop=stop_after_attempt(3), ...)]. *)
Definition scrape_profile (linkedin_url : string) : W t Scraped :=
retry 3 (scrape_profile_once linkedin_url).

(** [linkedin_url.split('/in/')[-1].rstrip('/')]. *)
Definition username_of (linkedin_url : string) : string :=
rstrip_char "/" (List.last (PyStr.split "/in/" linkedin_url) EmptyString).

Definition activity_url (linkedin_url : string) : string :=
"https://www.linkedin.com/in/" +:+ username_of linkedin_url
+:+ "/recent-activity/all/".

(** [get_recent_activity]. *)
Definition get_recent_activity (linkedin_url : string) (limit : Z)
  : W t (list Activity.t) :=
try_except
  (response <~ request (GET (activity_url linkedin_url) []) ;;
   let soup := BeautifulSoup html (text response) in
   post_pattern <~ of_try (re_compile globals "feed-shared-update-v2") ;;
   let posts :=
     slice_list limit (find_all html soup (TagClass "div" post_pattern)) in
   for_each
     (fun post =>
        text_pattern <~ of_try (re_compile globals "feed-shared-text") ;;
        let text_elem := find html post (TagClass "div" text_pattern) in
        let time_elem := find html post (Tag "time") in
        likes_pattern <~ of_try (re_compile globals
                                   "social-details-social-counts__reactions-count") ;;
        let likes_elem := find html post (TagClass "span" likes_pattern) in
        comments_pattern <~ of_try (re_compile globals
                                      "social-details-social-counts__comments") ;;
        let comments_elem :=
          find html post (TagClass "button" comments_pattern) in
        ret {| Activity.content := stripped_text text_elem;
               Activity.posted_at :=
                 time_elem ≫= fun e => attribute html e "datetime";
               Activity.type := "post";
               Activity.likes := default "0" (stripped_text likes_elem);
               Activity.comments := default "0" (stripped_text comments_elem) |})
     posts)
  (fun _ => ret []).

(** The URL [search_people] fetches. *)
Definition search_url (keywords company title location : option string)
  : string :=
let search_params :=
  (if truthy keywords then ["keywords=" +:+ default EmptyString keywords] else [])
  ++ (if truthy company then ["company=" +:+ default EmptyString company] else [])
  ++ (if truthy title then ["title=" +:+ default EmptyString title] else [])
  ++ (if truthy location then ["location=" +:+ default EmptyString location]
      else []) in
"https://www.linkedin.com/search/results/people/?" +:+ join "&" search_params.

(** [search_people]. *)
Definition search_people (keywords company title location : option string)
  (limit : Z) : W t (list Person.t) :=
let search_url := search_url keywords company title location in
try_except
  (response <~ request (GET search_url []) ;;
   let soup := BeautifulSoup html (text response) in
   result_pattern <~ of_try (re_compile globals
                               "reusable-search__result-container") ;;
   let search_results :=
     slice_list limit (find_all html soup (TagClass "li" result_pattern)) in
   for_each
     (fun result =>
        let name_elem :=
          find html result (TagAttrs "span" [("aria-hidden", "true")]) in
        link_pattern <~ of_try (re_compile globals "app-aware-link") ;;
        let profile_link := find html result (TagClass "a" link_pattern) in
        headline_pattern <~ of_try (re_compile globals
                                      "entity-result__primary-subtitle") ;;
        let headline_elem :=
          find html result (TagClass "div" headline_pattern) in
        location_pattern <~ of_try (re_compile globals
                                      "entity-result__secondary-subtitle") ;;
        let location_elem :=
          find html result (TagClass "div" location_pattern) in
        ret {| Person.name := stripped_text name_elem;
               Person.linkedin_url :=
                 profile_link ≫= fun e => attribute html e "href";
               Person.headline := stripped_text headline_elem;
               Person.location := stripped_text location_elem |})
     search_results)
  (fun _ => ret []).

End Scraper.

End LinkedInScraper.

(** ** [company_intelligence.py] *)

Module CompanyIntelligence.
Import Web.
Local Open Scope web_scope.
Local Open Scope float_scope.

(** The names bound at the top of [company_intelligence.py]; the module
    uses [re] without importing it. *)
Definition globals : list string :=
["List"; "Dict"; "Any"; "Optional"; "datetime"; "timedelta"; "httpx"; "logger";
 "BeautifulSoup"; "settings"; "CompanyIntelligence"; "company_intel"]%string.

(** The two keys [__init__] copies from the settings. *)
Record t := {
  newsapi_key : option string;
  serpapi_key : option string
}.

Module Posting.
Record t := { title : string; location : option string }.
End Posting.

Module HiringSignals.
Record t := {
  is_hiring : bool;
  open_positions : nat;
  recent_postings : list Posting.t
}.
End HiringSignals.

Module FundingInfo.
Record t := {
  recent_funding : bool;
  funding_articles : list json;
  signal_strength : string
}.
End FundingInfo.

Module BlogLink.
Record t := { text : string; url : string }.
End BlogLink.

(** What [get_company_website_content] returns: the page, or the
    dictionary of its handler. *)
Inductive WebsiteContent :=
| Scraped (website_url : string) (title description : option string)
    (blog_section : list BlogLink.t) (scraped_at : string)
| NotScraped (website_url : string) (error : error).

(** The dictionary [enrich_company_data] returns.  [hiring_signals] is
    [None] for the empty dictionary; [website_data] is [None] when the key is
    not set and [Some None] for the empty dictionary. *)
Module CompanyData.
Record t := {
  company_name : string;
  website : option string;
  recent_news : list json;
  hiring_signals : option HiringSignals.t;
  funding_info : option FundingInfo.t;
  enriched_at : string;
  website_data : option (option WebsiteContent);
  trigger_score : float
}.
End CompanyData.

Section Intelligence.

Variable net : Net.
Variable html : Html.
Variable self : t.

(** The state is the list of requests of [self.client]. *)
Definition request (r : Request) : W (list Request) Response :=
fun history => let h := history ++ [r] in (send net h, h).

Definition utcnow : W (list Request) string :=
fun history => (Done (utcnow_isoformat net history), history).

(** [(datetime.now() - timedelta(days=days_back)).strftime('%Y-%m-%d')]. *)
Definition from_date (days_back : Z) : W (list Request) string :=
fun history => (date_days_back net days_back history, history).

(** [_scrape_google_news]. *)
Definition _scrape_google_news (company_name : string)
  (days_back max_articles : Z) : W (list Request) (list json) :=
try_except
  (let query := (company_name +:+ " news")%string in
   let url := ("https://news.google.com/search?q=" +:+ query
               +:+ "&hl=en-US&gl=US&ceid=US:en")%string in
   response <~ request (GET url []) ;;
   let soup := BeautifulSoup html (text response) in
   let article_elements :=
     slice_list max_articles (find_all html soup (Tag "article")) in
   ret (flat_map
          (fun article =>
             let title_elem := find html article (Tag "h3") in
             let link_elem := find html article (Tag "a") in
             let time_elem := find html article (Tag "time") in
             match title_elem, link_elem with
             | Some title_elem, Some link_elem =>
                 [JObject
                    [("title", JString (PyStr.strip (text_of html title_elem)));
                     ("url",
                       JString ("https://news.google.com"
                                +:+ default EmptyString
                                      (attribute html link_elem "href")));
                     ("published_at",
                       match time_elem ≫= fun e => attribute html e "datetime" with
                       | Some t => JString t
                       | None => JNull
                       end);
                     ("source", JString "Google News")]%string]
             | _, _ => []
             end)
          article_elements))
  (fun _ => ret []).

(** The dictionary [get_company_news] appends for one article of the
    reply; each step can raise. *)
Definition article_entry (article : json) : Try json :=
match subscript article "title" with
| Failed e => Failed e
| Done title =>
  match get_method article "description" JNull with
  | Failed e => Failed e
  | Done description =>
    match subscript article "url" with
    | Failed e => Failed e
    | Done url =>
      match subscript article "source" with
      | Failed e => Failed e
      | Done source =>
        match subscript source "name" with
        | Failed e => Failed e
        | Done source_name =>
          match subscript article "publishedAt" with
          | Failed e => Failed e
          | Done published_at =>
            match get_method article "content" (JString EmptyString) with
            | Failed e => Failed e
            | Done content =>
              match slice_to 500 content with
              | Failed e => Failed e
              | Done content_snippet =>
                  Done (JObject [("title", title);
                                 ("description", description);
                                 ("url", url);
                                 ("source", source_name);
                                 ("published_at", published_at);
                                 ("content_snippet", content_snippet)]%string)
              end
            end
          end
        end
      end
    end
  end
end.

(** The body of [get_company_news] for NewsAPI, under its [try]. *)
Definition fetch_news (company_name : string) (days_back max_articles : Z)
  : W (list Request) (list json) :=
from_date <~ from_date days_back ;;
let url := "https://newsapi.org/v2/everything"%string in
let params :=
  [("q", double_quote +:+ company_name +:+ double_quote);
   ("from", from_date);
   ("sortBy", "publishedAt");
   ("language", "en");
   ("pageSize", KimiAgent.format_int max_articles);
   ("apiKey", default EmptyString (newsapi_key self))]%string in
response <~ request (GET url params) ;;
of_try (raise_for_status response) ;;;
data <~ of_try (json_body response) ;;
listed <~ of_try (get_method data "articles" (JArray [])) ;;
items <~ of_try (iterate listed) ;;
for_each (fun article => of_try (article_entry article)) items.

(** [get_company_news]. *)
Definition get_company_news (company_name : string) (days_back max_articles : Z)
  : W (list Request) (list json) :=
if negb (truthy (newsapi_key self))
then _scrape_google_news company_name days_back max_articles
else
  try_except (fetch_news company_name days_back max_articles)
    (fun _ => ret []).

(** [check_hiring_signals]. *)
Definition check_hiring_signals (company_name : string)
  : W (list Request) HiringSignals.t :=
try_except
  (let url := ("https://www.linkedin.com/jobs/search/?keywords="
               +:+ company_name)%string in
   response <~ request (GET url []) ;;
   let soup := BeautifulSoup html (text response) in
   card_pattern <~ of_try (re_compile globals "job-search-card") ;;
   let job_cards := find_all html soup (TagClass "div" card_pattern) in
   recent_postings <~
     for_each
       (fun job =>
          title_pattern <~ of_try (re_compile globals "job-search-card__title") ;;
          let title_elem := find html job (TagClass "h3" title_pattern) in
          location_pattern <~ of_try (re_compile globals
                                        "job-search-card__location") ;;
          let location_elem :=
            find html job (TagClass "span" location_pattern) in
          ret match title_elem with
              | Some title_elem =>
                  [{| Posting.title := PyStr.strip (text_of html title_elem);
                      Posting.location :=
                        match location_elem with
                        | Some e => Some (PyStr.strip (text_of html e))
                        | None => None
                        end |}]
              | None => []
              end)
       (take 5 job_cards) ;;
   ret {| HiringSignals.is_hiring := (0 <? length job_cards)%nat;
          HiringSignals.open_positions := length job_cards;
          HiringSignals.recent_postings := concat recent_postings |})
  (fun _ =>
     ret {| HiringSignals.is_hiring := false;
            HiringSignals.open_positions := 0;
            HiringSignals.recent_postings := [] |}).

Definition funding_keywords : list string :=
["funding"; "raise"; "series"; "investment"; "million"; "venture"]%string.

(** [any(keyword in article['title'].lower() for keyword in
    funding_keywords)]. *)
Definition names_funding (article : json) : Try bool :=
match subscript article "title" with
| Done title =>
    match lower_method title with
    | Done lowered => Done (any_in funding_keywords lowered)
    | Failed e => Failed e
    end
| Failed e => Failed e
end.

(** The list comprehension of [get_funding_info]. *)
Fixpoint funding_news (news : list json) : Try (list json) :=
match news with
| [] => Done []
| article :: rest =>
    match names_funding article with
    | Done keep =>
        match funding_news rest with
        | Done kept => Done (if keep then article :: kept else kept)
        | Failed e => Failed e
        end
    | Failed e => Failed e
    end
end.

(** [get_funding_info]. *)
Definition get_funding_info (company_name : string)
  : W (list Request) (option FundingInfo.t) :=
try_except
  (let query := (company_name +:+ " funding Series raise investment")%string in
   news <~ get_company_news query 90 5 ;;
   funding_news <~ of_try (funding_news news) ;;
   match funding_news with
   | _ :: _ =>
       ret (Some {| FundingInfo.recent_funding := true;
                    FundingInfo.funding_articles := funding_news;
                    FundingInfo.signal_strength := "high" |})
   | [] => ret None
   end)
  (fun _ => ret None).

(** [get_company_website_content]. *)
Definition get_company_website_content (website_url : string)
  : W (list Request) WebsiteContent :=
try_except
  (response <~ request (GET website_url []) ;;
   let soup := BeautifulSoup html (text response) in
   let meta_desc :=
     find html soup (TagAttrs "meta" [("name", "description")]%string) in
   let description := meta_desc ≫= fun e => attribute html e "content" in
   let title := find html soup (Tag "title") in
   let page_title :=
     match title with
     | Some e => Some (PyStr.strip (text_of html e))
     | None => None
     end in
   let blog_links :=
     flat_map
       (fun link =>
          let href := default EmptyString (attribute html link "href") in
          if PyStr.contains "blog" href || PyStr.contains "news" href
             || PyStr.contains "press" href
          then [{| BlogLink.text := PyStr.strip (text_of html link);
                   BlogLink.url := if PyStr.prefix "http" href then href
                                   else (website_url +:+ href)%string |}]
          else [])
       (find_all html soup (TagWith "a" "href")) in
   scraped_at <~ utcnow ;;
   ret (Scraped website_url page_title description (take 5 blog_links)
          scraped_at))
  (fun e => ret (NotScraped website_url e)).

(** [x if not isinstance(x, Exception) else default]. *)
Definition result_or {A} (default : A) (x : Try A) : A :=
match x with
| Done a => a
| Failed _ => default
end.

(** [enrich_company_data].  The tasks of [asyncio.gather] are run in the
    order of the list. *)
Definition enrich_company_data (company_name : string) (website : option string)
  : W (list Request) CompanyData.t :=
news <~ captured (get_company_news company_name 30 10) ;;
hiring <~ captured (check_hiring_signals company_name) ;;
funding <~ captured (get_funding_info company_name) ;;
site <~ (if truthy website
         then page <~ captured (get_company_website_content
                                  (default EmptyString website)) ;;
              ret (Some page)
         else ret None) ;;
enriched_at <~ utcnow ;;
let recent_news := result_or [] news in
let hiring_signals :=
  match hiring with Done h => Some h | Failed _ => None end in
let funding_info := result_or None funding in
let website_data :=
  match site with
  | Some (Done page) => Some (Some page)
  | Some (Failed _) => Some None
  | None => None
  end in
(* Calculate trigger event score (the source starts from the integer 0,
   which Python adds to a float as 0.0) *)
let trigger_score := 0 in
let trigger_score :=
  match funding_info with
  | Some _ => trigger_score + 0.4
  | None => trigger_score
  end in
let trigger_score :=
  if (5 <? match hiring_signals with
           | Some h => HiringSignals.open_positions h
           | None => 0
           end)%nat
  then trigger_score + 0.3 else trigger_score in
let trigger_score :=
  if (5 <? length recent_news)%nat then trigger_score + 0.2 else trigger_score in
ret {| CompanyData.company_name := company_name;
       CompanyData.website := website;
       CompanyData.recent_news := recent_news;
       CompanyData.hiring_signals := hiring_signals;
       CompanyData.funding_info := funding_info;
       CompanyData.enriched_at := enriched_at;
       CompanyData.website_data := website_data;
       CompanyData.trigger_score := trigger_score |}.

End Intelligence.

End CompanyIntelligence.

(** ** More concrete inputs for the examples *)

Module Cases.
Import Scenario.

(** Fifty words separated by the NEXT LINE character U+0085, which
    [str.split()] takes for a blank. *)
Definition next_line_body : string :=
Eval vm_compute in
  String.concat (PyStr.of_bytes [194; 133]) (repeat "word" 50).

(** An empty JSON object between a NO-BREAK SPACE (U+00A0) and a NEXT LINE
    character, both of which [str.strip()] removes. *)
Definition wrapped_block : string :=
Eval vm_compute in
  PyStr.of_bytes [194; 160] ++ "{}" ++ PyStr.of_bytes [194; 133].

(** A decoder of drafts whose documents have no subject line. *)
Definition email_without_subject (doc : string) : Email.t :=
draft None "Worth a quick chat?" ["post"; "funding"; "hiring"].

(** The analysis request is answered with plain text. *)
Definition env_unparsed : Env :=
env_with (up "{}") (kimi "No analysis is available." "{draft}") (up tt).

(** A request for the two leads of the store, and one that names a key
    with no lead. *)
Definition request_for (lead_ids : list Z) : CampaignRequest.t :=
{| CampaignRequest.lead_ids := lead_ids;
   CampaignRequest.company_context := "Developer tooling";
   CampaignRequest.value_proposition := "Faster deployments";
   CampaignRequest.auto_send := false;
   CampaignRequest.generate_ab_variants := true |}.

(** An agent with a demonstration key, and a client that cannot be
    reached. *)
Definition demo_agent : KimiAgent.t :=
{| KimiAgent.kimi_api_key := "sk-test-key";
   KimiAgent.model := "moonshot-v1-128k" |}.

Definition no_client : KimiAgent.Client :=
fun _ => Raise (External "no network").

(** A parser that finds nothing in any page. *)
Definition blank_page : Web.Html :=
{| Web.Element := unit;
   Web.BeautifulSoup := fun _ => tt;
   Web.find := fun _ _ => None;
   Web.find_all := fun _ _ => [];
   Web.text_of := fun _ => EmptyString;
   Web.attribute := fun _ _ => None |}.

(** A NewsAPI reply with two articles; the second has a null content. *)
Definition article (content : Web.json) : Web.json :=
Web.JObject
  [("title", Web.JString "Acme raises a Series B");
   ("description", Web.JNull);
   ("url", Web.JString "https://example.com/acme");
   ("source", Web.JObject [("name", Web.JString "Example News")]);
   ("publishedAt", Web.JString "2024-02-01T09:00:00Z");
   ("content", content)].

Definition news_reply : Web.Response :=
{| Web.status_code := 200;
   Web.url_holds_feed := Web.Done false;
   Web.text := EmptyString;
   Web.raise_for_status := Web.Done tt;
   Web.json_body :=
     Web.Done
       (Web.JObject
          [("status", Web.JString "ok");
           ("articles",
             Web.JArray [article (Web.JString "Acme said on Thursday");
                         article Web.JNull])]) |}.

Definition news_net : Web.Net :=
{| Web.send := fun _ => Web.Done news_reply;
   Web.utcnow_isoformat := fun _ => "2024-02-02T00:00:00";
   Web.date_days_back := fun _ _ => Web.Done "2024-01-03" |}.

Definition with_key : CompanyIntelligence.t :=
{| CompanyIntelligence.newsapi_key := Some "news-key";
   CompanyIntelligence.serpapi_key := None |}.

Definition without_key : CompanyIntelligence.t :=
{| CompanyIntelligence.newsapi_key := None;
   CompanyIntelligence.serpapi_key := None |}.

Definition fresh_scraper : LinkedInScraper.t :=
{| LinkedInScraper.is_logged_in := false; LinkedInScraper.history := [] |}.

End Cases.
(** ** The agent ([kimi_agent.py]) and the orchestrator ([orchestrator.py]) *)

Section Pipeline.

(** The collaborators, and [json.loads] with the reading of a decoded
    document as an analysis or as a draft ([None]: [json.JSONDecodeError]).
    The decoded document is taken to have the shape the prompt asks for. *)
Variable env : Env.
Variable Json : Type.
Variable json_loads : string -> option Json.
Variable analysis_of_json : Json -> Analysis.t.
Variable email_of_json : Json -> Email.t.

(** *** [KimiAgent] *)

(** [_call_kimi]: the [content] of the response, or the exception the
    endpoint raised. *)
Definition _call_kimi (task : KimiTask) (lead_data : gmap string pyval)
  : M World string :=
  call (EvKimi task (default PyNone (lead_data !! "name"))) (call_kimi env).

(** The text handed to [json.loads]: the first fenced block when the
    content has one, the content itself otherwise. *)
Definition fenced (content : string) : Exc string :=
  let between (opening : string) :=
    match item (PyStr.split opening content) 1 with
    | Ok rest =>
        match item (PyStr.split "```" rest) 0 with
        | Ok block => Ok (PyStr.strip block)
        | Raise e => Raise e
        end
    | Raise e => Raise e
    end in
  if PyStr.contains "```json" content then between "```json"
  else if PyStr.contains "```" content then between "```"
  else Ok content.

Definition analyze_lead_profile (lead_data : gmap string pyval)
  : M World Analysis.t :=
  content <~ _call_kimi AnalyzeLead lead_data ;;
  text <~ of_exc (fenced content) ;;
  match json_loads text with
  | Some doc => ret (analysis_of_json doc)
  | None =>
      (* except json.JSONDecodeError: return the raw response *)
      ret {| Analysis.pain_points := None; Analysis.interests := None;
             Analysis.trigger_events := None;
             Analysis.communication_style := None;
             Analysis.relevance_score := Some 0.5%float;
             Analysis.raw_analysis := Some content |}
  end.

Definition generate_personalized_email (lead_data : gmap string pyval)
    (analysis : Analysis.t) (company_context value_proposition : string)
    (email_goal : string) : M World Email.t :=
  content <~ _call_kimi WriteEmail lead_data ;;
  text <~ of_exc (fenced content) ;;
  match json_loads text with
  | Some doc => ret (email_of_json doc)
  | None =>
      (* except json.JSONDecodeError as e: build the fallback draft *)
      subject <~ of_exc (str_add "Quick question about your work at "
                           (default (PyStr EmptyString) (lead_data !! "company"))) ;;
      ret {| Email.subject_line := Some subject;
             Email.email_body := Some content;
             Email.personalization_elements := Some [];
             Email.expected_response_rate := None;
             Email.error := Some JSONDecodeError |}
  end.

(** *** [OutreachOrchestrator] *)

(** Truth value of a nullable string column. *)
Definition truthy (o : option string) : bool :=
  match o with
  | Some (String _ _) => true
  | _ => false
  end.

(** [_enrich_lead_data].  The columns assigned to [lead] are written to
    its row by the commit that ends the stage; when the stage fails, the row
    is as it was. *)
Definition _enrich_lead_data (self : Orchestrator.t) (lead : Lead.t)
  : M World Enrichment.t :=
  try_except
    (linkedin <~
       (if truthy (Lead.linkedin_url lead) then
          let url := default EmptyString (Lead.linkedin_url lead) in
          profile_data <~ call (EvScrapeProfile url) (scrape_profile env) ;;
          recent_activity <~
            call (EvRecentActivity url 10) (get_recent_activity env) ;;
          ret (Some profile_data, Some recent_activity)
        else ret (None, None)) ;;
     company_data <~
       (if truthy (Lead.company lead) then
          let company := default EmptyString (Lead.company lead) in
          company_data <~
            call (EvCompanyIntel company (Lead.company_website lead))
                 (enrich_company_data env) ;;
          ret (Some company_data)
        else ret None) ;;
     let company_columns :=
       match company_data with
       | Some d => Some (default "[]" (payload_get env d "recent_news"),
                         payload_get env d "industry")
       | None => None
       end in
     last_enriched_at <~ now env ;;
     commit env ;;;
     flush lead (Lead.enriched linkedin company_columns last_enriched_at) ;;;
     ret {| Enrichment.status := "success";
            Enrichment.payload :=
              {| Enrichment.linkedin_profile := fst linkedin;
                 Enrichment.recent_activity := snd linkedin;
                 Enrichment.company_intelligence := company_data |};
            Enrichment.error := None |})
    (fun e =>
       ret {| Enrichment.status := "failed";
              Enrichment.payload := Enrichment.no_data;
              Enrichment.error := Some e |}).

(** [_analyze_lead]. *)
Definition _analyze_lead (self : Orchestrator.t) (lead : Lead.t)
    (enrichment_data : Enrichment.data) : M World Analysis.t :=
  let lead_data : gmap string pyval :=
    list_to_map
      [("name", PyStr (Lead.name lead));
       ("email", PyStr (Lead.email lead));
       ("company", py_of_option (Lead.company lead));
       ("job_title", py_of_option (Lead.job_title lead));
       ("location", py_of_option (Lead.location lead));
       ("linkedin_profile",
         PyData (default "{}" (Enrichment.linkedin_profile enrichment_data)));
       ("recent_activity",
         PyData (default "[]" (Enrichment.recent_activity enrichment_data)));
       ("company_intelligence",
         PyData (default "{}" (Enrichment.company_intelligence enrichment_data)))] in
  analysis <~ analyze_lead_profile lead_data ;;
  commit env ;;;
  flush lead
    (Lead.analysed (default [] (Analysis.pain_points analysis))
       (default [] (Analysis.interests analysis))
       (default [] (Analysis.trigger_events analysis))
       (default 0%float (Analysis.relevance_score analysis))) ;;;
  ret analysis.

(** [_generate_email]. *)
Definition _generate_email (self : Orchestrator.t) (lead : Lead.t)
    (analysis : Analysis.t) (company_context value_proposition : string)
  : M World Email.t :=
  let lead_data : gmap string pyval :=
    list_to_map
      [("name", PyStr (Lead.name lead));
       ("company", py_of_option (Lead.company lead));
       ("job_title", py_of_option (Lead.job_title lead))] in
  generate_personalized_email lead_data analysis company_context
    value_proposition "schedule_call".

(** The awaited call of [_quality_control]: the evaluator is pure; the
    call is entered in the history so that it can be counted. *)
Definition quality_control_call (self : Orchestrator.t) (email : Email.t)
    (analysis : Analysis.t) : M World QualityCheck.t :=
  note (EvQualityControl email) ;;;
  ret (_quality_control env self email analysis).

(** [d[key]] where [d] is a variable that may still hold [None]. *)
Definition subscript {A} (d : option A) : Exc A :=
  match d with
  | Some a => Ok a
  | None => Raise TypeError
  end.

(** [_create_campaign]: the row is built, added to the session and
    committed; the database gives it its key, which the refresh reads
    back. *)
Definition _create_campaign (self : Orchestrator.t) (lead : Lead.t)
    (email : option Email.t) (analysis : Analysis.t)
    (quality_check : option QualityCheck.t) : M World Campaign.t :=
  email <~ of_exc (subscript email) ;;
  subject_line <~ of_exc (getitem "subject_line" (Email.subject_line email)) ;;
  email_body <~ of_exc (getitem "email_body" (Email.email_body email)) ;;
  let campaign :=
    {| Campaign.id := 0;
       Campaign.lead_id := Lead.id lead;
       Campaign.subject_line := subject_line;
       Campaign.email_body := email_body;
       Campaign.personalization_elements :=
         default [] (Email.personalization_elements email);
       Campaign.model_used := kimi_model (Orchestrator.settings self);
       Campaign.generation_metadata :=
         (analysis, quality_check, Email.expected_response_rate email);
       Campaign.status := READY;
       Campaign.sent_at := None |} in
  note (EvDbAdd (Lead.id lead)) ;;;
  commit env ;;;
  campaign <~ (fun w =>
                 let row := Campaign.with_id (fresh_id (campaigns w)) campaign in
                 (Ok row, set_campaigns (campaigns w ++ [row]) w)) ;;
  refresh env (Campaign.id campaign) ;;;
  ret campaign.

(** [_send_email]: the placeholder dispatch, which marks the row as sent. *)
Definition _send_email (self : Orchestrator.t) (campaign : Campaign.t)
  : M World SendResult.t :=
  note (EvSendEmail (Campaign.id campaign)) ;;;
  sent_at <~ now env ;;
  commit env ;;;
  (fun w =>
     (Ok tt, set_campaigns
               (update_campaign (Campaign.id campaign)
                  (Campaign.mark_sent sent_at) (campaigns w)) w)) ;;;
  ret {| SendResult.success := true; SendResult.sent_at := sent_at |}.

(** The [for attempt in range(max_attempts)] loop of [process_lead], with
    the two variables it assigns. *)
Fixpoint generation_loop (self : Orchestrator.t) (lead : Lead.t)
    (analysis : Analysis.t) (company_context value_proposition : string)
    (attempts : nat) (email : option Email.t)
    (quality_check : option QualityCheck.t)
  : M World (option Email.t * option QualityCheck.t) :=
  match attempts with
  | O => ret (email, quality_check)
  | S remaining =>
      email <~ _generate_email self lead analysis company_context
                 value_proposition ;;
      quality_check <~ quality_control_call self email analysis ;;
      if (0.8 <=? QualityCheck.quality_score quality_check)%float
      then ret (Some email, Some quality_check)
      else generation_loop self lead analysis company_context
             value_proposition remaining (Some email) (Some quality_check)
  end.

Definition max_attempts : nat := 2.

(** The state of one run of [process_lead]: its [result] dictionary and
    the world. *)
Definition lift {A} (c : M World A) : M (Result.t * World) A :=
  fun s => let '(x, w) := c (snd s) in (x, (fst s, w)).

Definition update (f : Result.t -> Result.t) : M (Result.t * World) unit :=
  fun s => (Ok tt, (f (fst s), snd s)).

(** The body of the [try] block of [process_lead]; an early [return] ends
    the branch it is in. *)
Definition process_lead_body (self : Orchestrator.t) (lead : Lead.t)
    (company_context value_proposition : string) (auto_send : bool)
  : M (Result.t * World) unit :=
  (* Stage 1 *)
  enrichment <~ lift (_enrich_lead_data self lead) ;;
  update (Result.set_enrichment enrichment) ;;;
  if String.eqb (Enrichment.status enrichment) "failed" then
    update (Result.set_status "enrichment_failed")
  else
    (* Stage 2 *)
    analysis <~ lift (_analyze_lead self lead (Enrichment.payload enrichment)) ;;
    update (Result.set_analysis analysis) ;;;
    let relevance_score := default 0%float (Analysis.relevance_score analysis) in
    if (relevance_score <? Orchestrator.min_personalization_score self)%float then
      update (Result.set_status "low_relevance") ;;;
      update (Result.set_relevance_score relevance_score)
    else
      (* Stages 3 and 4 *)
      generated <~ lift (generation_loop self lead analysis company_context
                           value_proposition max_attempts None None) ;;
      update (Result.set_generation (fst generated) (snd generated)) ;;;
      (* Stage 5 *)
      campaign <~ lift (_create_campaign self lead (fst generated) analysis
                          (snd generated)) ;;
      update (Result.set_campaign_id (Campaign.id campaign)) ;;;
      update (Result.set_status "ready") ;;;
      (* Stage 6: [auto_send and quality_check['quality_score'] >= 0.8] *)
      gate <~ (if auto_send then
                 quality_check <~ of_exc (subscript (snd generated)) ;;
                 ret (0.8 <=? QualityCheck.quality_score quality_check)%float
               else ret false) ;;
      if (gate : bool) then
        send_result <~ lift (_send_email self campaign) ;;
        update (Result.set_send send_result) ;;;
        update (Result.set_status
                  (if SendResult.success send_result then "sent"
                   else "send_failed"))
      else update (Result.set_status "pending_review").

(** [process_lead]: the [try] block, and the handler that turns any
    exception into the outcome [error]. *)
Definition process_lead (self : Orchestrator.t) (lead : Lead.t)
    (company_context value_proposition : string) (auto_send : bool)
    (w : World) : Result.t * World :=
  match process_lead_body self lead company_context value_proposition
          auto_send (Result.init lead, w) with
  | (Ok _, s) => s
  | (Raise e, (result, w')) =>
      (Result.set_error e (Result.set_status "error" result), w')
  end.

(** *** The batch runner ([batch_process_leads]) *)

(** [sum(1 for r in results if p(r))]. *)
Definition tally (p : Result.t -> bool) (results : list Result.t) : nat :=
length (List.filter p results).

Definition has_status (s : string) (r : Result.t) : bool :=
String.eqb (Result.status r) s.

(** The statistics block of [batch_process_leads]. *)
Definition compile_statistics (results : list Result.t) : Statistics.t :=
{| Statistics.total := length results;
   Statistics.successful :=
     tally (fun r => has_status "ready" r || has_status "sent" r) results;
   Statistics.sent := tally (has_status "sent") results;
   Statistics.low_relevance := tally (has_status "low_relevance") results;
   Statistics.failed :=
     tally (fun r => existsb (String.eqb (Result.status r))
                       ["error"; "enrichment_failed"]) results |}.

(** The outcomes collected by [asyncio.gather] under the schedule in which
    the tasks run one after the other in the order of [leads].  The other
    schedules are those of the limiter below. *)
Fixpoint gather (self : Orchestrator.t) (leads : list Lead.t)
  (company_context value_proposition : string) (auto_send : bool)
  (w : World) : list Result.t * World :=
match leads with
| [] => ([], w)
| lead :: rest =>
    let '(result, w1) :=
      process_lead self lead company_context value_proposition auto_send w in
    let '(results, w2) :=
      gather self rest company_context value_proposition auto_send w1 in
    (result :: results, w2)
end.

(** [batch_process_leads], with its tasks run in turn.  [asyncio.Semaphore]
    refuses a negative value; with the value 0 no task ever passes the
    limiter, so the call never returns when there is a task. *)
Definition batch_process_leads (self : Orchestrator.t) (lead_ids : list Z)
  (company_context value_proposition : string) (auto_send : bool)
  (max_concurrent : Z) (w : World) : BatchOutcome * World :=
let leads := query_leads lead_ids w in
if (max_concurrent <? 0)%Z then (BatchRaised ValueError, w)
else if (max_concurrent =? 0)%Z && negb (bool_decide (leads = [])) then (Blocked, w)
else
  let '(results, w') :=
    gather self leads company_context value_proposition auto_send w in
  (Returned results (compile_statistics results), w').

(** *** The limiter: [async with semaphore] around [process_lead] *)

(** A task of [process_with_semaphore] is before the acquire, between the
    acquire and the release, or done with its outcome. *)
Inductive Task :=
| Waiting (lead : Lead.t)
| InFlight (lead : Lead.t)
| Finished (result : Result.t).

(** [permits] is the counter of the semaphore. *)
Record Limiter := {
  permits : nat;
  tasks : list Task;
  world : World
}.

Definition limiter_start (max_concurrent : nat) (leads : list Lead.t)
  (w : World) : Limiter :=
{| permits := max_concurrent; tasks := map Waiting leads; world := w |}.

Definition is_in_flight (t : Task) : bool :=
match t with InFlight _ => true | _ => false end.

Definition is_waiting (t : Task) : bool :=
match t with Waiting _ => true | _ => false end.

Definition in_flight (s : Limiter) : nat :=
length (List.filter is_in_flight (tasks s)).

(** The two moves of the event loop.  A waiting task passes the acquire
    only when the counter is positive, and takes one permit; a task in
    flight ends with the outcome of [process_lead], whatever it is, and gives
    the permit back.  The effects of a task on the world are applied when it
    ends. *)
Inductive limiter_step (self : Orchestrator.t)
  (company_context value_proposition : string) (auto_send : bool)
  : Limiter -> Limiter -> Prop :=
| step_acquire s i lead n :
    tasks s !! i = Some (Waiting lead) ->
    permits s = S n ->
    limiter_step self company_context value_proposition auto_send s
      {| permits := n; tasks := <[i := InFlight lead]> (tasks s);
         world := world s |}
| step_release s i lead :
    tasks s !! i = Some (InFlight lead) ->
    limiter_step self company_context value_proposition auto_send s
      {| permits := S (permits s);
         tasks :=
           <[i := Finished
                    (fst (process_lead self lead company_context
                            value_proposition auto_send (world s)))]> (tasks s);
         world :=
           snd (process_lead self lead company_context value_proposition
                  auto_send (world s)) |}.

(** The states the batch can reach from its start. *)
Definition reachable (self : Orchestrator.t)
  (company_context value_proposition : string) (auto_send : bool)
  (max_concurrent : nat) (leads : list Lead.t) (w : World) (s : Limiter) : Prop :=
rtc (limiter_step self company_context value_proposition auto_send)
    (limiter_start max_concurrent leads w) s.

(** [asyncio.gather] returns when every task has ended; the list it returns
    holds the outcomes in the order of the tasks. *)
Definition outcome_of (t : Task) : option Result.t :=
match t with Finished result => Some result | _ => None end.

Definition completed (s : Limiter) : Prop :=
Forall (fun t => is_Some (outcome_of t)) (tasks s).

Definition outcomes (s : Limiter) : list Result.t :=
omap outcome_of (tasks s).

(** ** Notions used to state the properties *)

Definition sf_nonneg (x : spec_float) : bool := SFleb (S754_zero false) x.

(** [emits P c]: whatever the world, [c] only appends to the history, and
    every entry it appends satisfies [P]. *)
Definition emits {A} (P : Event -> Prop) (c : M World A) : Prop :=
forall w, exists evs, log (snd (c w)) = log w ++ evs /\ Forall P evs.

(** The table of leads changed at most in the row of key [i], and there
    only in the columns that the orchestrator assigns. *)
Definition lead_written (i : Z) (before after : list Lead.t) : Prop :=
exists f, after = update_lead i f before
          /\ forall row, Lead.same_input row (f row).

(** [keeps_rows i c]: [c] leaves the table of campaigns as it is, and
    writes at most to the lead of key [i]. *)
Definition keeps_rows {A} (i : Z) (c : M World A) : Prop :=
forall w, campaigns (snd (c w)) = campaigns w
          /\ lead_written i (leads w) (leads (snd (c w))).

(** [c] is the row that [_create_campaign] stores in the table [rows] for
    the draft [email] of [lead]. *)
Definition stored_row (lead : Lead.t) (email : option Email.t)
  (quality_check : option QualityCheck.t) (rows : list Campaign.t)
  (c : Campaign.t) : Prop :=
Campaign.id c = fresh_id rows
/\ Campaign.lead_id c = Lead.id lead
/\ Campaign.status c = READY
/\ Campaign.sent_at c = None
/\ snd (fst (Campaign.generation_metadata c)) = quality_check
/\ exists draft, email = Some draft
                 /\ Email.subject_line draft = Some (Campaign.subject_line c)
                 /\ Email.email_body draft = Some (Campaign.email_body c).

(** The call that ends the history [history] raised [e]. *)
Definition raised_last (env : Env) (history : list Event) (e : exn) : Prop :=
match last history with
| Some (EvScrapeProfile _) => scrape_profile env history = Raise e
| Some (EvRecentActivity _ _) => get_recent_activity env history = Raise e
| Some (EvCompanyIntel _ _) => enrich_company_data env history = Raise e
| Some (EvKimi _ _) => call_kimi env history = Raise e
| Some EvDbCommit => db_commit env history = Raise e
| Some (EvDbRefresh _) => db_refresh env history = Raise e
| _ => False
end.

(** The call that ends the history [history] answered: it did not raise. *)
Definition answered (env : Env) (history : list Event) : Prop :=
forall e, ~ raised_last env history e.

(** The histories at which the calls [evs] were made, after [base]. *)
Fixpoint histories (base evs : list Event) : list (list Event) :=
match evs with
| [] => []
| ev :: rest => (base ++ [ev]) :: histories (base ++ [ev]) rest
end.

Definition enrichment_event (ev : Event) : Prop :=
match ev with
| EvScrapeProfile _ | EvRecentActivity _ _ | EvCompanyIntel _ _
| EvUtcNow | EvDbCommit => True
| _ => False
end.

Definition analysis_event (ev : Event) : Prop :=
match ev with
| EvKimi AnalyzeLead _ | EvDbCommit => True
| _ => False
end.

Definition generation_event (ev : Event) : Prop :=
match ev with
| EvKimi WriteEmail _ | EvQualityControl _ => True
| _ => False
end.

Definition create_event (ev : Event) : Prop :=
match ev with
| EvDbAdd _ | EvDbCommit | EvDbRefresh _ => True
| _ => False
end.

Definition send_event (ev : Event) : Prop :=
match ev with
| EvSendEmail _ | EvUtcNow | EvDbCommit => True
| _ => False
end.

(** The drafts handed to the evaluator, in the order of the history. *)
Fixpoint evaluated (evs : list Event) : list Email.t :=
match evs with
| [] => []
| EvQualityControl email :: rest => email :: evaluated rest
| _ :: rest => evaluated rest
end.

(** The test of the loop: the draft's score reaches 0.8. *)
Definition accepted (self : Orchestrator.t) (analysis : Analysis.t)
  (email : Email.t) : bool :=
(0.8 <=? QualityCheck.quality_score (_quality_control env self email analysis))%float.

(** The outcome [error] of the handler of [process_lead]. *)
Definition failed_with (e : exn) (result : Result.t) : Result.t :=
Result.set_error e (Result.set_status "error" result).

(** The value of [auto_send and quality_check['quality_score'] >= 0.8]. *)
Definition send_gate (auto_send : bool) (quality_check : option QualityCheck.t)
  : Exc bool :=
if auto_send then
  match quality_check with
  | Some q => Ok (0.8 <=? QualityCheck.quality_score q)%float
  | None => Raise TypeError
  end
else Ok false.

(** The entries of the history of [w'] that were not yet in [w]. *)
Definition new_events (w w' : World) : list Event :=
drop (length (log w)) (log w').

(** Stages 5 and 6, from the result dictionary [r3] and the world left by
    the loop. *)
Inductive Persist (self : Orchestrator.t) (lead : Lead.t) (auto_send : bool)
  (analysis : Analysis.t) (email : option Email.t)
  (quality_check : option QualityCheck.t) (r3 : Result.t) (w3 : World)
  : Result.t -> World -> Prop :=
| PersistRaised e w4 :
    _create_campaign self lead email analysis quality_check w3 = (Raise e, w4) ->
    Persist self lead auto_send analysis email quality_check r3 w3
      (failed_with e r3) w4
| GateRaised campaign w4 e :
    _create_campaign self lead email analysis quality_check w3 = (Ok campaign, w4) ->
    send_gate auto_send quality_check = Raise e ->
    Persist self lead auto_send analysis email quality_check r3 w3
      (failed_with e
         (Result.set_status "ready"
            (Result.set_campaign_id (Campaign.id campaign) r3))) w4
| PendingReview campaign w4 :
    _create_campaign self lead email analysis quality_check w3 = (Ok campaign, w4) ->
    send_gate auto_send quality_check = Ok false ->
    Persist self lead auto_send analysis email quality_check r3 w3
      (Result.set_status "pending_review"
         (Result.set_status "ready"
            (Result.set_campaign_id (Campaign.id campaign) r3))) w4
| SendRaised campaign w4 e w5 :
    _create_campaign self lead email analysis quality_check w3 = (Ok campaign, w4) ->
    send_gate auto_send quality_check = Ok true ->
    _send_email self campaign w4 = (Raise e, w5) ->
    Persist self lead auto_send analysis email quality_check r3 w3
      (failed_with e
         (Result.set_status "ready"
            (Result.set_campaign_id (Campaign.id campaign) r3))) w5
| Dispatched campaign w4 send_result w5 :
    _create_campaign self lead email analysis quality_check w3 = (Ok campaign, w4) ->
    send_gate auto_send quality_check = Ok true ->
    _send_email self campaign w4 = (Ok send_result, w5) ->
    Persist self lead auto_send analysis email quality_check r3 w3
      (Result.set_status
         (if SendResult.success send_result then "sent" else "send_failed")
         (Result.set_send send_result
            (Result.set_status "ready"
               (Result.set_campaign_id (Campaign.id campaign) r3)))) w5.

(** The runs of [process_lead] as a relation between the world before and
    the outcome and world after: one rule per way through the stages. *)
Inductive Run (self : Orchestrator.t) (lead : Lead.t) (cc vp : string)
  (auto_send : bool) (w : World) : Result.t -> World -> Prop :=
| RunEnrichmentFailed enrichment w1 :
    _enrich_lead_data self lead w = (Ok enrichment, w1) ->
    Enrichment.status enrichment = "failed" ->
    Run self lead cc vp auto_send w
      (Result.set_status "enrichment_failed"
         (Result.set_enrichment enrichment (Result.init lead))) w1
| RunAnalysisRaised enrichment w1 e w2 :
    _enrich_lead_data self lead w = (Ok enrichment, w1) ->
    Enrichment.status enrichment <> "failed" ->
    _analyze_lead self lead (Enrichment.payload enrichment) w1 = (Raise e, w2) ->
    Run self lead cc vp auto_send w
      (failed_with e (Result.set_enrichment enrichment (Result.init lead))) w2
| RunLowRelevance enrichment w1 analysis w2 :
    _enrich_lead_data self lead w = (Ok enrichment, w1) ->
    Enrichment.status enrichment <> "failed" ->
    _analyze_lead self lead (Enrichment.payload enrichment) w1 = (Ok analysis, w2) ->
    (default 0%float (Analysis.relevance_score analysis)
       <? Orchestrator.min_personalization_score self)%float = true ->
    Run self lead cc vp auto_send w
      (Result.set_relevance_score
         (default 0%float (Analysis.relevance_score analysis))
         (Result.set_status "low_relevance"
            (Result.set_analysis analysis
               (Result.set_enrichment enrichment (Result.init lead))))) w2
| RunGenerationRaised enrichment w1 analysis w2 e w3 :
    _enrich_lead_data self lead w = (Ok enrichment, w1) ->
    Enrichment.status enrichment <> "failed" ->
    _analyze_lead self lead (Enrichment.payload enrichment) w1 = (Ok analysis, w2) ->
    (default 0%float (Analysis.relevance_score analysis)
       <? Orchestrator.min_personalization_score self)%float = false ->
    generation_loop self lead analysis cc vp max_attempts None None w2
      = (Raise e, w3) ->
    Run self lead cc vp auto_send w
      (failed_with e
         (Result.set_analysis analysis
            (Result.set_enrichment enrichment (Result.init lead)))) w3
| RunGenerated enrichment w1 analysis w2 email quality_check w3 result w' :
    _enrich_lead_data self lead w = (Ok enrichment, w1) ->
    Enrichment.status enrichment <> "failed" ->
    _analyze_lead self lead (Enrichment.payload enrichment) w1 = (Ok analysis, w2) ->
    (default 0%float (Analysis.relevance_score analysis)
       <? Orchestrator.min_personalization_score self)%float = false ->
    generation_loop self lead analysis cc vp max_attempts None None w2
      = (Ok (email, quality_check), w3) ->
    Persist self lead auto_send analysis email quality_check
      (Result.set_generation email quality_check
         (Result.set_analysis analysis
            (Result.set_enrichment enrichment (Result.init lead))))
      w3 result w' ->
    Run self lead cc vp auto_send w result w'.


(** The number of outcomes whose status is one of [names]. *)
Definition count_status (names : list string) (results : list Result.t) : nat :=
length (filter (fun r => Result.status r ∈ names) results).

(** The outcomes that none of [successful], [low_relevance] and [failed]
    counts. *)
Definition uncounted (results : list Result.t) : nat :=
length (filter (fun r => Result.status r
                           ∉ ["ready"; "sent"; "low_relevance"; "error";
                              "enrichment_failed"]) results).


(** The statuses that an outcome of [process_lead] can carry. *)
Definition returned_status (r : Result.t) : Prop :=
Result.status r = "enrichment_failed" \/ Result.status r = "low_relevance"
\/ Result.status r = "pending_review" \/ Result.status r = "sent"
\/ Result.status r = "error".

(** What a task of the batch holds for its lead, at any time. *)
Definition task_of (lead : Lead.t) (t : Task) : Prop :=
match t with
| Waiting l | InFlight l => l = lead
| Finished r => Result.lead_id r = Lead.id lead /\ returned_status r
end.

(** *** The routes of [main.py] that drive the orchestrator *)

(** [POST /campaigns].  The third component holds the calls left to
    [background_tasks]. *)
Definition create_campaign (settings : Settings) (request : CampaignRequest.t)
  (w : World)
  : Reply CampaignReply.t * World * list BackgroundTask.t :=
(* Validate leads exist *)
let leads := query_leads (CampaignRequest.lead_ids request) w in
if negb (length leads =? length (CampaignRequest.lead_ids request))%nat
then (HTTPException 404 "Some lead IDs not found", w, [])
else
  let orchestrator := __init__ settings in
  if (length (CampaignRequest.lead_ids request) <=? 5)%nat
  then
    (* small batches are processed before the reply, with the default limit
       [max_concurrent=5] of [batch_process_leads] *)
    match batch_process_leads orchestrator (CampaignRequest.lead_ids request)
            (CampaignRequest.company_context request)
            (CampaignRequest.value_proposition request)
            (CampaignRequest.auto_send request) 5 w with
    | (Returned results statistics, w') =>
        (Answer (CampaignReply.Completed results statistics), w', [])
    | (BatchRaised e, w') => (Unhandled e, w', [])
    | (Blocked, w') => (NoAnswer, w', [])
    end
  else
    (Answer
       (CampaignReply.Processing
          ("Processing "
           +:+ PyStr.of_nat (length (CampaignRequest.lead_ids request))
           +:+ " leads in background")
          (CampaignRequest.lead_ids request)),
     w,
     [{| BackgroundTask.lead_ids := CampaignRequest.lead_ids request;
         BackgroundTask.company_context := CampaignRequest.company_context request;
         BackgroundTask.value_proposition :=
           CampaignRequest.value_proposition request;
         BackgroundTask.auto_send := CampaignRequest.auto_send request |}]).

(** [campaign.status == OutreachStatus.SENT]. *)
Definition is_SENT (s : OutreachStatus) : bool :=
match s with SENT => true | _ => false end.

(** [POST /campaigns/{campaign_id}/send]. *)
Definition send_campaign (settings : Settings) (campaign_id : Z) (w : World)
  : Reply SendReply.t * World :=
match get_campaign campaign_id (campaigns w) with
| None => (HTTPException 404 "Campaign not found", w)
| Some campaign =>
    if is_SENT (Campaign.status campaign)
    then (HTTPException 400 "Campaign already sent", w)
    else
      match _send_email (__init__ settings) campaign w with
      | (Ok result, w') =>
          (Answer {| SendReply.status := "sent";
                     SendReply.campaign_id := campaign_id;
                     SendReply.sent_at := SendResult.sent_at result |}, w')
      | (Raise e, w') => (Unhandled e, w')
      end
end.

(** *** The other two capabilities of [KimiAgent] *)

(** [isinstance(variants, list)]: the items of a decoded document that is
    a list. *)
Variable as_list : Json -> option (list Json).

(** The extraction of [generate_follow_up], which looks for the fence
    [```json] only. *)
Definition fenced_json (content : string) : Exc string :=
  if PyStr.contains "```json" content then
    match item (PyStr.split "```json" content) 1 with
    | Ok rest =>
        match item (PyStr.split "```" rest) 0 with
        | Ok block => Ok (PyStr.strip block)
        | Raise e => Raise e
        end
    | Raise e => Raise e
    end
  else Ok content.

(** [generate_ab_variants]. *)
Definition generate_ab_variants (self : KimiAgent.t) (client : KimiAgent.Client)
    (original_email : Email.t) (lead_data : gmap string pyval)
    (num_variants : Z) : M (list KimiAgent.Kwargs.t) (list Json) :=
  subject_line <~ of_exc (getitem "subject_line"
                            (Email.subject_line original_email)) ;;
  email_body <~ of_exc (getitem "email_body" (Email.email_body original_email)) ;;
  let variant_prompt :=
    KimiAgent.variant_prompt (KimiAgent.format_int num_variants) subject_line
      email_body
      (KimiAgent.format_pyval (default PyNone (lead_data !! "name")))
      (KimiAgent.format_pyval (default PyNone (lead_data !! "company"))) in
  let messages :=
    KimiAgent.messages_of KimiAgent.variant_system variant_prompt in
  response <~ KimiAgent._call_kimi self client messages 0.9%float 4000 None ;;
  content <~ of_exc (fenced (KimiAgent.Completion.content response)) ;;
  match json_loads content with
  | Some variants =>
      ret (match as_list variants with
           | Some items => items
           | None => [variants]
           end)
  | None => ret []
  end.

(** What [generate_follow_up] returns: the decoded document, or the
    dictionary it builds when the reply cannot be decoded. *)
Inductive FollowUp :=
| Decoded (document : Json)
| Fallback (subject_line email_body : string).

(** [generate_follow_up]. *)
Definition generate_follow_up (self : KimiAgent.t) (client : KimiAgent.Client)
    (original_email : Email.t) (days_since_sent : Z)
    (engagement_data : KimiAgent.Engagement.t) (sequence_number : Z)
  : M (list KimiAgent.Kwargs.t) FollowUp :=
  subject_line <~ of_exc (getitem "subject_line"
                            (Email.subject_line original_email)) ;;
  email_body <~ of_exc (getitem "email_body" (Email.email_body original_email)) ;;
  let followup_prompt :=
    KimiAgent.followup_prompt (KimiAgent.format_int sequence_number)
      subject_line email_body (KimiAgent.format_int days_since_sent)
      (KimiAgent.format_bool
         (default false (KimiAgent.Engagement.opened engagement_data)))
      (KimiAgent.format_bool
         (default false (KimiAgent.Engagement.clicked engagement_data))) in
  let messages :=
    KimiAgent.messages_of KimiAgent.followup_system followup_prompt in
  response <~ KimiAgent._call_kimi self client messages 0.7%float 4000 None ;;
  content <~ of_exc (fenced_json (KimiAgent.Completion.content response)) ;;
  match json_loads content with
  | Some document => ret (Decoded document)
  | None =>
      ret (Fallback ("Re: " +:+ subject_line)
             (KimiAgent.Completion.content response))
  end.

(** A task that has not ended yet. *)
Definition is_unfinished (t : Task) : bool :=
match t with Finished _ => false | _ => true end.

(** The campaign that an outcome names, with the lead of the outcome. *)
Definition named_campaign (r : Result.t) : option (Z * Z) :=
cid ← Result.campaign_id r; Some (cid, Result.lead_id r).

Definition campaign_key (c : Campaign.t) : Z * Z :=
(Campaign.id c, Campaign.lead_id c).

(** What holds of the rows in every state of a batch. *)
Definition batch_rows (w : World) (s : Limiter) (new : list Campaign.t) : Prop :=
campaigns (world s) = campaigns w ++ new
/\ omap named_campaign (outcomes s) ⊆+ map campaign_key new
/\ Forall (fun c => exists r,
                      r ∈ outcomes s
                      /\ Campaign.lead_id c = Result.lead_id r
                      /\ (Result.campaign_id r = Some (Campaign.id c)
                          \/ (Result.campaign_id r = None
                              /\ Result.status r = "error"))) new
/\ length new <= length (outcomes s)
/\ NoDup (map Campaign.id new)
/\ Forall (fun c => forall c', c' ∈ campaigns w ->
                               (Campaign.id c' < Campaign.id c)%Z) new.


(** ** Facts about binary64 arithmetic *)

Lemma shr_1_nonneg mrs : (0 <= shr_m mrs -> 0 <= shr_m (shr_1 mrs))%Z.
Proof.
destruct mrs as [m r s]; simpl.
destruct m as [|p|p]; simpl; intros H; try lia; destruct p; simpl; lia.
Qed.

Lemma iter_shr_1_nonneg (n : positive) : forall mrs,
  (0 <= shr_m mrs -> 0 <= shr_m (SpecFloat.iter_pos shr_1 n mrs))%Z.
Proof.
induction n as [n IH|n IH|]; intros mrs H; simpl.
- apply IH, IH, shr_1_nonneg, H.
- apply IH, IH, H.
- apply shr_1_nonneg, H.
Qed.

Lemma shr_fexp_nonneg prec emax m e l :
  (0 <= m -> 0 <= shr_m (fst (shr_fexp prec emax m e l)))%Z.
Proof.
intros H. unfold shr_fexp, shr.
assert (Hm : shr_m (shr_record_of_loc m l) = m) by (destruct l as [|[]]; reflexivity).
destruct (fexp prec emax (Zdigits2 m + e) - e)%Z; simpl; try lia.
apply iter_shr_1_nonneg. lia.
Qed.

Lemma round_nearest_even_nonneg m l : (0 <= m -> 0 <= round_nearest_even m l)%Z.
Proof.
intros H. unfold round_nearest_even.
destruct l as [|[]]; try lia. destruct (Z.even m); lia.
Qed.

Lemma binary_round_aux_nonneg prec emax m e l :
  (0 <= m)%Z -> sf_nonneg (binary_round_aux prec emax false m e l) = true.
Proof.
intros H. unfold binary_round_aux.
destruct (shr_fexp prec emax m e l) as [mrs1 e1] eqn:E1.
destruct (shr_fexp prec emax
            (round_nearest_even (shr_m mrs1) (loc_of_shr_record mrs1)) e1 loc_Exact)
  as [mrs2 e2] eqn:E2.
assert (H1 : (0 <= shr_m mrs1)%Z).
{ pose proof (shr_fexp_nonneg prec emax m e l H) as H1. now rewrite E1 in H1. }
assert (H2 : (0 <= shr_m mrs2)%Z).
{ pose proof (shr_fexp_nonneg prec emax _ e1 loc_Exact
                (round_nearest_even_nonneg _ (loc_of_shr_record mrs1) H1)) as H2.
  now rewrite E2 in H2. }
destruct (shr_m mrs2) as [|p|p]; try reflexivity.
- destruct (e2 <=? emax - prec)%Z; reflexivity.
- lia.
Qed.

Lemma SFmul_nonneg prec emax x m e :
  sf_nonneg x = true ->
  sf_nonneg (SFmul prec emax x (S754_finite false m e)) = true.
Proof.
destruct x as [s|s| |s mx ex]; simpl; intros H.
- destruct s; reflexivity.
- destruct s; [discriminate H | reflexivity].
- discriminate H.
- destruct s; [discriminate H |]. simpl. apply binary_round_aux_nonneg. lia.
Qed.

(** A non-negative number times 0.1 is non-negative (for every binary64
    value, infinities and the negative zero included). *)
Lemma mul_tenth_nonneg (r : float) :
  (0 <=? r)%float = true -> (0 <=? r * 0.1)%float = true.
Proof.
rewrite !leb_spec, mul_spec. intros H.
change (Prim2SF 0) with (S754_zero false) in *.
replace (Prim2SF 0.1) with (S754_finite false 7205759403792794 (-56)) by reflexivity.
apply SFmul_nonneg, H.
Qed.

(** ** The quality evaluator *)

(** Case analysis on the four checks of [_quality_control]. *)
Ltac check_cases email :=
  let body := fresh "body" in
  set (body := default EmptyString (Email.email_body email));
  destruct (3 <=? length (default [] (Email.personalization_elements email)))%nat;
  destruct ((50 <=? PyStr.word_count body)%nat && (PyStr.word_count body <=? 200)%nat);
  destruct (any_in cta_keywords (str_lower env body));
  destruct (any_in spam_phrases (str_lower env body)); reflexivity.

Lemma quality_score_unfold self email analysis :
  QualityCheck.quality_score (_quality_control env self email analysis)
  = EvaluatorSpec.score (str_lower env) email analysis.
Proof.
unfold _quality_control, EvaluatorSpec.score, EvaluatorSpec.personalization_part,
  EvaluatorSpec.length_part, EvaluatorSpec.cta_part, EvaluatorSpec.non_generic_part,
  EvaluatorSpec.relevance_part, EvaluatorSpec.weight,
  EvaluatorSpec.personalization_ok, EvaluatorSpec.length_ok, EvaluatorSpec.cta_ok,
  EvaluatorSpec.non_generic_ok.
check_cases email.
Qed.

Lemma quality_issues_unfold self email analysis :
  QualityCheck.issues (_quality_control env self email analysis)
  = EvaluatorSpec.issues (str_lower env) email.
Proof.
unfold _quality_control, EvaluatorSpec.issues,
  EvaluatorSpec.personalization_ok, EvaluatorSpec.length_ok, EvaluatorSpec.cta_ok,
  EvaluatorSpec.non_generic_ok.
check_cases email.
Qed.

Lemma quality_counts_unfold self email analysis :
  QualityCheck.word_count (_quality_control env self email analysis)
  = PyStr.word_count (default EmptyString (Email.email_body email))
  /\ QualityCheck.personalization_count (_quality_control env self email analysis)
     = length (default [] (Email.personalization_elements email)).
Proof. unfold _quality_control. split; check_cases email. Qed.


Lemma issues_count lower email :
  length (EvaluatorSpec.issues lower email) = EvaluatorSpec.failed_checks lower email.
Proof.
unfold EvaluatorSpec.issues, EvaluatorSpec.failed_checks.
destruct (EvaluatorSpec.personalization_ok email);
  destruct (EvaluatorSpec.length_ok email);
  destruct (EvaluatorSpec.cta_ok lower email);
  destruct (EvaluatorSpec.non_generic_ok lower email); reflexivity.
Qed.

Lemma weight_nonneg ok w :
  (0 <=? w)%float = true -> (0 <=? EvaluatorSpec.weight ok w)%float = true.
Proof. destruct ok; simpl; [tauto | reflexivity]. Qed.

(** C1: for every draft and every analysis, the evaluator's score is the
    sum, not clamped, of the five contributions of the table, in binary64
    arithmetic and in the order of the checks: 0.3, 0.2, 0.2 and 0.2 for the
    four checks that hold, nothing for a check that fails, and a tenth of
    the relevance score.  None of the five is negative: the four checks
    never, and the relevance term for every relevance score that is not
    negative (the specification takes it in the range from 0 to 1).  The
    length check counts the words of [body.split()] and the two keyword
    checks search [body.lower()].  Every failed check adds exactly one
    issue, in the order of the checks. *)
Theorem quality_score_is_sum_of_checks :
  forall (self : Orchestrator.t) (email : Email.t) (analysis : Analysis.t),
    let qc := _quality_control env self email analysis in
    let body := default EmptyString (Email.email_body email) in
    let words := PyStr.word_count body in
    let elements := length (default [] (Email.personalization_elements email)) in
    QualityCheck.quality_score qc
      = (EvaluatorSpec.personalization_part email
         + EvaluatorSpec.length_part email
         + EvaluatorSpec.cta_part (str_lower env) email
         + EvaluatorSpec.non_generic_part (str_lower env) email
         + EvaluatorSpec.relevance_part analysis)%float
    /\ EvaluatorSpec.personalization_part email
       = (if (3 <=? elements)%nat then 0.3 else 0)%float
    /\ EvaluatorSpec.length_part email
       = (if (50 <=? words)%nat && (words <=? 200)%nat then 0.2 else 0)%float
    /\ EvaluatorSpec.cta_part (str_lower env) email
       = (if existsb (fun k => PyStr.contains k (str_lower env body))
               ["call"; "chat"; "meet"; "discuss"; "connect"; "interested"]
          then 0.2 else 0)%float
    /\ EvaluatorSpec.non_generic_part (str_lower env) email
       = (if existsb (fun k => PyStr.contains k (str_lower env body))
               ["hope this email finds you well"; "i wanted to reach out";
                "just touching base"; "hope all is well"; "checking in"]
          then 0 else 0.2)%float
    /\ EvaluatorSpec.relevance_part analysis
       = (default 0 (Analysis.relevance_score analysis) * 0.1)%float
    /\ (0 <=? EvaluatorSpec.personalization_part email)%float = true
    /\ (0 <=? EvaluatorSpec.length_part email)%float = true
    /\ (0 <=? EvaluatorSpec.cta_part (str_lower env) email)%float = true
    /\ (0 <=? EvaluatorSpec.non_generic_part (str_lower env) email)%float = true
    /\ ((0 <=? default 0%float (Analysis.relevance_score analysis))%float = true ->
        (0 <=? EvaluatorSpec.relevance_part analysis)%float = true)
    /\ QualityCheck.issues qc = EvaluatorSpec.issues (str_lower env) email
    /\ length (QualityCheck.issues qc)
       = EvaluatorSpec.failed_checks (str_lower env) email
    /\ QualityCheck.word_count qc = words
    /\ QualityCheck.personalization_count qc = elements.
Proof.
intros self email analysis qc body words elements. subst qc.
split; [apply quality_score_unfold |].
split; [reflexivity |]. split; [reflexivity |]. split; [reflexivity |].
split.
{ unfold EvaluatorSpec.non_generic_part, EvaluatorSpec.non_generic_ok,
    EvaluatorSpec.weight, any_in, spam_phrases. fold body.
  destruct (existsb _ _); reflexivity. }
split; [reflexivity |].
repeat split; try (apply weight_nonneg; reflexivity).
- intros Hrel. now apply mul_tenth_nonneg.
- apply quality_issues_unfold.
- rewrite quality_issues_unfold. apply issues_count.
- apply quality_counts_unfold.
- apply quality_counts_unfold.
Qed.


(** ** The history written by a computation *)

Lemma emits_ret {A} P (a : A) : emits P (ret a).
Proof. intros w. exists []. simpl. now rewrite app_nil_r. Qed.

Lemma emits_raise {A} P e : emits P (@raise World A e).
Proof. intros w. exists []. simpl. now rewrite app_nil_r. Qed.

Lemma emits_of_exc {A} P (x : Exc A) : emits P (of_exc x).
Proof. intros w. exists []. simpl. now rewrite app_nil_r. Qed.

Lemma emits_bind {A B} P (c : M World A) (k : A -> M World B) :
  emits P c -> (forall a, emits P (k a)) -> emits P (bind c k).
Proof.
intros Hc Hk w. unfold bind.
destruct (Hc w) as (evs1 & E1 & F1).
destruct (c w) as [[a|e] w1]; simpl in *.
- destruct (Hk a w1) as (evs2 & E2 & F2).
  exists (evs1 ++ evs2). rewrite E2, E1, app_assoc. split; [done |].
  now apply Forall_app.
- now exists evs1.
Qed.

Lemma emits_try_except {A} P (c : M World A) (h : exn -> M World A) :
  emits P c -> (forall e, emits P (h e)) -> emits P (try_except c h).
Proof.
intros Hc Hh w. unfold try_except.
destruct (Hc w) as (evs1 & E1 & F1).
destruct (c w) as [[a|e] w1]; simpl in *.
- now exists evs1.
- destruct (Hh e w1) as (evs2 & E2 & F2).
  exists (evs1 ++ evs2). rewrite E2, E1, app_assoc. split; [done |].
  now apply Forall_app.
Qed.

Lemma emits_call {A} (P : Event -> Prop) ev (oracle : list Event -> Exc A) :
  P ev -> emits P (call ev oracle).
Proof. intros H w. exists [ev]. simpl. split; [done | by constructor]. Qed.

Lemma emits_note (P : Event -> Prop) ev : P ev -> emits P (note ev).
Proof. intros H w. exists [ev]. simpl. split; [done | by constructor]. Qed.

Lemma emits_now (P : Event -> Prop) : P EvUtcNow -> emits P (now env).
Proof. intros H w. exists [EvUtcNow]. simpl. split; [done | by constructor]. Qed.

Lemma emits_commit (P : Event -> Prop) : P EvDbCommit -> emits P (commit env).
Proof. intros H. by apply emits_call. Qed.

Lemma emits_rows {A} P (f : World -> A) (g : World -> list Campaign.t) :
  emits P (fun w => (Ok (f w), set_campaigns (g w) w)).
Proof. intros w. exists []. simpl. now rewrite app_nil_r. Qed.

Lemma emits_weaken {A} (P Q : Event -> Prop) (c : M World A) :
  (forall ev, P ev -> Q ev) -> emits P c -> emits Q c.
Proof.
intros HPQ Hc w. destruct (Hc w) as (evs & E & F).
exists evs. split; [done |]. eapply Forall_impl; eauto.
Qed.

Lemma same_input_refl row : Lead.same_input row row.
Proof. by repeat split. Qed.

Lemma same_input_trans a b c :
  Lead.same_input a b -> Lead.same_input b c -> Lead.same_input a c.
Proof. unfold Lead.same_input. intuition congruence. Qed.

Lemma update_lead_id i rows : update_lead i (fun row => row) rows = rows.
Proof.
unfold update_lead. induction rows as [|r rows IH]; simpl; [done |].
rewrite IH. now destruct (Lead.id r =? i)%Z.
Qed.

Lemma update_lead_twice i f g rows :
  (forall row, Lead.id (f row) = Lead.id row) ->
  update_lead i g (update_lead i f rows) = update_lead i (fun row => g (f row)) rows.
Proof.
intros Hf. unfold update_lead. induction rows as [|r rows IH]; simpl; [done |].
rewrite IH. destruct (Z.eqb_spec (Lead.id r) i) as [E|NE].
- rewrite Hf. now rewrite (proj2 (Z.eqb_eq _ _) E).
- now rewrite (proj2 (Z.eqb_neq _ _) NE).
Qed.

Lemma lead_written_refl i rows : lead_written i rows rows.
Proof.
exists (fun row => row). split; [now rewrite update_lead_id |].
apply same_input_refl.
Qed.

Lemma lead_written_trans i a b c :
  lead_written i a b -> lead_written i b c -> lead_written i a c.
Proof.
intros (f & -> & Hf) (g & -> & Hg).
exists (fun row => g (f row)). split.
- apply update_lead_twice. intros row. symmetry. apply Hf.
- intros row. eapply same_input_trans; [apply Hf | apply Hg].
Qed.

(** What a write to a lead leaves in place: the number of rows, their
    keys and the columns that are read, and every other row. *)
Lemma lead_written_rows i before after :
  lead_written i before after ->
  Forall2 (fun a b => Lead.same_input a b /\ (Lead.id a <> i -> b = a))
    before after.
Proof.
intros (f & -> & Hf). unfold update_lead.
induction before as [|r rows IH]; simpl; constructor; [| exact IH].
destruct (Z.eqb_spec (Lead.id r) i) as [E|NE].
- split; [apply Hf | done].
- split; [apply same_input_refl | done].
Qed.

Lemma lead_written_keys i before after :
  lead_written i before after -> map Lead.id after = map Lead.id before.
Proof.
intros H. apply lead_written_rows in H.
induction H as [|a b l l' [Hab _] _ IH]; simpl; [done |].
destruct Hab as [-> _]. now rewrite IH.
Qed.

Lemma keeps_ret {A} i (a : A) : keeps_rows i (@ret World A a).
Proof. intros w. split; [done | apply lead_written_refl]. Qed.

Lemma keeps_raise {A} i e : keeps_rows i (@raise World A e).
Proof. intros w. split; [done | apply lead_written_refl]. Qed.

Lemma keeps_of_exc {A} i (x : Exc A) : keeps_rows i (@of_exc World A x).
Proof. intros w. split; [done | apply lead_written_refl]. Qed.

Lemma keeps_bind {A B} i (c : M World A) (k : A -> M World B) :
  keeps_rows i c -> (forall a, keeps_rows i (k a)) -> keeps_rows i (bind c k).
Proof.
intros Hc Hk w. unfold bind. destruct (Hc w) as [E1 E2].
destruct (c w) as [[a|e] w1]; simpl in *; [| done].
destruct (Hk a w1) as [E3 E4]. split; [congruence |].
eapply lead_written_trans; eauto.
Qed.

Lemma keeps_try_except {A} i (c : M World A) (h : exn -> M World A) :
  keeps_rows i c -> (forall e, keeps_rows i (h e)) -> keeps_rows i (try_except c h).
Proof.
intros Hc Hh w. unfold try_except. destruct (Hc w) as [E1 E2].
destruct (c w) as [[a|e] w1]; simpl in *; [done |].
destruct (Hh e w1) as [E3 E4]. split; [congruence |].
eapply lead_written_trans; eauto.
Qed.

Lemma keeps_call {A} i ev (oracle : list Event -> Exc A) :
  keeps_rows i (call ev oracle).
Proof. intros w. split; [done | apply lead_written_refl]. Qed.

Lemma keeps_note i ev : keeps_rows i (note ev).
Proof. intros w. split; [done | apply lead_written_refl]. Qed.

Lemma keeps_now i : keeps_rows i (now env).
Proof. intros w. split; [done | apply lead_written_refl]. Qed.

Lemma keeps_commit i : keeps_rows i (commit env).
Proof. intros w. split; [done | apply lead_written_refl]. Qed.

Lemma keeps_flush lead f :
  (forall row, Lead.same_input row (f row)) ->
  keeps_rows (Lead.id lead) (flush lead f).
Proof. intros Hf w. split; [done |]. exists f. simpl. done. Qed.

Lemma emits_flush P lead f : emits P (flush lead f).
Proof. intros w. exists []. simpl. now rewrite app_nil_r. Qed.

Lemma enriched_same_input linkedin company_columns t row :
  Lead.same_input row (Lead.enriched linkedin company_columns t row).
Proof. by repeat split. Qed.

Lemma analysed_same_input pains topics events relevance row :
  Lead.same_input row (Lead.analysed pains topics events relevance row).
Proof. by repeat split. Qed.

Create HintDb trace discriminated.
#[local] Hint Resolve emits_ret emits_raise emits_of_exc emits_rows emits_flush
  keeps_ret keeps_raise keeps_of_exc keeps_call keeps_note keeps_now
  keeps_commit keeps_flush enriched_same_input analysed_same_input : trace.

(** Breaks a goal about a composed computation into its calls. *)
Ltac trace_step :=
  first
    [ apply emits_bind; [| intros ?]
    | apply emits_try_except; [| intros ?]
    | apply keeps_bind; [| intros ?]
    | apply keeps_try_except; [| intros ?]
    | apply emits_call
    | apply emits_note
    | apply emits_now
    | apply emits_commit
    | apply emits_call
    | solve [eauto with trace]
    | match goal with |- context [if ?b then _ else _] => destruct b end
    | match goal with |- context [match ?x with _ => _ end] => destruct x end ].

Ltac trace_solve := repeat trace_step; simpl; auto.

(** ** The stages, one by one *)

Lemma count_calls_app p (l1 l2 : list Event) :
  count_calls p (l1 ++ l2) = count_calls p l1 + count_calls p l2.
Proof. unfold count_calls. now rewrite List.filter_app, length_app. Qed.

Lemma count_calls_none p (evs : list Event) :
  Forall (fun ev => p ev = false) evs -> count_calls p evs = 0.
Proof.
unfold count_calls. induction 1 as [|ev evs H _ IH]; simpl; [done |].
now rewrite H.
Qed.

Lemma enrich_emits self lead : emits enrichment_event (_enrich_lead_data self lead).
Proof. unfold _enrich_lead_data. trace_solve. Qed.

Lemma enrich_keeps self lead :
  keeps_rows (Lead.id lead) (_enrich_lead_data self lead).
Proof. unfold _enrich_lead_data. trace_solve. Qed.

(** [_enrich_lead_data] catches every exception. *)
Lemma enrich_never_raises self lead w :
  exists enrichment, fst (_enrich_lead_data self lead w) = Ok enrichment.
Proof.
unfold _enrich_lead_data, try_except.
match goal with |- context [match ?c w with _ => _ end] => destruct (c w) as [[a|e] w1] end;
  simpl; eauto.
Qed.

Lemma analyze_profile_emits lead_data :
  emits analysis_event (analyze_lead_profile lead_data).
Proof. unfold analyze_lead_profile, _call_kimi. trace_solve. Qed.

Lemma analyze_emits self lead data : emits analysis_event (_analyze_lead self lead data).
Proof.
unfold _analyze_lead. apply emits_bind; [apply analyze_profile_emits | intros a].
trace_solve.
Qed.

Lemma analyze_keeps self lead data :
  keeps_rows (Lead.id lead) (_analyze_lead self lead data).
Proof. unfold _analyze_lead, analyze_lead_profile, _call_kimi. trace_solve. Qed.

Lemma generate_emits self lead analysis cc vp :
  emits generation_event (_generate_email self lead analysis cc vp).
Proof.
unfold _generate_email, generate_personalized_email, _call_kimi. trace_solve.
Qed.

Lemma generate_keeps self lead analysis cc vp :
  keeps_rows (Lead.id lead) (_generate_email self lead analysis cc vp).
Proof.
unfold _generate_email, generate_personalized_email, _call_kimi. trace_solve.
Qed.

Lemma loop_emits self lead analysis cc vp n : forall email quality_check,
  emits generation_event
    (generation_loop self lead analysis cc vp n email quality_check).
Proof.
induction n as [|n IH]; intros email quality_check; simpl.
- apply emits_ret.
- apply emits_bind; [apply generate_emits | intros e].
  apply emits_bind; [unfold quality_control_call; trace_solve | intros q].
  destruct (0.8 <=? QualityCheck.quality_score q)%float; [apply emits_ret | apply IH].
Qed.

Lemma loop_keeps self lead analysis cc vp n : forall email quality_check,
  keeps_rows (Lead.id lead)
    (generation_loop self lead analysis cc vp n email quality_check).
Proof.
induction n as [|n IH]; intros email quality_check; simpl.
- apply keeps_ret.
- apply keeps_bind; [apply generate_keeps | intros e].
  apply keeps_bind; [unfold quality_control_call; trace_solve | intros q].
  destruct (0.8 <=? QualityCheck.quality_score q)%float; [apply keeps_ret | apply IH].
Qed.

Lemma create_emits self lead email analysis quality_check :
  emits create_event (_create_campaign self lead email analysis quality_check).
Proof. unfold _create_campaign, refresh. trace_solve. Qed.

Lemma send_emits self campaign : emits send_event (_send_email self campaign).
Proof. unfold _send_email. trace_solve. Qed.

(** ** The generation-refinement loop *)

Lemma evaluated_app evs1 evs2 :
  evaluated (evs1 ++ evs2) = evaluated evs1 ++ evaluated evs2.
Proof.
induction evs1 as [|ev evs1 IH]; simpl; [done |].
destruct ev; simpl; now rewrite ?IH.
Qed.

Lemma evaluated_length evs :
  length (evaluated evs) = count_calls is_quality_call evs.
Proof.
unfold count_calls. induction evs as [|ev evs IH]; simpl; [done |].
destruct ev; simpl; now rewrite ?IH.
Qed.

Lemma lead_data_name (lead : Lead.t) :
  (list_to_map
     [("name", PyStr (Lead.name lead));
      ("company", py_of_option (Lead.company lead));
      ("job_title", py_of_option (Lead.job_title lead))] : gmap string pyval)
    !! "name" = Some (PyStr (Lead.name lead)).
Proof. simpl. apply lookup_insert_eq. Qed.

Lemma lead_data_company (lead : Lead.t) :
  (list_to_map
     [("name", PyStr (Lead.name lead));
      ("company", py_of_option (Lead.company lead));
      ("job_title", py_of_option (Lead.job_title lead))] : gmap string pyval)
    !! "company" = Some (py_of_option (Lead.company lead)).
Proof. simpl. rewrite lookup_insert_ne by done. apply lookup_insert_eq. Qed.

(** One attempt makes exactly one call to the generation service. *)
Lemma generate_one_call self lead analysis cc vp w :
  log (snd (_generate_email self lead analysis cc vp w))
  = log w ++ [EvKimi WriteEmail (PyStr (Lead.name lead))].
Proof.
unfold _generate_email, generate_personalized_email, _call_kimi.
rewrite lead_data_name, lead_data_company. simpl.
unfold bind, call, of_exc. simpl.
destruct (call_kimi env _) as [content|e]; simpl; [| done].
destruct (fenced content) as [text|e]; simpl; [| done].
destruct (json_loads text); simpl; [done |].
destruct (str_add _ _); done.
Qed.

Lemma quality_control_call_run self email analysis w :
  quality_control_call self email analysis w
  = (Ok (_quality_control env self email analysis),
     record_event (EvQualityControl email) w).
Proof. reflexivity. Qed.

(** One turn of the loop. *)
Lemma generation_loop_turn self lead analysis cc vp n email quality_check w :
  generation_loop self lead analysis cc vp (S n) email quality_check w
  = match _generate_email self lead analysis cc vp w with
    | (Ok e, w1) =>
        if accepted self analysis e
        then (Ok (Some e, Some (_quality_control env self e analysis)),
              record_event (EvQualityControl e) w1)
        else generation_loop self lead analysis cc vp n (Some e)
               (Some (_quality_control env self e analysis))
               (record_event (EvQualityControl e) w1)
    | (Raise ex, w1) => (Raise ex, w1)
    end.
Proof.
simpl. unfold bind at 1.
destruct (_generate_email self lead analysis cc vp w) as [[e|ex] w1]; [| done].
unfold bind at 1. rewrite quality_control_call_run. unfold accepted.
now destruct (0.8 <=? QualityCheck.quality_score (_quality_control env self e analysis))%float.
Qed.

(** What a run of the loop does, for any number of attempts: it calls the
    generation service and the evaluator at most [n] times each; every draft
    it evaluated before the last one was rejected; it ends with the last
    draft evaluated, which is either accepted or the [n]-th one.  When the
    generation service raises, every draft evaluated so far was rejected. *)
Lemma generation_loop_run self lead analysis cc vp n : forall email quality_check w,
  exists evs,
    log (snd (generation_loop self lead analysis cc vp n email quality_check w))
      = log w ++ evs
    /\ count_calls is_generation_call evs <= n
    /\ count_calls is_quality_call evs <= n
    /\ match fst (generation_loop self lead analysis cc vp n email quality_check w) with
       | Ok (email', quality_check') =>
           (n = 0 /\ evs = [] /\ email' = email /\ quality_check' = quality_check)
           \/ (exists earlier final,
                 evaluated evs = earlier ++ [final]
                 /\ Forall (fun d => accepted self analysis d = false) earlier
                 /\ email' = Some final
                 /\ quality_check' = Some (_quality_control env self final analysis)
                 /\ count_calls is_generation_call evs = S (length earlier)
                 /\ count_calls is_quality_call evs = S (length earlier)
                 /\ (accepted self analysis final = true \/ S (length earlier) = n))
       | Raise _ =>
           Forall (fun d => accepted self analysis d = false) (evaluated evs)
       end.
Proof.
induction n as [|n IH]; intros email quality_check w.
- exists []. simpl. rewrite app_nil_r.
  split; [| split; [| split]]; [done | done | done |]. now left.
- rewrite generation_loop_turn.
  pose proof (generate_one_call self lead analysis cc vp w) as Hg.
  destruct (_generate_email self lead analysis cc vp w) as [[e|ex] w1]; simpl in Hg.
  + destruct (accepted self analysis e) eqn:Hacc.
    * exists [EvKimi WriteEmail (PyStr (Lead.name lead)); EvQualityControl e].
      simpl. rewrite Hg, <- app_assoc. simpl.
      split; [| split; [| split]];
        [done | unfold count_calls; simpl; lia | unfold count_calls; simpl; lia |].
      right. exists [], e. simpl. split_and!; auto.
    * destruct (IH (Some e) (Some (_quality_control env self e analysis))
                  (record_event (EvQualityControl e) w1))
        as (evs & Hlog & Hgen & Hq & Hres).
      exists ([EvKimi WriteEmail (PyStr (Lead.name lead)); EvQualityControl e] ++ evs).
      rewrite Hlog. simpl log. rewrite Hg, <- !app_assoc.
      rewrite !count_calls_app.
      change (count_calls is_generation_call
                [EvKimi WriteEmail (PyStr (Lead.name lead)); EvQualityControl e]) with 1.
      change (count_calls is_quality_call
                [EvKimi WriteEmail (PyStr (Lead.name lead)); EvQualityControl e]) with 1.
      split; [| split; [| split]]; [done | lia | lia |].
      destruct (fst (generation_loop self lead analysis cc vp n (Some e)
                       (Some (_quality_control env self e analysis))
                       (record_event (EvQualityControl e) w1))) as [[e' q']|ex].
      -- right. destruct Hres as [(Hn & Hevs & He & Hq')|
                                    (earlier & final & Hev & Hrej & He & Hq' & Hc1 & Hc2 & Hlast)].
         ++ subst. exists [], e. simpl. split_and!; auto.
         ++ exists (e :: earlier), final. simpl. rewrite Hev.
            split_and!; auto; try lia.
            destruct Hlast as [Hl|Hl]; [now left | right; simpl; lia].
      -- simpl. constructor; assumption.
  + exists [EvKimi WriteEmail (PyStr (Lead.name lead))]. simpl.
    split; [| split; [| split]];
      [done | unfold count_calls; simpl; lia | unfold count_calls; simpl; lia | constructor].
Qed.

(** ** The stage sequencer, stage by stage *)

(** [process_lead] with the plumbing of the monad removed: one [match] per
    stage, in the order of the source. *)
Lemma process_lead_unfold self lead cc vp auto_send w :
  process_lead self lead cc vp auto_send w
  = let r0 := Result.init lead in
    match _enrich_lead_data self lead w with
    | (Raise e, w1) => (failed_with e r0, w1)
    | (Ok enrichment, w1) =>
      let r1 := Result.set_enrichment enrichment r0 in
      if String.eqb (Enrichment.status enrichment) "failed"
      then (Result.set_status "enrichment_failed" r1, w1)
      else
        match _analyze_lead self lead (Enrichment.payload enrichment) w1 with
        | (Raise e, w2) => (failed_with e r1, w2)
        | (Ok analysis, w2) =>
          let r2 := Result.set_analysis analysis r1 in
          let relevance := default 0%float (Analysis.relevance_score analysis) in
          if (relevance <? Orchestrator.min_personalization_score self)%float
          then (Result.set_relevance_score relevance
                  (Result.set_status "low_relevance" r2), w2)
          else
            match generation_loop self lead analysis cc vp max_attempts None None w2 with
            | (Raise e, w3) => (failed_with e r2, w3)
            | (Ok generated, w3) =>
              let r3 := Result.set_generation (fst generated) (snd generated) r2 in
              match _create_campaign self lead (fst generated) analysis
                      (snd generated) w3 with
              | (Raise e, w4) => (failed_with e r3, w4)
              | (Ok campaign, w4) =>
                let r4 := Result.set_status "ready"
                            (Result.set_campaign_id (Campaign.id campaign) r3) in
                match send_gate auto_send (snd generated) with
                | Raise e => (failed_with e r4, w4)
                | Ok false => (Result.set_status "pending_review" r4, w4)
                | Ok true =>
                  match _send_email self campaign w4 with
                  | (Raise e, w5) => (failed_with e r4, w5)
                  | (Ok send_result, w5) =>
                    (Result.set_status
                       (if SendResult.success send_result then "sent"
                        else "send_failed")
                       (Result.set_send send_result r4), w5)
                  end
                end
              end
            end
        end
    end.
Proof.
unfold process_lead, process_lead_body, failed_with, send_gate, max_attempts.
generalize 2; intros attempts.
unfold bind, lift, update, of_exc, ret, subscript. simpl.
destruct (_enrich_lead_data self lead w) as [[enrichment|e] w1]; simpl; [| done].
destruct (String.eqb (Enrichment.status enrichment) "failed"); [done |]. simpl.
destruct (_analyze_lead self lead (Enrichment.payload enrichment) w1)
  as [[analysis|e] w2]; simpl; [| done].
destruct (default 0%float (Analysis.relevance_score analysis)
          <? Orchestrator.min_personalization_score self)%float; [done |]. simpl.
destruct (generation_loop self lead analysis cc vp attempts None None w2)
  as [[generated|e] w3]; simpl; [| done].
destruct (_create_campaign self lead (fst generated) analysis (snd generated) w3)
  as [[campaign|e] w4]; simpl; [| done].
destruct auto_send; simpl; [| done].
destruct (snd generated) as [q|]; simpl; [| done].
destruct (0.8 <=? QualityCheck.quality_score q)%float; simpl; [| done].
destruct (_send_email self campaign w4) as [[send_result|e] w5]; simpl; done.
Qed.

(** *** The persistence stage *)

Lemma fresh_id_above rows c :
  c ∈ rows -> (Campaign.id c < fresh_id rows)%Z.
Proof.
unfold fresh_id. induction rows as [|r rows IH]; intros Hin.
- by apply elem_of_nil in Hin.
- apply elem_of_cons in Hin as [->|Hin]; simpl; [lia |].
  specialize (IH Hin). lia.
Qed.

Lemma get_campaign_absent i rows :
  (forall c, c ∈ rows -> Campaign.id c <> i) -> get_campaign i rows = None.
Proof.
unfold get_campaign. induction rows as [|r rows IH]; intros H; simpl; [done |].
destruct (Z.eqb_spec (Campaign.id r) i) as [E|_].
- exfalso. apply (H r); [left | done].
- apply IH. intros c Hc. apply H. now right.
Qed.

Lemma get_campaign_app_new i rows c :
  (forall c', c' ∈ rows -> Campaign.id c' <> i) -> Campaign.id c = i ->
  get_campaign i (rows ++ [c]) = Some c.
Proof.
unfold get_campaign. induction rows as [|r rows IH]; intros H Hc; simpl.
- now rewrite (proj2 (Z.eqb_eq _ _) Hc).
- destruct (Z.eqb_spec (Campaign.id r) i) as [E|_].
  + exfalso. apply (H r); [left | done].
  + apply IH; [| done]. intros c' Hc'. apply H. now right.
Qed.

(** A row created with a fresh key is the one found under that key. *)
Lemma get_campaign_fresh rows c :
  get_campaign (fresh_id rows) (rows ++ [Campaign.with_id (fresh_id rows) c])
  = Some (Campaign.with_id (fresh_id rows) c).
Proof.
apply get_campaign_app_new; [| done].
intros c' Hc'. pose proof (fresh_id_above rows c' Hc'). lia.
Qed.

Lemma get_campaign_update i f rows c :
  (forall c', Campaign.id (f c') = Campaign.id c') ->
  get_campaign i rows = Some c ->
  get_campaign i (update_campaign i f rows) = Some (f c).
Proof.
unfold get_campaign, update_campaign. intros Hf.
induction rows as [|r rows IH]; simpl; [done |].
destruct (Z.eqb_spec (Campaign.id r) i) as [E|NE].
- intros [= ->]. now rewrite Hf, (proj2 (Z.eqb_eq _ _) E).
- intros H. destruct (Z.eqb_spec (Campaign.id r) i); [done |]. now apply IH.
Qed.

(** [_create_campaign]: when it returns, the row it returns was appended to
    the table with a fresh key and status [READY], after one add, one commit
    and one refresh.  When it raises, either nothing was committed and the
    table is as before, or the refresh raised and the row is in the table. *)
Lemma create_campaign_run self lead email analysis quality_check w :
  match _create_campaign self lead email analysis quality_check w with
  | (Ok campaign, w') =>
      exists draft subject body,
        email = Some draft
        /\ Email.subject_line draft = Some subject
        /\ Email.email_body draft = Some body
        /\ campaign =
             {| Campaign.id := fresh_id (campaigns w);
                Campaign.lead_id := Lead.id lead;
                Campaign.subject_line := subject;
                Campaign.email_body := body;
                Campaign.personalization_elements :=
                  default [] (Email.personalization_elements draft);
                Campaign.model_used := kimi_model (Orchestrator.settings self);
                Campaign.generation_metadata :=
                  (analysis, quality_check, Email.expected_response_rate draft);
                Campaign.status := READY;
                Campaign.sent_at := None |}
        /\ campaigns w' = campaigns w ++ [campaign]
        /\ leads w' = leads w
        /\ log w' = log w ++ [EvDbAdd (Lead.id lead); EvDbCommit;
                              EvDbRefresh (Campaign.id campaign)]
  | (Raise e, w') =>
      leads w' = leads w
      /\ ((campaigns w' = campaigns w
           /\ (log w' = log w
               \/ (log w' = log w ++ [EvDbAdd (Lead.id lead); EvDbCommit]
                   /\ db_commit env (log w') = Raise e)))
          \/ (exists draft subject body,
                email = Some draft
                /\ Email.subject_line draft = Some subject
                /\ Email.email_body draft = Some body
                /\ campaigns w'
                   = campaigns w
                     ++ [{| Campaign.id := fresh_id (campaigns w);
                            Campaign.lead_id := Lead.id lead;
                            Campaign.subject_line := subject;
                            Campaign.email_body := body;
                            Campaign.personalization_elements :=
                              default [] (Email.personalization_elements draft);
                            Campaign.model_used :=
                              kimi_model (Orchestrator.settings self);
                            Campaign.generation_metadata :=
                              (analysis, quality_check,
                               Email.expected_response_rate draft);
                            Campaign.status := READY;
                            Campaign.sent_at := None |}]
                /\ log w' = log w ++ [EvDbAdd (Lead.id lead); EvDbCommit;
                                      EvDbRefresh (fresh_id (campaigns w))]
                /\ db_refresh env (log w') = Raise e))
  end.
Proof.
unfold _create_campaign, refresh, bind, of_exc, subscript, getitem, note, commit,
  call, ret.
destruct email as [draft|]; simpl; [| by auto].
destruct (Email.subject_line draft) as [subject|] eqn:Hs; simpl; [| by auto].
destruct (Email.email_body draft) as [body|] eqn:Hb; simpl; [| by auto].
destruct (db_commit env _) as [[]|e] eqn:Hc; simpl.
- destruct (db_refresh env _) as [[]|e] eqn:Hr; simpl.
  + exists draft, subject, body. rewrite <- !app_assoc. simpl.
    split_and!; first [done | reflexivity].
  + split; [done |]. right. exists draft, subject, body.
    rewrite <- !app_assoc in *. simpl in *. split_and!; done.
- split; [done |]. left. split; [done |]. right.
  rewrite <- !app_assoc in *. simpl in *. split; done.
Qed.

(** *** The dispatch stage *)

(** [_send_email]: it reports success whenever it returns, and then the row
    is marked as sent with the time of the clock; when it raises, the table
    is as before. *)
Lemma send_email_run self campaign w :
  match _send_email self campaign w with
  | (Ok send_result, w') =>
      SendResult.success send_result = true
      /\ campaigns w'
         = update_campaign (Campaign.id campaign)
             (Campaign.mark_sent (SendResult.sent_at send_result)) (campaigns w)
      /\ leads w' = leads w
      /\ log w' = log w ++ [EvSendEmail (Campaign.id campaign); EvUtcNow; EvDbCommit]
  | (Raise _, w') =>
      campaigns w' = campaigns w /\ leads w' = leads w
      /\ log w' = log w ++ [EvSendEmail (Campaign.id campaign); EvUtcNow; EvDbCommit]
  end.
Proof.
unfold _send_email, bind, note, now, commit, call, ret. simpl.
destruct (db_commit env _) as [[]|e]; simpl; rewrite <- !app_assoc; simpl;
  split_and!; done.
Qed.

(** ** What one run of [process_lead] adds to the history *)

Lemma new_events_app w w' evs : log w' = log w ++ evs -> new_events w w' = evs.
Proof. unfold new_events. intros ->. apply drop_app_length. Qed.

Lemma enrichment_event_quiet ev :
  enrichment_event ev ->
  is_kimi ev = false /\ is_generation_call ev = false
  /\ is_quality_call ev = false /\ is_artifact_create ev = false
  /\ is_send ev = false.
Proof. destruct ev; simpl; tauto. Qed.

Lemma analysis_event_quiet ev :
  analysis_event ev ->
  is_generation_call ev = false /\ is_quality_call ev = false
  /\ is_artifact_create ev = false /\ is_send ev = false.
Proof. destruct ev as [| | |[]| | | | | |]; simpl; tauto. Qed.

Lemma generation_event_quiet ev :
  generation_event ev -> is_artifact_create ev = false /\ is_send ev = false.
Proof. destruct ev as [| | |[]| | | | | |]; simpl; tauto. Qed.

Lemma quiet (P : Event -> Prop) (p : Event -> bool) evs :
  (forall ev, P ev -> p ev = false) -> Forall P evs -> count_calls p evs = 0.
Proof.
intros H F. apply count_calls_none. eapply Forall_impl; [exact F | exact H].
Qed.

(** C3: when the enrichment stage reports failure, [process_lead] returns
    the outcome [enrichment_failed] and calls neither the analysis nor the
    generation service; when the relevance score of the analysis is below
    the configured minimum, it returns [low_relevance] and does not call the
    generation service.  In both cases no campaign is added to the session
    and the table of campaigns is unchanged. *)
Theorem early_exits_skip_generation_and_persistence :
  forall (self : Orchestrator.t) (lead : Lead.t) (cc vp : string)
         (auto_send : bool) (w : World) (enrichment : Enrichment.t) (w1 : World),
    _enrich_lead_data self lead w = (Ok enrichment, w1) ->
    let out := process_lead self lead cc vp auto_send w in
    let evs := new_events w (snd out) in
    (Enrichment.status enrichment = "failed" ->
       Result.status (fst out) = "enrichment_failed"
       /\ count_calls is_kimi evs = 0
       /\ count_calls is_artifact_create evs = 0
       /\ campaigns (snd out) = campaigns w
       /\ Result.campaign_id (fst out) = None)
    /\ (forall (analysis : Analysis.t) (w2 : World),
          Enrichment.status enrichment <> "failed" ->
          _analyze_lead self lead (Enrichment.payload enrichment) w1
            = (Ok analysis, w2) ->
          (default 0%float (Analysis.relevance_score analysis)
             <? Orchestrator.min_personalization_score self)%float = true ->
          Result.status (fst out) = "low_relevance"
          /\ Result.relevance_score (fst out)
             = Some (default 0%float (Analysis.relevance_score analysis))
          /\ count_calls is_generation_call evs = 0
          /\ count_calls is_artifact_create evs = 0
          /\ campaigns (snd out) = campaigns w
          /\ Result.campaign_id (fst out) = None).
Proof.
intros self lead cc vp auto_send w enrichment w1 Henr out evs.
subst evs out. rewrite process_lead_unfold. cbv zeta.
destruct (enrich_emits self lead w) as (evs1 & Hlog1 & Hev1).
destruct (enrich_keeps self lead w) as [Hrows1 _].
rewrite Henr in *. simpl in Hlog1, Hrows1.
split.
- intros Hfailed. rewrite Hfailed. simpl.
  rewrite (new_events_app _ _ _ Hlog1).
  split_and!; try done.
  + eapply quiet; [| exact Hev1]. intros ev H. now apply enrichment_event_quiet.
  + eapply quiet; [| exact Hev1]. intros ev H. now apply enrichment_event_quiet.
- intros analysis w2 Hok Han Hlow.
  destruct (String.eqb_spec (Enrichment.status enrichment) "failed") as [E|_];
    [done |].
  destruct (analyze_emits self lead (Enrichment.payload enrichment) w1)
    as (evs2 & Hlog2 & Hev2).
  destruct (analyze_keeps self lead (Enrichment.payload enrichment) w1) as [Hrows2 _].
  rewrite Han in *. simpl in Hlog2, Hrows2. rewrite Hlow. simpl.
  assert (Hlog : log w2 = log w ++ (evs1 ++ evs2)) by (rewrite Hlog2, Hlog1; apply eq_sym, app_assoc).
  rewrite (new_events_app _ _ _ Hlog), !count_calls_app.
  split_and!; try done; try congruence.
  + rewrite (quiet enrichment_event is_generation_call evs1),
            (quiet analysis_event is_generation_call evs2); auto.
    * intros ev H. now apply analysis_event_quiet.
    * intros ev H. now apply enrichment_event_quiet.
  + rewrite (quiet enrichment_event is_artifact_create evs1),
            (quiet analysis_event is_artifact_create evs2); auto.
    * intros ev H. now apply analysis_event_quiet.
    * intros ev H. now apply enrichment_event_quiet.
Qed.

(** ** The paths of [process_lead] *)

(** Every run of the function is one of the paths. *)
Lemma process_lead_run self lead cc vp auto_send w :
  Run self lead cc vp auto_send w
    (fst (process_lead self lead cc vp auto_send w))
    (snd (process_lead self lead cc vp auto_send w)).
Proof.
rewrite process_lead_unfold. cbv zeta.
destruct (enrich_never_raises self lead w) as [enrichment Hnr].
destruct (_enrich_lead_data self lead w) as [[enr|e] w1] eqn:Henr;
  simpl in Hnr; [| done].
destruct (String.eqb_spec (Enrichment.status enr) "failed") as [Hf|Hf].
{ now apply RunEnrichmentFailed. }
destruct (_analyze_lead self lead (Enrichment.payload enr) w1)
  as [[analysis|e] w2] eqn:Han.
2: { eapply RunAnalysisRaised; eauto. }
destruct (default 0%float (Analysis.relevance_score analysis)
          <? Orchestrator.min_personalization_score self)%float eqn:Hrel.
{ eapply RunLowRelevance; eauto. }
destruct (generation_loop self lead analysis cc vp max_attempts None None w2)
  as [[[email quality_check]|e] w3] eqn:Hloop.
2: { eapply RunGenerationRaised; eauto. }
eapply RunGenerated; eauto. simpl fst. simpl snd.
destruct (_create_campaign self lead email analysis quality_check w3)
  as [[campaign|e] w4] eqn:Hcreate.
2: { now apply PersistRaised. }
destruct (send_gate auto_send quality_check) as [[|]|e] eqn:Hgate.
- destruct (_send_email self campaign w4) as [[send_result|e] w5] eqn:Hsend.
  + eapply Dispatched; eauto.
  + eapply SendRaised; eauto.
- eapply PendingReview; eauto.
- eapply GateRaised; eauto.
Qed.

(** *** Facts about each stage, from the equation of its run *)

Lemma enrich_facts self lead w x w1 :
  _enrich_lead_data self lead w = (x, w1) ->
  exists evs, log w1 = log w ++ evs /\ Forall enrichment_event evs
              /\ campaigns w1 = campaigns w
              /\ lead_written (Lead.id lead) (leads w) (leads w1).
Proof.
intros H. destruct (enrich_emits self lead w) as (evs & Hlog & Hev).
destruct (enrich_keeps self lead w) as [Hr Hl]. rewrite H in *. eauto.
Qed.

Lemma analyze_facts self lead data w x w1 :
  _analyze_lead self lead data w = (x, w1) ->
  exists evs, log w1 = log w ++ evs /\ Forall analysis_event evs
              /\ campaigns w1 = campaigns w
              /\ lead_written (Lead.id lead) (leads w) (leads w1).
Proof.
intros H. destruct (analyze_emits self lead data w) as (evs & Hlog & Hev).
destruct (analyze_keeps self lead data w) as [Hr Hl]. rewrite H in *. eauto.
Qed.

Lemma loop_facts self lead analysis cc vp w x w1 :
  generation_loop self lead analysis cc vp max_attempts None None w = (x, w1) ->
  exists evs,
    log w1 = log w ++ evs /\ Forall generation_event evs
    /\ campaigns w1 = campaigns w
    /\ lead_written (Lead.id lead) (leads w) (leads w1)
    /\ count_calls is_generation_call evs <= max_attempts
    /\ count_calls is_quality_call evs <= max_attempts
    /\ match x with
       | Ok (email, quality_check) =>
           exists earlier final,
             evaluated evs = earlier ++ [final]
             /\ Forall (fun d => accepted self analysis d = false) earlier
             /\ email = Some final
             /\ quality_check = Some (_quality_control env self final analysis)
             /\ count_calls is_generation_call evs = S (length earlier)
             /\ count_calls is_quality_call evs = S (length earlier)
             /\ (accepted self analysis final = true
                 \/ S (length earlier) = max_attempts)
       | Raise _ =>
           Forall (fun d => accepted self analysis d = false) (evaluated evs)
       end.
Proof.
intros H.
destruct (loop_emits self lead analysis cc vp max_attempts None None w)
  as (evs & Hlog & Hev).
destruct (loop_keeps self lead analysis cc vp max_attempts None None w) as [Hr Hl].
destruct (generation_loop_run self lead analysis cc vp max_attempts None None w)
  as (evs' & Hlog' & Hgen & Hq & Hres).
rewrite H in *. simpl in *.
assert (evs' = evs) as ->.
{ apply (app_inv_head (log w)). rewrite <- Hlog, <- Hlog'. reflexivity. }
exists evs. split_and!; try done.
destruct x as [[email quality_check]|e]; [| done].
destruct Hres as [(Hn & _)|Hres]; [discriminate Hn | exact Hres].
Qed.

Lemma create_facts self lead email analysis quality_check w campaign w1 :
  _create_campaign self lead email analysis quality_check w = (Ok campaign, w1) ->
  Campaign.id campaign = fresh_id (campaigns w)
  /\ Campaign.lead_id campaign = Lead.id lead
  /\ Campaign.status campaign = READY
  /\ Campaign.sent_at campaign = None
  /\ snd (fst (Campaign.generation_metadata campaign)) = quality_check
  /\ (exists draft, email = Some draft
                    /\ Email.subject_line draft = Some (Campaign.subject_line campaign)
                    /\ Email.email_body draft = Some (Campaign.email_body campaign))
  /\ campaigns w1 = campaigns w ++ [campaign]
  /\ get_campaign (Campaign.id campaign) (campaigns w1) = Some campaign
  /\ log w1 = log w ++ [EvDbAdd (Lead.id lead); EvDbCommit;
                        EvDbRefresh (Campaign.id campaign)].
Proof.
intros H. pose proof (create_campaign_run self lead email analysis quality_check w) as R.
rewrite H in R.
destruct R as (draft & subject & body & -> & Hs & Hb & -> & Hrows & _ & Hlog).
simpl in *. split_and!; try done.
- exists draft. split_and!; done.
- rewrite Hrows.
  apply get_campaign_app_new; [| done].
  intros c' Hc'. pose proof (fresh_id_above _ _ Hc'). simpl. lia.
Qed.

Lemma create_raised_facts self lead email analysis quality_check w e w1 :
  _create_campaign self lead email analysis quality_check w = (Raise e, w1) ->
  (campaigns w1 = campaigns w
   \/ exists c, campaigns w1 = campaigns w ++ [c]
                /\ stored_row lead email quality_check (campaigns w) c
                /\ db_refresh env (log w1) = Raise e)
  /\ exists evs, log w1 = log w ++ evs /\ Forall create_event evs.
Proof.
intros H. pose proof (create_campaign_run self lead email analysis quality_check w) as R.
destruct (create_emits self lead email analysis quality_check w) as (evs & Hlog & Hev).
rewrite H in *. simpl in *. split; [| eauto].
destruct R as (_ & [(Hrows & _)|(draft & subject & body & -> & Hs & Hb & Hrows & _ & Hr)]);
  [now left |].
right. eexists. split; [exact Hrows |]. split; [| exact Hr].
unfold stored_row. simpl. split_and!; try done. eauto.
Qed.

Lemma send_facts self campaign w x w1 :
  _send_email self campaign w = (x, w1) ->
  log w1 = log w ++ [EvSendEmail (Campaign.id campaign); EvUtcNow; EvDbCommit]
  /\ match x with
     | Ok send_result =>
         SendResult.success send_result = true
         /\ campaigns w1
            = update_campaign (Campaign.id campaign)
                (Campaign.mark_sent (SendResult.sent_at send_result)) (campaigns w)
     | Raise _ => campaigns w1 = campaigns w
     end.
Proof.
intros H. pose proof (send_email_run self campaign w) as R. rewrite H in R.
destruct x; simpl in *; tauto.
Qed.

(** The outcomes of stages 5 and 6. *)
Lemma persist_status self lead auto_send analysis email quality_check r3 w3 r w' :
  Persist self lead auto_send analysis email quality_check r3 w3 r w' ->
  Result.status r = "pending_review" \/ Result.status r = "sent"
  \/ Result.status r = "error".
Proof.
destruct 1 as [| | | |campaign w4 send_result w5 Hc Hg Hs]; simpl; auto.
apply send_facts in Hs as [_ [-> _]]. auto.
Qed.

(** The outcomes of [process_lead]. *)
Lemma run_status self lead cc vp auto_send w r w' :
  Run self lead cc vp auto_send w r w' ->
  Result.status r = "enrichment_failed" \/ Result.status r = "low_relevance"
  \/ Result.status r = "pending_review" \/ Result.status r = "sent"
  \/ Result.status r = "error".
Proof.
destruct 1 as [| | | |? ? ? ? ? ? ? ? ? _ _ _ _ _ HP]; simpl; auto.
apply persist_status in HP. tauto.
Qed.

(** *** Stages 5 and 6 in full *)

Lemma persist_keeps_fields self lead auto_send analysis email quality_check
    r3 w3 r w' :
  Persist self lead auto_send analysis email quality_check r3 w3 r w' ->
  Result.analysis r = Result.analysis r3
  /\ Result.email_generation r = Result.email_generation r3
  /\ Result.quality_check r = Result.quality_check r3.
Proof. destruct 1; simpl; auto. Qed.

(** What a run of stages 5 and 6 leaves behind.  Either the creation
    raised, and then no row was added unless it was the refresh that raised;
    or the row was created with status [READY] and committed first, and then
    the gate decided. *)
Lemma persist_facts self lead auto_send analysis email quality_check r3 w3 r w' :
  Result.campaign_id r3 = None -> Result.send r3 = None ->
  Persist self lead auto_send analysis email quality_check r3 w3 r w' ->
  (Result.status r = "error" /\ Result.campaign_id r = None
   /\ (campaigns w' = campaigns w3
       \/ exists c, campaigns w' = campaigns w3 ++ [c]
                    /\ stored_row lead email quality_check (campaigns w3) c)
   /\ exists evs, log w' = log w3 ++ evs /\ Forall create_event evs)
  \/ (exists campaign post,
        Result.campaign_id r = Some (Campaign.id campaign)
        /\ Campaign.id campaign = fresh_id (campaigns w3)
        /\ Campaign.lead_id campaign = Lead.id lead
        /\ Campaign.status campaign = READY
        /\ Campaign.sent_at campaign = None
        /\ snd (fst (Campaign.generation_metadata campaign)) = quality_check
        /\ (exists draft, email = Some draft
              /\ Email.subject_line draft = Some (Campaign.subject_line campaign)
              /\ Email.email_body draft = Some (Campaign.email_body campaign))
        /\ get_campaign (Campaign.id campaign) (campaigns w3 ++ [campaign])
           = Some campaign
        /\ log w' = log w3 ++ [EvDbAdd (Lead.id lead); EvDbCommit;
                               EvDbRefresh (Campaign.id campaign)] ++ post
        /\ ((Result.status r = "pending_review"
             /\ send_gate auto_send quality_check = Ok false
             /\ post = [] /\ Result.send r = None
             /\ campaigns w' = campaigns w3 ++ [campaign])
            \/ (Result.status r = "error"
                /\ (exists e, send_gate auto_send quality_check = Raise e)
                /\ post = [] /\ Result.send r = None
                /\ campaigns w' = campaigns w3 ++ [campaign])
            \/ (Result.status r = "error"
                /\ send_gate auto_send quality_check = Ok true
                /\ post = [EvSendEmail (Campaign.id campaign); EvUtcNow; EvDbCommit]
                /\ Result.send r = None
                /\ campaigns w' = campaigns w3 ++ [campaign])
            \/ (Result.status r = "sent"
                /\ send_gate auto_send quality_check = Ok true
                /\ post = [EvSendEmail (Campaign.id campaign); EvUtcNow; EvDbCommit]
                /\ (exists send_result,
                      Result.send r = Some send_result
                      /\ SendResult.success send_result = true
                      /\ campaigns w'
                         = update_campaign (Campaign.id campaign)
                             (Campaign.mark_sent (SendResult.sent_at send_result))
                             (campaigns w3 ++ [campaign]))))).
Proof.
intros Hnone Hnosend HP.
destruct HP as [e w4 Hc|campaign w4 e Hc Hg|campaign w4 Hc Hg
                |campaign w4 e w5 Hc Hg Hs|campaign w4 sr w5 Hc Hg Hs].
- left. apply create_raised_facts in Hc as (Hrows & evs & Hlog & Hev).
  simpl. split_and!; eauto.
  destruct Hrows as [Hrows|(c & Hrows & Hc & _)]; [now left | right; eauto].
- right. apply create_facts in Hc
    as (Hid & Hlead & Hst & Hsent & Hmeta & Hdraft & Hrows & Hget & Hlog).
  exists campaign, []. rewrite <- Hrows. simpl. rewrite app_nil_r || idtac.
  split_and!; try done.
  right. left. split_and!; eauto.
- right. apply create_facts in Hc
    as (Hid & Hlead & Hst & Hsent & Hmeta & Hdraft & Hrows & Hget & Hlog).
  exists campaign, []. rewrite <- Hrows. simpl.
  split_and!; try done.
  left. split_and!; eauto.
- right. apply create_facts in Hc
    as (Hid & Hlead & Hst & Hsent & Hmeta & Hdraft & Hrows & Hget & Hlog).
  apply send_facts in Hs as (Hlog5 & Hrows5).
  exists campaign, [EvSendEmail (Campaign.id campaign); EvUtcNow; EvDbCommit].
  rewrite <- Hrows. simpl.
  split_and!; try done.
  + rewrite Hlog5, Hlog, <- app_assoc. done.
  + right. right. left. split_and!; eauto.
- right. apply create_facts in Hc
    as (Hid & Hlead & Hst & Hsent & Hmeta & Hdraft & Hrows & Hget & Hlog).
  apply send_facts in Hs as (Hlog5 & Hok & Hrows5).
  exists campaign, [EvSendEmail (Campaign.id campaign); EvUtcNow; EvDbCommit].
  rewrite <- Hrows. simpl. rewrite Hok.
  split_and!; try done.
  + rewrite Hlog5, Hlog, <- app_assoc. done.
  + right. right. right. split_and!; eauto.
Qed.

(** ** The outcomes of the stage sequencer *)

Lemma process_lead_status self lead cc vp auto_send w :
  let r := fst (process_lead self lead cc vp auto_send w) in
  Result.status r = "enrichment_failed" \/ Result.status r = "low_relevance"
  \/ Result.status r = "pending_review" \/ Result.status r = "sent"
  \/ Result.status r = "error".
Proof. intros r. eapply run_status, process_lead_run. Qed.

(** A run that set [campaign_id] went through stage 5. *)
Lemma run_with_campaign self lead cc vp auto_send w r w' cid :
  Run self lead cc vp auto_send w r w' ->
  Result.campaign_id r = Some cid ->
  Result.status r = "pending_review" \/ Result.status r = "sent"
  \/ Result.status r = "error".
Proof.
destruct 1 as [| | | |? ? ? ? ? ? ? ? ? _ _ _ _ _ HP]; simpl; try discriminate.
intros _. eapply persist_status, HP.
Qed.

Lemma gather_length self leads cc vp auto_send : forall w,
  length (fst (gather self leads cc vp auto_send w)) = length leads.
Proof.
induction leads as [|lead rest IH]; intros w; simpl; [done |].
destruct (process_lead self lead cc vp auto_send w) as [r w1].
specialize (IH w1).
destruct (gather self rest cc vp auto_send w1) as [rs w2]. simpl in *. lia.
Qed.

(** Every outcome collected by the batch is an outcome of [process_lead]. *)
Lemma gather_statuses self leads cc vp auto_send : forall w,
  Forall (fun r =>
            Result.status r = "enrichment_failed"
            \/ Result.status r = "low_relevance"
            \/ Result.status r = "pending_review" \/ Result.status r = "sent"
            \/ Result.status r = "error")
    (fst (gather self leads cc vp auto_send w)).
Proof.
induction leads as [|lead rest IH]; intros w; simpl; [constructor |].
pose proof (process_lead_status self lead cc vp auto_send w) as Hs.
destruct (process_lead self lead cc vp auto_send w) as [r w1].
specialize (IH w1).
destruct (gather self rest cc vp auto_send w1) as [rs w2]. simpl in *.
constructor; assumption.
Qed.

Lemma tally_ext p q results :
  Forall (fun r => p r = q r) results -> tally p results = tally q results.
Proof.
unfold tally. induction 1 as [|r rs H _ IH]; simpl; [done |].
rewrite H. destruct (q r); simpl; lia.
Qed.


(** ** Persistence and the send decision *)

Lemma send_gate_some auto_send q :
  send_gate auto_send (Some q)
  = Ok (auto_send && (0.8 <=? QualityCheck.quality_score q)%float).
Proof. now destruct auto_send. Qed.

Lemma quiet_before_persistence evs1 evs2 evs3 p :
  Forall enrichment_event evs1 -> Forall analysis_event evs2 ->
  Forall generation_event evs3 ->
  (p = is_send \/ p = is_artifact_create) ->
  count_calls p (evs1 ++ evs2 ++ evs3) = 0.
Proof.
intros H1 H2 H3 Hp. rewrite !count_calls_app.
rewrite (quiet enrichment_event p evs1), (quiet analysis_event p evs2),
        (quiet generation_event p evs3); auto.
- intros ev H. destruct Hp as [-> | ->]; now apply generation_event_quiet.
- intros ev H. destruct Hp as [-> | ->]; now apply analysis_event_quiet.
- intros ev H. destruct Hp as [-> | ->]; now apply enrichment_event_quiet.
Qed.

(** Opens the conjunctions and existentials among the hypotheses and
    closes the goal from the equations found. *)
Ltac settle :=
  repeat match goal with
         | H : _ /\ _ |- _ => destruct H
         | H : exists _, _ |- _ => destruct H
         end;
  simplify_eq/=; eauto.

(** A run of [process_lead] that set [campaign_id]: the campaign was added
    and committed before any dispatch, and the gate decided the outcome. *)
Lemma send_decision_after_persistence :
  forall (self : Orchestrator.t) (lead : Lead.t) (cc vp : string)
         (auto_send : bool) (w : World) (cid : Z),
    let out := process_lead self lead cc vp auto_send w in
    Result.campaign_id (fst out) = Some cid ->
    exists (q : QualityCheck.t) (pre post : list Event),
      Result.quality_check (fst out) = Some (Some q)
      /\ new_events w (snd out)
         = pre ++ [EvDbAdd (Lead.id lead); EvDbCommit; EvDbRefresh cid] ++ post
      /\ count_calls is_artifact_create pre = 0
      /\ count_calls is_send pre = 0
      /\ (post = [] \/ post = [EvSendEmail cid; EvUtcNow; EvDbCommit])
      /\ (Result.status (fst out) = "sent" <->
          auto_send = true
          /\ (0.8 <=? QualityCheck.quality_score q)%float = true
          /\ exists send_result,
               Result.send (fst out) = Some send_result
               /\ SendResult.success send_result = true)
      /\ (Result.status (fst out) = "send_failed" <->
          exists send_result,
            Result.send (fst out) = Some send_result
            /\ SendResult.success send_result = false)
      /\ (Result.status (fst out) = "pending_review" <->
          auto_send && (0.8 <=? QualityCheck.quality_score q)%float = false)
      /\ (Result.status (fst out) = "pending_review" ->
          exists c,
            get_campaign cid (campaigns (snd out)) = Some c
            /\ Campaign.status c = READY /\ Campaign.sent_at c = None
            /\ Campaign.lead_id c = Lead.id lead)
      /\ (Result.status (fst out) = "sent" ->
          exists c sent_at,
            get_campaign cid (campaigns (snd out)) = Some c
            /\ Campaign.status c = SENT /\ Campaign.sent_at c = Some sent_at
            /\ Campaign.lead_id c = Lead.id lead)
      /\ (Result.status (fst out) = "sent"
          \/ Result.status (fst out) = "pending_review"
          \/ (Result.status (fst out) = "error"
              /\ auto_send = true
              /\ (0.8 <=? QualityCheck.quality_score q)%float = true
              /\ Result.send (fst out) = None
              /\ exists c,
                   get_campaign cid (campaigns (snd out)) = Some c
                   /\ Campaign.status c = READY)).
Proof.
intros self lead cc vp auto_send w cid out Hcid. subst out.
pose proof (process_lead_run self lead cc vp auto_send w) as HR.
destruct (process_lead self lead cc vp auto_send w) as [r w']. simpl in *.
destruct HR as [| | | |enrichment w1 analysis w2 email quality_check w3 r w'
                       Henr Hok Han Hrel Hloop HP]; try discriminate Hcid.
apply enrich_facts in Henr as (evs1 & Hlog1 & Hev1 & _).
apply analyze_facts in Han as (evs2 & Hlog2 & Hev2 & _).
apply loop_facts in Hloop as (evs3 & Hlog3 & Hev3 & _ & _ & _ & _ & Hres).
destruct Hres as (earlier & final & _ & _ & -> & -> & _).
set (q := _quality_control env self final analysis) in *.
destruct (persist_keeps_fields _ _ _ _ _ _ _ _ _ _ HP) as (_ & _ & Hq).
simpl in Hq.
apply persist_facts in HP; [| reflexivity | reflexivity].
destruct HP as [(_ & Hnone & _)|HP]; [congruence |].
destruct HP as (campaign & post & Hid & Hfresh & Hlead & Hst & Hsent & _ & _
                & Hget & Hlog & Hcases).
rewrite Hid in Hcid. injection Hcid as <-.
rewrite send_gate_some in Hcases.
assert (Hnew : new_events w w'
               = (evs1 ++ evs2 ++ evs3)
                   ++ [EvDbAdd (Lead.id lead); EvDbCommit;
                       EvDbRefresh (Campaign.id campaign)] ++ post).
{ apply new_events_app. rewrite Hlog, Hlog3, Hlog2, Hlog1, <- !app_assoc. done. }
exists q, (evs1 ++ evs2 ++ evs3), post.
split; [exact Hq |]. split; [exact Hnew |].
split; [apply quiet_before_persistence; auto |].
split; [apply quiet_before_persistence; auto |].
destruct Hcases as [(Hs & Hg & -> & Hns & Hrows)
                   |[(Hs & (e & Hg) & _)
                   |[(Hs & Hg & -> & Hns & Hrows)
                   |(Hs & Hg & -> & sr & Hsr & Hsucc & Hrows)]]];
  try discriminate Hg; injection Hg as Hg; rewrite Hs;
  clear Hlog1 Hlog2 Hlog3 Hev1 Hev2 Hev3 Hnew Hlog.
- (* pending_review *)
  rewrite Hg, Hns, Hrows, Hget.
  split_and!; try split; intros; try (by left); try (by right; left);
    settle.
- (* the dispatch raised *)
  apply andb_true_iff in Hg as [-> Hg]. rewrite Hg, Hns, Hrows, Hget.
  split_and!; try split; intros; settle.
  right. right. split_and!; eauto.
- (* sent *)
  apply andb_true_iff in Hg as [-> Hg]. rewrite Hg, Hsr, Hrows.
  rewrite (get_campaign_update _ _ _ campaign) by done.
  split_and!; try split; intros; try (by left); settle; try congruence.
  eexists _, _. split_and!; eauto.
Qed.

(** A run whose generation stage returned and whose outcome has no
    [campaign_id]: the persistence stage raised, and nothing was
    dispatched. *)
Lemma persistence_raised self lead cc vp auto_send w email :
  let out := process_lead self lead cc vp auto_send w in
  Result.email_generation (fst out) = Some email ->
  Result.campaign_id (fst out) = None ->
  Result.status (fst out) = "error"
  /\ Result.send (fst out) = None
  /\ count_calls is_send (new_events w (snd out)) = 0
  /\ exists e quality_check,
       Result.error (fst out) = Some e
       /\ Result.quality_check (fst out) = Some quality_check
       /\ (campaigns (snd out) = campaigns w
           \/ exists c,
                campaigns (snd out) = campaigns w ++ [c]
                /\ stored_row lead email quality_check (campaigns w) c
                /\ get_campaign (Campaign.id c) (campaigns (snd out)) = Some c
                /\ db_refresh env (log (snd out)) = Raise e).
Proof.
intros out Hgen Hcid. subst out.
pose proof (process_lead_run self lead cc vp auto_send w) as HR.
destruct (process_lead self lead cc vp auto_send w) as [r w']. simpl in *.
destruct HR as [| | | |enrichment w1 analysis w2 email' quality_check w3 r w'
                       Henr Hok Han Hrel Hloop HP]; try discriminate Hgen.
apply enrich_facts in Henr as (evs1 & Hlog1 & Hev1 & Hrows1 & _).
apply analyze_facts in Han as (evs2 & Hlog2 & Hev2 & Hrows2 & _).
apply loop_facts in Hloop as (evs3 & Hlog3 & Hev3 & Hrows3 & _).
destruct HP as [e w4 Hc|campaign w4 e Hc Hg|campaign w4 Hc Hg
                |campaign w4 e w5 Hc Hg Hs|campaign w4 sr w5 Hc Hg Hs];
  try discriminate Hcid.
simpl in Hgen. injection Hgen as <-.
apply create_raised_facts in Hc as (Hrows & evs4 & Hlog4 & Hev4).
assert (Hold : campaigns w3 = campaigns w) by congruence.
assert (Hnew : new_events w w4 = (evs1 ++ evs2 ++ evs3) ++ evs4).
{ apply new_events_app. rewrite Hlog4, Hlog3, Hlog2, Hlog1, <- !app_assoc. done. }
simpl. split; [done |]. split; [done |]. split.
{ rewrite Hnew, count_calls_app, quiet_before_persistence by auto.
  eapply quiet; [| exact Hev4]. intros ev. now destruct ev. }
exists e, quality_check. split; [done |]. split; [done |].
rewrite <- Hold.
destruct Hrows as [Hrows|(c & Hrows & Hc & Hr)]; [now left | right].
exists c. split; [exact Hrows |]. split; [exact Hc |]. split; [| exact Hr].
rewrite Hrows. destruct Hc as (Hid & _).
apply get_campaign_app_new; [| done].
intros c' Hc'. pose proof (fresh_id_above _ _ Hc'). lia.
Qed.

(** C4 (amended): for every run of [process_lead] whose generation stage
    returned a draft.  When the run gets past the persistence stage (it sets
    [campaign_id]), the campaign was added and committed with status [READY]
    before any dispatch.  The outcome is [sent] exactly when [auto_send]
    holds, the final score is at least 0.8 and the dispatch returns
    ([send_failed] would be the outcome of a dispatch that reports failure);
    the row is then marked [SENT] with its [sent_at] set.  When the gate does
    not hold the outcome is [pending_review] and the row can be read back
    with status [READY].  The one remaining outcome is [error], when the gate
    holds and the dispatch raises; the row then stays [READY].  When the
    persistence stage itself raises, the outcome is [error] without
    [campaign_id] and nothing is dispatched; the table is then as it was,
    unless it was the refresh after the commit that raised, in which case
    the row is stored, with status [READY]. *)
Theorem persisted_before_send_decision :
  forall (self : Orchestrator.t) (lead : Lead.t) (cc vp : string)
         (auto_send : bool) (w : World) (email : option Email.t),
    let out := process_lead self lead cc vp auto_send w in
    Result.email_generation (fst out) = Some email ->
    (forall cid : Z,
       Result.campaign_id (fst out) = Some cid ->
         exists (q : QualityCheck.t) (pre post : list Event),
           Result.quality_check (fst out) = Some (Some q)
           /\ new_events w (snd out)
              = pre ++ [EvDbAdd (Lead.id lead); EvDbCommit; EvDbRefresh cid] ++ post
           /\ count_calls is_artifact_create pre = 0
           /\ count_calls is_send pre = 0
           /\ (post = [] \/ post = [EvSendEmail cid; EvUtcNow; EvDbCommit])
           /\ (Result.status (fst out) = "sent" <->
               auto_send = true
               /\ (0.8 <=? QualityCheck.quality_score q)%float = true
               /\ exists send_result,
                    Result.send (fst out) = Some send_result
                    /\ SendResult.success send_result = true)
           /\ (Result.status (fst out) = "send_failed" <->
               exists send_result,
                 Result.send (fst out) = Some send_result
                 /\ SendResult.success send_result = false)
           /\ (Result.status (fst out) = "pending_review" <->
               auto_send && (0.8 <=? QualityCheck.quality_score q)%float = false)
           /\ (Result.status (fst out) = "pending_review" ->
               exists c,
                 get_campaign cid (campaigns (snd out)) = Some c
                 /\ Campaign.status c = READY /\ Campaign.sent_at c = None
                 /\ Campaign.lead_id c = Lead.id lead)
           /\ (Result.status (fst out) = "sent" ->
               exists c sent_at,
                 get_campaign cid (campaigns (snd out)) = Some c
                 /\ Campaign.status c = SENT /\ Campaign.sent_at c = Some sent_at
                 /\ Campaign.lead_id c = Lead.id lead)
           /\ (Result.status (fst out) = "sent"
               \/ Result.status (fst out) = "pending_review"
               \/ (Result.status (fst out) = "error"
                   /\ auto_send = true
                   /\ (0.8 <=? QualityCheck.quality_score q)%float = true
                   /\ Result.send (fst out) = None
                   /\ exists c,
                        get_campaign cid (campaigns (snd out)) = Some c
                        /\ Campaign.status c = READY)))
    /\ (Result.campaign_id (fst out) = None ->
        Result.status (fst out) = "error"
        /\ Result.send (fst out) = None
        /\ count_calls is_send (new_events w (snd out)) = 0
        /\ (campaigns (snd out) = campaigns w
            \/ exists c e,
                 campaigns (snd out) = campaigns w ++ [c]
                 /\ get_campaign (Campaign.id c) (campaigns (snd out)) = Some c
                 /\ Campaign.status c = READY
                 /\ Campaign.sent_at c = None
                 /\ Campaign.lead_id c = Lead.id lead
                 /\ Result.error (fst out) = Some e
                 /\ db_refresh env (log (snd out)) = Raise e)).
Proof.
intros self lead cc vp auto_send w email out Hgen. split.
- intros cid Hcid.
  exact (send_decision_after_persistence self lead cc vp auto_send w cid Hcid).
- intros Hnone.
  destruct (persistence_raised self lead cc vp auto_send w email Hgen Hnone)
    as (Hs & Hsend & Hcount & e & quality_check & He & _ & Hrows).
  split; [exact Hs |]. split; [exact Hsend |]. split; [exact Hcount |].
  destruct Hrows as [Hrows|(c & Hrows & Hc & Hget & Hr)]; [now left | right].
  destruct Hc as (_ & Hlead & Hst & Hsent & _).
  exists c, e. split_and!; assumption.
Qed.


(** ** The refinement loop inside [process_lead] *)

Lemma evaluated_quiet (P : Event -> Prop) evs :
  (forall ev, P ev -> is_quality_call ev = false) -> Forall P evs ->
  evaluated evs = [].
Proof.
intros H. induction 1 as [|ev evs Hev _ IH]; simpl; [done |].
specialize (H ev Hev). destruct ev; simpl in *; done.
Qed.

Lemma create_event_quiet ev :
  create_event ev -> is_generation_call ev = false /\ is_quality_call ev = false.
Proof. destruct ev; simpl; tauto. Qed.

Lemma send_event_quiet ev :
  send_event ev -> is_generation_call ev = false /\ is_quality_call ev = false.
Proof. destruct ev; simpl; tauto. Qed.

(** Stages 5 and 6 call neither the generation service nor the evaluator. *)
Lemma persist_log self lead auto_send analysis email quality_check r3 w3 r w' :
  Persist self lead auto_send analysis email quality_check r3 w3 r w' ->
  exists evs, log w' = log w3 ++ evs
              /\ Forall (fun ev => is_generation_call ev = false
                                   /\ is_quality_call ev = false) evs.
Proof.
destruct 1 as [e w4 Hc|campaign w4 e Hc Hg|campaign w4 Hc Hg
              |campaign w4 e w5 Hc Hg Hs|campaign w4 sr w5 Hc Hg Hs].
- apply create_raised_facts in Hc as (_ & evs & Hlog & Hev).
  exists evs. split; [done |]. eapply Forall_impl; [exact Hev |].
  apply create_event_quiet.
- apply create_facts in Hc as (_ & _ & _ & _ & _ & _ & _ & _ & Hlog).
  eexists. split; [exact Hlog |]. repeat constructor.
- apply create_facts in Hc as (_ & _ & _ & _ & _ & _ & _ & _ & Hlog).
  eexists. split; [exact Hlog |]. repeat constructor.
- apply create_facts in Hc as (_ & _ & _ & _ & _ & _ & _ & _ & Hlog).
  apply send_facts in Hs as (Hlog5 & _).
  eexists. split; [rewrite Hlog5, Hlog, <- app_assoc; reflexivity |].
  repeat constructor.
- apply create_facts in Hc as (_ & _ & _ & _ & _ & _ & _ & _ & Hlog).
  apply send_facts in Hs as (Hlog5 & _).
  eexists. split; [rewrite Hlog5, Hlog, <- app_assoc; reflexivity |].
  repeat constructor.
Qed.

Lemma snoc_split {A} (l l1 l2 : list A) (x d : A) :
  l ++ [x] = l1 ++ d :: l2 -> l2 <> [] -> d ∈ l.
Proof.
intros E Hne.
destruct (exists_last Hne) as (l2' & y & ->).
change (l1 ++ d :: l2' ++ [y]) with (l1 ++ (d :: l2') ++ [y]) in E.
rewrite app_assoc in E. apply app_inj_tail in E as [-> _].
apply elem_of_app. right. left.
Qed.

(** The drafts evaluated in a run, and the calls counted in it, are those
    of the loop. *)
Lemma counts_of_run evs1 evs2 evs3 evs4 :
  Forall enrichment_event evs1 -> Forall analysis_event evs2 ->
  Forall (fun ev => is_generation_call ev = false
                    /\ is_quality_call ev = false) evs4 ->
  count_calls is_generation_call (evs1 ++ evs2 ++ evs3 ++ evs4)
    = count_calls is_generation_call evs3
  /\ count_calls is_quality_call (evs1 ++ evs2 ++ evs3 ++ evs4)
     = count_calls is_quality_call evs3
  /\ evaluated (evs1 ++ evs2 ++ evs3 ++ evs4) = evaluated evs3.
Proof.
intros H1 H2 H4. rewrite !count_calls_app, !evaluated_app.
rewrite (quiet enrichment_event is_generation_call evs1),
        (quiet enrichment_event is_quality_call evs1),
        (quiet analysis_event is_generation_call evs2),
        (quiet analysis_event is_quality_call evs2),
        (evaluated_quiet enrichment_event evs1),
        (evaluated_quiet analysis_event evs2); auto;
  try (intros ev H; now apply analysis_event_quiet);
  try (intros ev H; now apply enrichment_event_quiet).
rewrite (quiet (fun ev => is_generation_call ev = false
                          /\ is_quality_call ev = false) is_generation_call evs4),
        (quiet (fun ev => is_generation_call ev = false
                          /\ is_quality_call ev = false) is_quality_call evs4),
        (evaluated_quiet (fun ev => is_generation_call ev = false
                                    /\ is_quality_call ev = false) evs4);
  auto; try tauto.
rewrite app_nil_r. split_and!; simpl; lia || done.
Qed.

(** C2: in every run of [process_lead] the generation service and the
    evaluator are each called at most [max_attempts] = 2 times.  A draft
    that is followed by another attempt scored below 0.8, so the loop stops
    at the first draft that reaches 0.8.  When the loop ends, the draft and
    the quality check kept in the result are those of the last attempt,
    which either reached 0.8 or was the last one allowed; a last attempt
    below 0.8 is not rejected: the run goes on to persistence with that
    draft and ends as [pending_review] with the draft stored, unless the
    persistence itself raises.  The outcome is then [error]; the draft is
    stored all the same when it was the refresh after the commit that
    raised, and not stored otherwise. *)
Theorem refinement_is_bounded_and_keeps_last_attempt :
  forall (self : Orchestrator.t) (lead : Lead.t) (cc vp : string)
         (auto_send : bool) (w : World),
    let out := process_lead self lead cc vp auto_send w in
    let evs := new_events w (snd out) in
    max_attempts = 2
    /\ count_calls is_generation_call evs <= max_attempts
    /\ count_calls is_quality_call evs <= max_attempts
    /\ count_calls is_quality_call evs = length (evaluated evs)
    /\ forall analysis,
         Result.analysis (fst out) = Some analysis ->
         (forall earlier d later,
            evaluated evs = earlier ++ d :: later -> later <> [] ->
            accepted self analysis d = false)
         /\ (forall email quality_check,
               Result.email_generation (fst out) = Some email ->
               Result.quality_check (fst out) = Some quality_check ->
               exists final,
                 last (evaluated evs) = Some final
                 /\ email = Some final
                 /\ quality_check = Some (_quality_control env self final analysis)
                 /\ count_calls is_generation_call evs = length (evaluated evs)
                 /\ (accepted self analysis final = true
                     \/ length (evaluated evs) = max_attempts)
                 /\ (accepted self analysis final = false ->
                     (Result.status (fst out) = "pending_review"
                      /\ exists cid c,
                           Result.campaign_id (fst out) = Some cid
                           /\ get_campaign cid (campaigns (snd out)) = Some c
                           /\ Campaign.status c = READY
                           /\ Email.subject_line final
                              = Some (Campaign.subject_line c)
                           /\ Email.email_body final = Some (Campaign.email_body c)
                           /\ snd (fst (Campaign.generation_metadata c))
                              = Some (_quality_control env self final analysis))
                     \/ (Result.status (fst out) = "error"
                         /\ Result.campaign_id (fst out) = None
                         /\ (campaigns (snd out) = campaigns w
                             \/ exists c,
                                  campaigns (snd out) = campaigns w ++ [c]
                                  /\ Campaign.status c = READY
                                  /\ Email.subject_line final
                                     = Some (Campaign.subject_line c)
                                  /\ Email.email_body final
                                     = Some (Campaign.email_body c)
                                  /\ snd (fst (Campaign.generation_metadata c))
                                     = Some (_quality_control env self final
                                               analysis))))).
Proof.
intros self lead cc vp auto_send w out evs. subst evs out.
pose proof (process_lead_run self lead cc vp auto_send w) as HR.
destruct (process_lead self lead cc vp auto_send w) as [r w']. simpl in *.
split; [reflexivity |].
rewrite <- evaluated_length.
destruct HR as [enrichment w1 Henr Hf
               |enrichment w1 e w2 Henr Hok Han
               |enrichment w1 analysis w2 Henr Hok Han Hrel
               |enrichment w1 analysis w2 e w3 Henr Hok Han Hrel Hloop
               |enrichment w1 analysis w2 email quality_check w3 r w'
                  Henr Hok Han Hrel Hloop HP].
- (* enrichment failed *)
  apply enrich_facts in Henr as (evs1 & Hlog1 & Hev1 & _).
  rewrite (new_events_app _ _ _ Hlog1).
  destruct (counts_of_run evs1 [] [] [] Hev1) as (Hg & Hq & Hd);
    [constructor | constructor |].
  simpl in *. rewrite !app_nil_r in *. rewrite Hg, Hd.
  unfold count_calls, max_attempts. simpl.
  split_and!; try lia. intros analysis [=].
- (* the analysis raised *)
  apply enrich_facts in Henr as (evs1 & Hlog1 & Hev1 & _).
  apply analyze_facts in Han as (evs2 & Hlog2 & Hev2 & _).
  assert (Hlog : log w2 = log w ++ evs1 ++ evs2 ++ [] ++ [])
    by (rewrite Hlog2, Hlog1, <- !app_assoc, !app_nil_r; done).
  rewrite (new_events_app _ _ _ Hlog).
  destruct (counts_of_run evs1 evs2 [] [] Hev1 Hev2) as (Hg & Hq & Hd);
    [constructor |].
  rewrite Hg, Hd. unfold count_calls, max_attempts. simpl.
  split_and!; try lia. intros analysis [=].
- (* low relevance *)
  apply enrich_facts in Henr as (evs1 & Hlog1 & Hev1 & _).
  apply analyze_facts in Han as (evs2 & Hlog2 & Hev2 & _).
  assert (Hlog : log w2 = log w ++ evs1 ++ evs2 ++ [] ++ [])
    by (rewrite Hlog2, Hlog1, <- !app_assoc, !app_nil_r; done).
  rewrite (new_events_app _ _ _ Hlog).
  destruct (counts_of_run evs1 evs2 [] [] Hev1 Hev2) as (Hg & Hq & Hd);
    [constructor |].
  rewrite Hg, Hd. unfold count_calls, max_attempts. simpl.
  split_and!; try lia.
  intros a [= <-]. split; [| intros ? ? [=]].
  intros earlier d later E. now destruct earlier.
- (* the generation raised *)
  apply enrich_facts in Henr as (evs1 & Hlog1 & Hev1 & _).
  apply analyze_facts in Han as (evs2 & Hlog2 & Hev2 & _).
  apply loop_facts in Hloop as (evs3 & Hlog3 & Hev3 & _ & _ & Hgen & Hqc & Hres).
  assert (Hlog : log w3 = log w ++ evs1 ++ evs2 ++ evs3 ++ [])
    by (rewrite Hlog3, Hlog2, Hlog1, <- !app_assoc, !app_nil_r; done).
  rewrite (new_events_app _ _ _ Hlog).
  destruct (counts_of_run evs1 evs2 evs3 [] Hev1 Hev2) as (Hg & Hq & Hd);
    [constructor |].
  rewrite Hg, Hd, evaluated_length. simpl. split_and!; try lia.
  intros a [= <-]. split; [| intros ? ? [=]].
  intros earlier d later E _.
  rewrite E in Hres. apply Forall_app in Hres as [_ Hres].
  now apply Forall_cons in Hres as [Hres _].
- (* the loop returned *)
  apply enrich_facts in Henr as (evs1 & Hlog1 & Hev1 & Hrows1 & _).
  apply analyze_facts in Han as (evs2 & Hlog2 & Hev2 & Hrows2 & _).
  apply loop_facts in Hloop
    as (evs3 & Hlog3 & Hev3 & Hrows3 & _ & Hgen & Hqc & Hres).
  destruct Hres as (earlier & final & Hdrafts & Hrej & -> & -> & Hc1 & Hc2 & Hlast).
  destruct (persist_log _ _ _ _ _ _ _ _ _ _ HP) as (evs4 & Hlog4 & Hev4).
  destruct (persist_keeps_fields _ _ _ _ _ _ _ _ _ _ HP) as (Ha & He & Hq').
  simpl in Ha, He, Hq'.
  assert (Hlog : log w' = log w ++ evs1 ++ evs2 ++ evs3 ++ evs4)
    by (rewrite Hlog4, Hlog3, Hlog2, Hlog1, <- !app_assoc; done).
  rewrite (new_events_app _ _ _ Hlog).
  destruct (counts_of_run evs1 evs2 evs3 evs4 Hev1 Hev2 Hev4) as (Hg & Hq & Hd).
  rewrite Hg, Hd, evaluated_length. split_and!; try lia.
  intros a Ha'. rewrite Ha in Ha'. injection Ha' as <-.
  split.
  + intros earlier' d later E Hne. rewrite Hdrafts in E.
    apply snoc_split in E; [| done].
    rewrite Forall_forall in Hrej. now apply Hrej.
  + intros email quality_check Hem Hqu. rewrite He in Hem. rewrite Hq' in Hqu.
    injection Hem as <-. injection Hqu as <-.
    exists final. rewrite Hdrafts, last_snoc.
    split_and!; try done; try lia.
    { destruct Hlast as [Hl|Hl]; [now left | right; lia]. }
    intros Hlow.
    apply persist_facts in HP; [| reflexivity | reflexivity].
    rewrite send_gate_some in HP. unfold accepted in Hlow. rewrite Hlow in HP.
    rewrite andb_false_r in HP.
    destruct HP as [(Hs & Hnone & Hrows & _)|HP].
    * right. split_and!; try done.
      replace (campaigns w) with (campaigns w3) by congruence.
      destruct Hrows as [Hrows|(c & Hrows & Hc)]; [now left | right].
      destruct Hc as (_ & _ & Hst & _ & Hmeta & draft & [= <-] & Hsub & Hbody).
      exists c. split_and!; done.
    * left. destruct HP as (campaign & post & Hid & _ & _ & Hst & _ & Hmeta
                            & (draft & [= <-] & Hsub & Hbody) & Hget & _ & Hcases).
      destruct Hcases as [(Hs & _ & _ & _ & Hrows)
                         |[(_ & (e & [=]) & _)|[(_ & [=] & _)|(_ & [=] & _)]]].
      split; [done |]. exists (Campaign.id campaign), campaign.
      rewrite Hrows. split_and!; done.
Qed.

(** ** The batch runner *)

Lemma tally_count (p : Result.t -> bool) (names : list string) results :
  (forall r, p r = true <-> Result.status r ∈ names) ->
  tally p results = count_status names results.
Proof.
intros H. unfold tally, count_status.
induction results as [|r rs IH]; simpl; [done |].
rewrite filter_cons. destruct (p r) eqn:E.
- rewrite decide_True by (now apply H). simpl. now rewrite IH.
- rewrite decide_False; [exact IH |]. intros Hin. apply H in Hin. congruence.
Qed.

Lemma has_status_iff s r : has_status s r = true <-> Result.status r = s.
Proof. unfold has_status. apply String.eqb_eq. Qed.

Lemma successful_iff r :
  has_status "ready" r || has_status "sent" r = true
  <-> Result.status r ∈ ["ready"; "sent"].
Proof.
rewrite orb_true_iff, !has_status_iff, !elem_of_cons, elem_of_nil. tauto.
Qed.

Lemma failed_iff r :
  existsb (String.eqb (Result.status r)) ["error"; "enrichment_failed"] = true
  <-> Result.status r ∈ ["error"; "enrichment_failed"].
Proof.
simpl. rewrite !orb_true_iff, !String.eqb_eq, !elem_of_cons, elem_of_nil.
intuition congruence.
Qed.

Lemma sent_iff r : has_status "sent" r = true <-> Result.status r ∈ ["sent"].
Proof. rewrite has_status_iff, elem_of_cons, elem_of_nil. tauto. Qed.

Lemma low_relevance_iff r :
  has_status "low_relevance" r = true <-> Result.status r ∈ ["low_relevance"].
Proof. rewrite has_status_iff, elem_of_cons, elem_of_nil. tauto. Qed.

Lemma statistics_by_status results :
  let s := compile_statistics results in
  Statistics.total s = length results
  /\ Statistics.successful s = count_status ["ready"; "sent"] results
  /\ Statistics.sent s = count_status ["sent"] results
  /\ Statistics.low_relevance s = count_status ["low_relevance"] results
  /\ Statistics.failed s = count_status ["error"; "enrichment_failed"] results.
Proof.
simpl. split_and!; [done | | | |].
- apply tally_count, successful_iff.
- apply tally_count, sent_iff.
- apply tally_count, low_relevance_iff.
- apply tally_count, failed_iff.
Qed.

(** Each outcome falls in exactly one of the four groups. *)
Lemma statistics_partition results :
  count_status ["ready"; "sent"] results
  + count_status ["low_relevance"] results
  + count_status ["error"; "enrichment_failed"] results
  + uncounted results = length results.
Proof.
unfold count_status, uncounted.
induction results as [|r rs IH]; simpl; [done |].
rewrite !filter_cons.
repeat case_decide; simpl; try lia;
  repeat match goal with
         | H : _ ∈ _ |- _ =>
             rewrite ?elem_of_cons, ?elem_of_nil in H
         | H : _ ∉ _ |- _ =>
             rewrite ?not_elem_of_cons, ?elem_of_nil in H
         end;
  exfalso; intuition congruence.
Qed.

(** Leaving out the outcomes whose status is in [others] does not change
    the count of the statuses [names], when the two lists are disjoint. *)
Lemma count_status_without (names others : list string) results :
  (forall s, s ∈ names -> s ∉ others) ->
  count_status names
    (filter (fun r => Result.status r ∉ others) results)
  = count_status names results.
Proof.
intros Hdisj. unfold count_status.
induction results as [|r rs IH]; simpl; [done |].
rewrite !filter_cons.
destruct (decide (Result.status r ∉ others)) as [Hout|Hin].
- rewrite filter_cons. destruct (decide (Result.status r ∈ names)); simpl; now rewrite IH.
- rewrite IH. destruct (decide (Result.status r ∈ names)) as [Hn|]; [| done].
  exfalso. apply Hin. now apply Hdisj.
Qed.

Lemma count_status_le (names : list string) results :
  count_status names results <= length results.
Proof. unfold count_status. apply length_filter. Qed.

Lemma statistics_of_outcomes results :
  let statistics := compile_statistics results in
  let counted :=
    filter (fun r => Result.status r ∉ ["pending_review"; "send_failed"])
      results in
  Statistics.total statistics = length results
  /\ Statistics.successful statistics = count_status ["ready"; "sent"] results
  /\ Statistics.sent statistics = count_status ["sent"] results
  /\ Statistics.low_relevance statistics
     = count_status ["low_relevance"] results
  /\ Statistics.failed statistics
     = count_status ["error"; "enrichment_failed"] results
  /\ Statistics.successful statistics = count_status ["ready"; "sent"] counted
  /\ Statistics.failed statistics
     = count_status ["error"; "enrichment_failed"] counted
  /\ Statistics.successful statistics + Statistics.failed statistics
     + count_status ["pending_review"; "send_failed"] results
     <= Statistics.total statistics.
Proof.
intros statistics counted. subst statistics counted.
destruct (statistics_by_status results) as (Ht & Hs & Hsent & Hl & Hf).
cbv zeta in Ht, Hs, Hsent, Hl, Hf.
split_and!; try done.
- rewrite Hs. symmetry. apply count_status_without.
  intros s Hin Hout. rewrite !elem_of_cons, !elem_of_nil in Hin, Hout.
  intuition congruence.
- rewrite Hf. symmetry. apply count_status_without.
  intros s Hin Hout. rewrite !elem_of_cons, !elem_of_nil in Hin, Hout.
  intuition congruence.
- rewrite Hs, Hf, Ht. pose proof (statistics_partition results) as Hp.
  assert (count_status ["pending_review"; "send_failed"] results
          <= uncounted results); [| lia].
  unfold count_status, uncounted. clear.
  induction results as [|r rs IH]; simpl; [done |].
  rewrite !filter_cons. repeat case_decide; simpl; try lia.
  exfalso.
  repeat match goal with
         | H : _ ∈ _ |- _ => rewrite ?elem_of_cons, ?elem_of_nil in H
         | H : ¬ _ ∉ _ |- _ => apply dec_stable in H
         end.
  intuition congruence.
Qed.

Lemma persist_lead_id self lead auto_send analysis email quality_check r3 w3 r w' :
  Persist self lead auto_send analysis email quality_check r3 w3 r w' ->
  Result.lead_id r = Result.lead_id r3.
Proof. destruct 1; reflexivity. Qed.

Lemma process_lead_lead_id self lead cc vp auto_send w :
  Result.lead_id (fst (process_lead self lead cc vp auto_send w)) = Lead.id lead.
Proof.
pose proof (process_lead_run self lead cc vp auto_send w) as HR.
destruct HR as [| | | |? ? ? ? ? ? ? ? ? _ _ _ _ _ HP]; try reflexivity.
apply persist_lead_id in HP. exact HP.
Qed.

Lemma gather_lead_ids self leads cc vp auto_send : forall w,
  map Result.lead_id (fst (gather self leads cc vp auto_send w))
  = map Lead.id leads.
Proof.
induction leads as [|lead rest IH]; intros w; simpl; [done |].
pose proof (process_lead_lead_id self lead cc vp auto_send w) as Hid.
destruct (process_lead self lead cc vp auto_send w) as [r w1].
specialize (IH w1).
destruct (gather self rest cc vp auto_send w1) as [rs w2]. simpl in *.
now rewrite Hid, IH.
Qed.

(** When the submitted keys are distinct and each is the key of a row, the
    query returns as many rows as keys were submitted. *)
Lemma query_leads_all_found lead_ids w :
  NoDup lead_ids -> NoDup (map Lead.id (leads w)) ->
  (forall i, i ∈ lead_ids -> i ∈ map Lead.id (leads w)) ->
  length (query_leads lead_ids w) = length lead_ids.
Proof.
intros Hids Hkeys Hall. unfold query_leads.
rewrite <- (length_map Lead.id).
apply Permutation_length, NoDup_Permutation; [| done |].
- apply (sublist_NoDup _ (map Lead.id (leads w))); [exact Hkeys |].
  clear Hids Hkeys Hall. induction (leads w) as [|l ls IH]; simpl; [constructor |].
  destruct (bool_decide _); simpl; [now apply sublist_skip | now apply sublist_cons].
- intros i. rewrite !list_elem_of_fmap. split.
  + intros (l & -> & Hl). apply list_elem_of_In, List.filter_In in Hl as [_ Hl].
    now apply bool_decide_eq_true in Hl.
  + intros Hi. pose proof (Hall i Hi) as Hin.
    apply list_elem_of_fmap in Hin as (l & -> & Hl).
    exists l. split; [done |]. apply list_elem_of_In, List.filter_In.
    split; [now apply list_elem_of_In | now apply bool_decide_eq_true].
Qed.

Lemma uncounted_pending results :
  Forall (fun r =>
            Result.status r = "enrichment_failed"
            \/ Result.status r = "low_relevance"
            \/ Result.status r = "pending_review" \/ Result.status r = "sent"
            \/ Result.status r = "error") results ->
  uncounted results = count_status ["pending_review"] results.
Proof.
unfold uncounted, count_status.
induction 1 as [|r rs Hr _ IH]; simpl; [done |].
rewrite !filter_cons.
repeat destruct Hr as [Hr|Hr]; rewrite Hr;
  repeat case_decide; simpl; try lia;
  exfalso;
  repeat match goal with
         | H : _ ∈ _ |- _ => rewrite ?elem_of_cons, ?elem_of_nil in H
         | H : ¬ _ ∉ _ |- _ => apply dec_stable in H
         | H : _ ∉ _ |- _ => rewrite ?not_elem_of_cons, ?elem_of_nil in H
         end;
  intuition congruence.
Qed.


(** ** The limiter *)

Lemma in_flight_insert (ts : list Task) i t t' :
  ts !! i = Some t ->
  length (List.filter is_in_flight (<[i := t']> ts))
    + (if is_in_flight t then 1 else 0)
  = length (List.filter is_in_flight ts) + (if is_in_flight t' then 1 else 0).
Proof.
revert i. induction ts as [|a ts IH]; intros [|i] H; simpl in *; try done.
- injection H as ->. destruct (is_in_flight t), (is_in_flight t'); simpl; lia.
- specialize (IH i H). destruct (is_in_flight a); simpl; lia.
Qed.

Lemma limiter_step_counts self cc vp auto_send s s' :
  limiter_step self cc vp auto_send s s' ->
  permits s' + in_flight s' = permits s + in_flight s
  /\ length (tasks s') = length (tasks s).
Proof.
destruct 1 as [s i lead n Hi Hp|s i lead Hi]; unfold in_flight; simpl.
- pose proof (in_flight_insert (tasks s) i _ (InFlight lead) Hi) as H.
  simpl in H. rewrite length_insert. lia.
- pose proof (in_flight_insert (tasks s) i _
                (Finished (fst (process_lead self lead cc vp auto_send (world s))))
                Hi) as H.
  simpl in H. rewrite length_insert. lia.
Qed.

Lemma limiter_invariant self cc vp auto_send max_concurrent leads w s :
  reachable self cc vp auto_send max_concurrent leads w s ->
  permits s + in_flight s = max_concurrent
  /\ length (tasks s) = length leads.
Proof.
unfold reachable. intros H.
apply rtc_ind_r with (P := fun s => permits s + in_flight s = max_concurrent
                                    /\ length (tasks s) = length leads) in H.
- exact H.
- unfold limiter_start, in_flight. simpl. rewrite length_map. split; [| done].
  assert (List.filter is_in_flight (map Waiting leads) = []) as ->; [| simpl; lia].
  clear. induction leads; simpl; auto.
- intros s1 s2 _ Hstep [IH1 IH2].
  destruct (limiter_step_counts _ _ _ _ _ _ Hstep) as [E1 E2]. lia.
Qed.

(** C9: in every state a batch can reach, at most [max_concurrent] tasks
    are in flight.  At the limit the only possible move is the end of a
    task in flight, so the other records wait; below the limit a waiting
    record can enter.  A task in flight can always end, with whatever
    outcome [process_lead] gives it ([error] included), and gives its slot
    back; a move changes the state of one task only, so no record cancels or
    holds back another. *)
Theorem limiter_bounds_tasks_in_flight :
  forall (self : Orchestrator.t) (cc vp : string) (auto_send : bool)
         (max_concurrent : nat) (leads : list Lead.t) (w : World) (s : Limiter),
    reachable self cc vp auto_send max_concurrent leads w s ->
    in_flight s <= max_concurrent
    /\ permits s = max_concurrent - in_flight s
    /\ (in_flight s = max_concurrent ->
        forall s', limiter_step self cc vp auto_send s s' ->
                   S (in_flight s') = in_flight s)
    /\ (forall i lead,
          tasks s !! i = Some (Waiting lead) -> in_flight s < max_concurrent ->
          exists s', limiter_step self cc vp auto_send s s'
                     /\ tasks s' !! i = Some (InFlight lead)
                     /\ in_flight s' = S (in_flight s))
    /\ (forall i lead,
          tasks s !! i = Some (InFlight lead) ->
          exists s', limiter_step self cc vp auto_send s s'
                     /\ tasks s' !! i
                        = Some (Finished
                                  (fst (process_lead self lead cc vp auto_send
                                          (world s))))
                     /\ permits s' = S (permits s)
                     /\ S (in_flight s') = in_flight s)
    /\ (forall s', limiter_step self cc vp auto_send s s' ->
          exists i, forall j, j <> i -> tasks s' !! j = tasks s !! j).
Proof.
intros self cc vp auto_send max_concurrent leads w s Hreach.
destruct (limiter_invariant _ _ _ _ _ _ _ _ Hreach) as [Hinv Hlen].
split_and!; try lia.
- intros Hfull s' Hstep.
  destruct Hstep as [s i lead n Hi Hp|s i lead Hi]; [lia |].
  pose proof (in_flight_insert (tasks s) i _
                (Finished (fst (process_lead self lead cc vp auto_send (world s))))
                Hi) as H.
  unfold in_flight. simpl in *. lia.
- intros i lead Hi Hfree.
  destruct (permits s) as [|n] eqn:Hp; [lia |].
  eexists. split; [eapply step_acquire; eauto |]. simpl.
  split; [apply list_lookup_insert_eq; eapply lookup_lt_Some; eauto |].
  pose proof (in_flight_insert (tasks s) i _ (InFlight lead) Hi) as H.
  unfold in_flight. simpl in *. lia.
- intros i lead Hi.
  eexists. split; [eapply step_release; eauto |]. simpl.
  split; [apply list_lookup_insert_eq; eapply lookup_lt_Some; eauto |].
  split; [done |].
  pose proof (in_flight_insert (tasks s) i _
                (Finished (fst (process_lead self lead cc vp auto_send (world s))))
                Hi) as H.
  unfold in_flight. simpl in *. lia.
- intros s' Hstep.
  destruct Hstep as [s i lead n Hi Hp|s i lead Hi]; exists i; intros j Hj; simpl;
    now apply list_lookup_insert_ne.
Qed.

(** Whatever the schedule, each task keeps its lead, and ends with an
    outcome of [process_lead] for that lead. *)
Lemma limiter_tasks self cc vp auto_send max_concurrent leads w s :
  reachable self cc vp auto_send max_concurrent leads w s ->
  Forall2 task_of leads (tasks s).
Proof.
unfold reachable. intros H.
apply rtc_ind_r with (P := fun s => Forall2 task_of leads (tasks s)) in H.
- exact H.
- simpl. clear. induction leads; simpl; constructor; auto. reflexivity.
- intros s1 s2 _ Hstep IH.
  destruct Hstep as [s1 i lead n Hi Hp|s1 i lead Hi]; simpl.
  + destruct (Forall2_lookup_r _ _ _ _ _ IH Hi) as (l & Hl & Ht).
    simpl in Ht. subst.
    rewrite <- (list_insert_id leads i l Hl) at 1.
    apply Forall2_insert; [exact IH | reflexivity].
  + destruct (Forall2_lookup_r _ _ _ _ _ IH Hi) as (l & Hl & Ht).
    simpl in Ht. subst.
    rewrite <- (list_insert_id leads i l Hl) at 1.
    apply Forall2_insert; [exact IH |]. simpl. split.
    * apply process_lead_lead_id.
    * apply process_lead_status.
Qed.

Lemma completed_outcomes leads ts :
  Forall2 task_of leads ts ->
  Forall (fun t => is_Some (outcome_of t)) ts ->
  map Result.lead_id (omap outcome_of ts) = map Lead.id leads
  /\ Forall returned_status (omap outcome_of ts).
Proof.
induction 1 as [|lead t leads ts Ht _ IH]; intros Hc; simpl; [by split |].
apply Forall_cons in Hc as [[r Hr] Hc]. destruct (IH Hc) as [IH1 IH2].
destruct t; simpl in *; try discriminate.
destruct Ht as [Hid Hst]. split; [| by constructor].
change (Result.lead_id result :: map Result.lead_id (omap outcome_of ts)
        = Lead.id lead :: map Lead.id leads).
by rewrite Hid, IH1.
Qed.

(** The outcomes of a batch that ran to its end, under any schedule that
    the limiter allows: one per lead, in the order of the leads. *)
Lemma schedule_outcomes self cc vp auto_send max_concurrent leads w s :
  reachable self cc vp auto_send max_concurrent leads w s ->
  completed s ->
  map Result.lead_id (outcomes s) = map Lead.id leads
  /\ length (outcomes s) = length leads
  /\ Forall returned_status (outcomes s).
Proof.
intros Hreach Hdone.
destruct (completed_outcomes leads (tasks s)
            (limiter_tasks _ _ _ _ _ _ _ _ Hreach) Hdone) as [H1 H2].
split_and!; [exact H1 | | exact H2].
apply (f_equal length) in H1. now rewrite !length_map in H1.
Qed.

(** C6: in the statistics that a batch returns with its outcomes,
    [successful] counts the outcomes with status [ready] or [sent], [sent]
    those with status [sent], [low_relevance] those with status
    [low_relevance], and [failed] those with status [error] or
    [enrichment_failed]; [total] is the number of outcomes.  An outcome with
    status [pending_review] or [send_failed] is counted in neither
    [successful] nor [failed]: both are what they would be without these
    outcomes.  The same holds of the statistics compiled from the outcomes
    of every schedule of the limiter that runs to its end. *)
Theorem statistics_count_by_status :
  forall (self : Orchestrator.t) (lead_ids : list Z) (cc vp : string)
         (auto_send : bool) (max_concurrent : Z) (w w' : World)
         (results : list Result.t) (statistics : Statistics.t),
    batch_process_leads self lead_ids cc vp auto_send max_concurrent w
      = (Returned results statistics, w') ->
    let counted :=
      filter (fun r => Result.status r ∉ ["pending_review"; "send_failed"])
        results in
    Statistics.total statistics = length results
    /\ Statistics.successful statistics = count_status ["ready"; "sent"] results
    /\ Statistics.sent statistics = count_status ["sent"] results
    /\ Statistics.low_relevance statistics
       = count_status ["low_relevance"] results
    /\ Statistics.failed statistics
       = count_status ["error"; "enrichment_failed"] results
    /\ Statistics.successful statistics = count_status ["ready"; "sent"] counted
    /\ Statistics.failed statistics
       = count_status ["error"; "enrichment_failed"] counted
    /\ Statistics.successful statistics + Statistics.failed statistics
       + count_status ["pending_review"; "send_failed"] results
       <= Statistics.total statistics
    /\ (forall s,
          reachable self cc vp auto_send (Z.to_nat max_concurrent)
            (query_leads lead_ids w) w s ->
          completed s ->
          let statistics := compile_statistics (outcomes s) in
          let counted :=
            filter (fun r => Result.status r ∉ ["pending_review"; "send_failed"])
              (outcomes s) in
          Statistics.total statistics = length (query_leads lead_ids w)
          /\ Statistics.successful statistics
             = count_status ["ready"; "sent"] (outcomes s)
          /\ Statistics.sent statistics = count_status ["sent"] (outcomes s)
          /\ Statistics.low_relevance statistics
             = count_status ["low_relevance"] (outcomes s)
          /\ Statistics.failed statistics
             = count_status ["error"; "enrichment_failed"] (outcomes s)
          /\ Statistics.successful statistics
             = count_status ["ready"; "sent"] counted
          /\ Statistics.failed statistics
             = count_status ["error"; "enrichment_failed"] counted).
Proof.
intros self lead_ids cc vp auto_send max_concurrent w w' results statistics Hb
  counted.
unfold batch_process_leads in Hb.
destruct (max_concurrent <? 0)%Z; [discriminate |].
destruct ((max_concurrent =? 0)%Z && _); [discriminate |].
destruct (gather self (query_leads lead_ids w) cc vp auto_send w) as [rs w2].
injection Hb as <- <- <-.
destruct (statistics_of_outcomes rs)
  as (Ht & Hs & Hsent & Hl & Hf & Hs' & Hf' & Hsum).
split_and!; try done.
intros s Hreach Hdone.
destruct (statistics_of_outcomes (outcomes s))
  as (Ht2 & Hs2 & Hsent2 & Hl2 & Hf2 & Hs2' & Hf2' & _).
split_and!; try done.
rewrite Ht2.
now destruct (schedule_outcomes _ _ _ _ _ _ _ _ Hreach Hdone) as (_ & -> & _).
Qed.

Lemma insert_middle {A} (l1 l2 : list A) (x y : A) :
  <[length l1 := y]> (l1 ++ x :: l2) = l1 ++ y :: l2.
Proof. induction l1 as [|a l1 IH]; simpl; [done | now rewrite IH]. Qed.

(** The outcomes computed by [gather] are those of one schedule of the
    limiter: each task in turn passes the acquire, runs and releases. *)
Lemma gather_schedule self cc vp auto_send n leads :
  forall (finished : list Result.t) (w : World),
    rtc (limiter_step self cc vp auto_send)
      {| permits := S n;
         tasks := map Finished finished ++ map Waiting leads;
         world := w |}
      {| permits := S n;
         tasks := map Finished
                    (finished ++ fst (gather self leads cc vp auto_send w));
         world := snd (gather self leads cc vp auto_send w) |}.
Proof.
induction leads as [|lead rest IH]; intros finished w; simpl.
- rewrite !app_nil_r. apply rtc_refl.
- destruct (process_lead self lead cc vp auto_send w) as [r w1] eqn:Hr.
  specialize (IH (finished ++ [r]) w1).
  destruct (gather self rest cc vp auto_send w1) as [rs w2]. simpl in *.
  rewrite <- app_assoc in IH. simpl in IH.
  set (done := map Finished finished) in *.
  eapply rtc_l.
  { eapply (step_acquire _ _ _ _ _ (length done) lead n); simpl; [| done].
    now apply list_lookup_middle. }
  simpl. rewrite insert_middle.
  eapply rtc_l.
  { eapply (step_release _ _ _ _ _ (length done) lead). simpl.
    now apply list_lookup_middle. }
  simpl. rewrite insert_middle, Hr. simpl.
  replace (done ++ Finished r :: map Waiting rest)
    with (map Finished (finished ++ [r]) ++ map Waiting rest)
    by (subst done; rewrite map_app, <- app_assoc; reflexivity).
  exact IH.
Qed.

(** With a positive limit, the batch function returns the outcomes of a
    schedule that the limiter allows. *)
Lemma batch_is_a_schedule self lead_ids cc vp auto_send n w :
  reachable self cc vp auto_send (S n) (query_leads lead_ids w) w
    {| permits := S n;
       tasks := map Finished
                  (fst (gather self (query_leads lead_ids w) cc vp auto_send w));
       world := snd (gather self (query_leads lead_ids w) cc vp auto_send w) |}.
Proof. apply (gather_schedule self cc vp auto_send n _ [] w). Qed.

(** ** The thresholds *)




(** ** Unparseable responses *)

Lemma split_go_nonempty sep s : forall skip cur,
  1 <= length (PyStr.split_go sep skip cur s).
Proof.
induction s as [|c t IH]; intros skip cur; simpl; [lia |].
destruct skip; [| apply IH].
destruct (PyStr.prefix sep (String c t)); simpl; [lia | apply IH].
Qed.

Lemma split_go_two sep s : forall cur,
  sep <> EmptyString -> PyStr.contains sep s = true ->
  2 <= length (PyStr.split_go sep 0 cur s).
Proof.
induction s as [|c t IH]; intros cur Hsep Hin; simpl in *.
- destruct sep; [done | discriminate Hin].
- destruct (PyStr.prefix sep (String c t)) eqn:Hp; simpl in *.
  + pose proof (split_go_nonempty sep t (String.length sep - 1) []). lia.
  + now apply IH.
Qed.

(** The extraction of the fenced block never raises. *)
Lemma fenced_total content : exists text, fenced content = Ok text.
Proof.
unfold fenced.
assert (Hfirst : forall s, exists block, item (PyStr.split "```" s) 0 = Ok block).
{ intros s. unfold item, PyStr.split.
  pose proof (split_go_nonempty "```" s 0 []) as H.
  destruct (PyStr.split_go "```" 0 [] s) as [|b bs]; simpl in *; [lia | eauto]. }
assert (Hsecond : forall sep, sep <> EmptyString ->
          PyStr.contains sep content = true ->
          exists rest, item (PyStr.split sep content) 1 = Ok rest).
{ intros sep Hsep Hin. unfold item, PyStr.split.
  pose proof (split_go_two sep content [] Hsep Hin) as H.
  destruct (PyStr.split_go sep 0 [] content) as [|a [|b bs]];
    simpl in *; [lia | lia | eauto]. }
destruct (PyStr.contains "```json" content) eqn:H1.
- destruct (Hsecond "```json") as [rest ->]; [done | done |].
  destruct (Hfirst rest) as [block ->]. eauto.
- destruct (PyStr.contains "```" content) eqn:H2; [| eauto].
  destruct (Hsecond "```") as [rest ->]; [done | done |].
  destruct (Hfirst rest) as [block ->]. eauto.
Qed.

(** C8: when the text extracted from a response cannot be parsed, the
    analysis capability returns the raw response with the relevance score
    0.5, and the generation capability returns a draft whose body is the raw
    response, with no personalization element, provided the [company] of the
    lead data is a string (or is missing); when it is [None] the fallback
    itself raises [TypeError]. *)
Theorem parse_failure_fallbacks :
  forall (lead_data : gmap string pyval) (analysis : Analysis.t)
         (cc vp goal : string) (w w1 : World) (task : KimiTask)
         (content text : string),
    _call_kimi task lead_data w = (Ok content, w1) ->
    fenced content = Ok text ->
    json_loads text = None ->
    match task with
    | AnalyzeLead =>
        analyze_lead_profile lead_data w
        = (Ok {| Analysis.pain_points := None; Analysis.interests := None;
                 Analysis.trigger_events := None;
                 Analysis.communication_style := None;
                 Analysis.relevance_score := Some 0.5%float;
                 Analysis.raw_analysis := Some content |}, w1)
    | WriteEmail =>
        generate_personalized_email lead_data analysis cc vp goal w
        = match default (PyStr EmptyString) (lead_data !! "company") with
          | PyStr company =>
              (Ok {| Email.subject_line :=
                       Some ("Quick question about your work at " +:+ company);
                     Email.email_body := Some content;
                     Email.personalization_elements := Some [];
                     Email.expected_response_rate := None;
                     Email.error := Some JSONDecodeError |}, w1)
          | _ => (Raise TypeError, w1)
          end
    end.
Proof.
intros lead_data analysis cc vp goal w w1 task content text Hcall Hfenced Hjson.
destruct task.
- unfold analyze_lead_profile, bind, of_exc, ret.
  rewrite Hcall, Hfenced, Hjson. reflexivity.
- unfold generate_personalized_email, bind, of_exc, ret.
  rewrite Hcall, Hfenced, Hjson.
  destruct (default (PyStr EmptyString) (lead_data !! "company")); reflexivity.
Qed.

(** ** The batch as a whole *)

Lemma outcomes_finished permits results w :
  outcomes {| permits := permits; tasks := map Finished results; world := w |}
  = results.
Proof.
unfold outcomes. simpl. induction results as [|r rs IH]; [done |].
change (r :: omap outcome_of (map Finished rs) = r :: rs). now rewrite IH.
Qed.

Lemma successful_is_sent results :
  Forall returned_status results ->
  tally (fun r => has_status "ready" r || has_status "sent" r) results
  = tally (has_status "sent") results.
Proof.
intros Hst. apply tally_ext. eapply Forall_impl; [exact Hst |].
intros r0 H. unfold has_status. simpl.
repeat destruct H as [H|H]; rewrite H; reflexivity.
Qed.


(** C5 (amended): a batch call with a positive [max_concurrent] returns, and
    never raises for the failure of a record: it returns exactly one outcome
    per lead that the store holds for the submitted keys, in the order of the
    query, so [total] is the number of leads fetched; it equals the number
    of keys submitted when these are distinct and each is the key of a row.
    Every outcome is counted exactly once among [successful],
    [low_relevance], [failed] and the outcomes left for review.  The
    outcomes returned are those of a schedule of the limiter, and the same
    holds of the outcomes of every schedule that runs to its end. *)
Theorem batch_returns_one_outcome_per_fetched_lead :
  forall (self : Orchestrator.t) (lead_ids : list Z) (cc vp : string)
         (auto_send : bool) (max_concurrent : Z) (w : World),
    (0 < max_concurrent)%Z ->
    exists results w',
      batch_process_leads self lead_ids cc vp auto_send max_concurrent w
        = (Returned results (compile_statistics results), w')
      /\ map Result.lead_id results = map Lead.id (query_leads lead_ids w)
      /\ Statistics.total (compile_statistics results)
         = length (query_leads lead_ids w)
      /\ (NoDup lead_ids -> NoDup (map Lead.id (leads w)) ->
          (forall i, i ∈ lead_ids -> i ∈ map Lead.id (leads w)) ->
          Statistics.total (compile_statistics results) = length lead_ids)
      /\ Statistics.successful (compile_statistics results)
         + Statistics.low_relevance (compile_statistics results)
         + Statistics.failed (compile_statistics results)
         + count_status ["pending_review"] results
         = Statistics.total (compile_statistics results)
      /\ (exists s,
            reachable self cc vp auto_send (Z.to_nat max_concurrent)
              (query_leads lead_ids w) w s
            /\ completed s /\ outcomes s = results)
      /\ (forall s,
            reachable self cc vp auto_send (Z.to_nat max_concurrent)
              (query_leads lead_ids w) w s ->
            completed s ->
            map Result.lead_id (outcomes s)
              = map Lead.id (query_leads lead_ids w)
            /\ Statistics.total (compile_statistics (outcomes s))
               = length (query_leads lead_ids w)
            /\ Statistics.successful (compile_statistics (outcomes s))
               + Statistics.low_relevance (compile_statistics (outcomes s))
               + Statistics.failed (compile_statistics (outcomes s))
               + count_status ["pending_review"] (outcomes s)
               = Statistics.total (compile_statistics (outcomes s))).
Proof.
intros self lead_ids cc vp auto_send max_concurrent w Hpos.
unfold batch_process_leads.
destruct (Z.ltb_spec max_concurrent 0) as [|_]; [lia |].
destruct (Z.eqb_spec max_concurrent 0) as [|_]; [lia |]. simpl.
pose proof (gather_length self (query_leads lead_ids w) cc vp auto_send w) as Hlen.
pose proof (gather_lead_ids self (query_leads lead_ids w) cc vp auto_send w) as Hids.
pose proof (gather_statuses self (query_leads lead_ids w) cc vp auto_send w) as Hst.
destruct (gather self (query_leads lead_ids w) cc vp auto_send w)
  as [results w'] eqn:Hg.
simpl in Hlen, Hids, Hst. exists results, w'.
destruct (statistics_by_status results) as (Ht & Hs & _ & Hl & Hf).
cbv zeta in Ht, Hs, Hl, Hf.
simpl in Ht, Hs, Hl, Hf.
split; [reflexivity |]. split; [exact Hids |]. split; [exact Hlen |].
split; [| split; [| split]].
- intros H1 H2 H3. rewrite Hlen. now apply query_leads_all_found.
- rewrite Hs, Hl, Hf, <- (uncounted_pending results Hst).
  apply statistics_partition.
- destruct (Z.to_nat max_concurrent) as [|n] eqn:Hn; [lia |].
  pose proof (batch_is_a_schedule self lead_ids cc vp auto_send n w) as Hsch.
  rewrite Hg in Hsch. simpl in Hsch.
  eexists. split; [exact Hsch |]. split.
  + unfold completed. simpl. apply Forall_map, Forall_true. simpl. eauto.
  + apply outcomes_finished.
- intros s Hreach Hdone.
  destruct (schedule_outcomes _ _ _ _ _ _ _ _ Hreach Hdone) as (H1 & H2 & H3).
  destruct (statistics_by_status (outcomes s)) as (Ht' & Hs' & _ & Hl' & Hf').
  cbv zeta in Ht', Hs', Hl', Hf'. simpl in Ht', Hs', Hl', Hf'.
  split; [exact H1 |]. split; [exact H2 |].
  rewrite Hs', Hl', Hf', <- (uncounted_pending (outcomes s) H3).
  apply statistics_partition.
Qed.

(** C10 (amended): [process_lead] never returns the status [ready] nor
    [processing].  A run that created an artifact ends as [sent],
    [send_failed], [pending_review] or, when a later step raises, [error]:
    the status [ready] assigned after persistence is always overwritten.
    Hence the statistic [successful] of a batch equals its [sent] count,
    for the batch function and for every schedule of its tasks that runs to
    its end. *)
Theorem ready_is_never_returned :
  forall (self : Orchestrator.t) (lead : Lead.t) (cc vp : string)
         (auto_send : bool) (w : World),
    let r := fst (process_lead self lead cc vp auto_send w) in
    Result.status r <> "ready"
    /\ Result.status r <> "processing"
    /\ (Result.campaign_id r <> None ->
        Result.status r = "sent" \/ Result.status r = "send_failed"
        \/ Result.status r = "pending_review" \/ Result.status r = "error")
    /\ (forall (lead_ids : list Z) (max_concurrent : Z) results statistics w',
          batch_process_leads self lead_ids cc vp auto_send max_concurrent w
            = (Returned results statistics, w') ->
          Statistics.successful statistics = Statistics.sent statistics)
    /\ (forall (leads : list Lead.t) (max_concurrent : nat) (s : Limiter),
          reachable self cc vp auto_send max_concurrent leads w s ->
          completed s ->
          Statistics.successful (compile_statistics (outcomes s))
          = Statistics.sent (compile_statistics (outcomes s))).
Proof.
intros self lead cc vp auto_send w r.
pose proof (process_lead_status self lead cc vp auto_send w) as Hs.
cbv zeta in Hs. fold r in Hs.
split_and!.
- intros E. rewrite E in Hs. repeat destruct Hs as [Hs|Hs]; discriminate.
- intros E. rewrite E in Hs. repeat destruct Hs as [Hs|Hs]; discriminate.
- intros Hc. destruct (Result.campaign_id r) as [cid|] eqn:Hcid; [| done].
  pose proof (run_with_campaign _ _ _ _ _ _ _ _ cid
                (process_lead_run self lead cc vp auto_send w) Hcid) as H.
  tauto.
- intros lead_ids max_concurrent results statistics w' Hb.
  unfold batch_process_leads in Hb.
  destruct (max_concurrent <? 0)%Z; [discriminate |].
  destruct ((max_concurrent =? 0)%Z && _); [discriminate |].
  pose proof (gather_statuses self (query_leads lead_ids w) cc vp auto_send w) as Hst.
  destruct (gather self (query_leads lead_ids w) cc vp auto_send w) as [rs w2].
  injection Hb as <- <- <-. simpl.
  now apply successful_is_sent.
- intros leads max_concurrent s Hreach Hdone. simpl.
  apply successful_is_sent.
  now destruct (schedule_outcomes _ _ _ _ _ _ _ _ Hreach Hdone) as (_ & _ & H).
Qed.

(** ** Further properties of the orchestrator *)

Ltac answered_call :=
  let e := fresh "e" in
  let He := fresh "He" in
  intros e He; unfold raised_last in He; rewrite last_snoc in He;
  try contradiction; congruence.

(** X1: [_enrich_lead_data] never raises, and it reports [failed] exactly
    when a call it made raised.  When it reports [success], every call it
    made answered, the sources the lead names and the commit: the data are
    those of exactly these sources and the row of the lead holds the columns
    the stage assigns.  When it reports [failed], the last call it made (a
    source or the commit) raised the error it reports and the calls before
    it answered; the data are empty, so what was already scraped is
    dropped, and the row of the lead is as it was.  A lead that names no profile and no company costs no collaborator
    call: the clock is read and the session is committed, nothing else.  The
    campaigns are never touched. *)
Theorem enrichment_never_raises_and_drops_partial_data :
  forall (self : Orchestrator.t) (lead : Lead.t) (w : World),
    exists enrichment w1 evs,
      _enrich_lead_data self lead w = (Ok enrichment, w1)
      /\ campaigns w1 = campaigns w
      /\ log w1 = log w ++ evs
      /\ ((Enrichment.status enrichment = "success"
           /\ Enrichment.error enrichment = None
           /\ (is_Some (Enrichment.linkedin_profile (Enrichment.payload enrichment))
               <-> truthy (Lead.linkedin_url lead) = true)
           /\ (is_Some (Enrichment.recent_activity (Enrichment.payload enrichment))
               <-> truthy (Lead.linkedin_url lead) = true)
           /\ (is_Some (Enrichment.company_intelligence
                          (Enrichment.payload enrichment))
               <-> truthy (Lead.company lead) = true)
           /\ db_commit env (log w1) = Ok tt
           /\ Forall (answered env) (histories (log w) evs)
           /\ exists scraped,
                evs = scraped ++ [EvUtcNow; EvDbCommit]
                /\ leads w1
                   = update_lead (Lead.id lead)
                       (Lead.enriched
                          (Enrichment.linkedin_profile (Enrichment.payload enrichment),
                           Enrichment.recent_activity (Enrichment.payload enrichment))
                          (match Enrichment.company_intelligence
                                   (Enrichment.payload enrichment) with
                           | Some d =>
                               Some (default "[]" (payload_get env d "recent_news"),
                                     payload_get env d "industry")
                           | None => None
                           end)
                          (utcnow env (log w ++ scraped ++ [EvUtcNow])))
                       (leads w))
          \/ (Enrichment.status enrichment = "failed"
              /\ Enrichment.payload enrichment = Enrichment.no_data
              /\ leads w1 = leads w
              /\ Forall (answered env) (histories (log w) (removelast evs))
              /\ exists e, Enrichment.error enrichment = Some e
                           /\ raised_last env (log w1) e))
      /\ (truthy (Lead.linkedin_url lead) = false ->
          truthy (Lead.company lead) = false ->
          evs = [EvUtcNow; EvDbCommit]).
Proof.
intros self lead w.
unfold _enrich_lead_data, try_except, bind, call, now, commit, flush, call, ret.
destruct (truthy (Lead.linkedin_url lead)) eqn:Hl;
  destruct (truthy (Lead.company lead)) eqn:Hc; simpl;
  repeat match goal with
         | |- context [scrape_profile env ?h] =>
             destruct (scrape_profile env h) eqn:?; simpl
         | |- context [get_recent_activity env ?h] =>
             destruct (get_recent_activity env h) eqn:?; simpl
         | |- context [enrich_company_data env ?h] =>
             destruct (enrich_company_data env h) eqn:?; simpl
         | |- context [db_commit env ?h] =>
             destruct (db_commit env h) as [[]|] eqn:?; simpl
         end;
  eexists _, _, _; (split; [reflexivity |]); simpl;
  (split; [reflexivity |]);
  (split; [rewrite <- ?app_assoc; simpl; reflexivity |]);
  (split; [| intros; try discriminate; reflexivity]);
  first [ right; split; [reflexivity |]; split; [reflexivity |];
          split; [reflexivity |];
          split; [simpl; repeat constructor; answered_call |];
          eexists; split; [reflexivity |];
          unfold raised_last; rewrite last_snoc; assumption
        | left; split; [reflexivity |]; split; [reflexivity |];
          split; [first [split; [reflexivity | eauto]
                        | split; [intros [? ?]; discriminate | discriminate]] |];
          split; [first [split; [reflexivity | eauto]
                        | split; [intros [? ?]; discriminate | discriminate]] |];
          split; [first [split; [reflexivity | eauto]
                        | split; [intros [? ?]; discriminate | discriminate]] |];
          split; [assumption |];
          split; [simpl; repeat constructor; answered_call |];
          match goal with
          | |- exists scraped, ?l = _ /\ _ =>
              exists (removelast (removelast l)); split; [reflexivity |];
              simpl; rewrite <- ?app_assoc; reflexivity
          end ].
Qed.

(** X2: the keys of the outcome of [process_lead] follow its status.  The
    outcome always names the lead and always has the enrichment stage; it has
    the key [error] exactly when the status is [error], the key
    [relevance_score] exactly when the status is [low_relevance], the stage
    [send] exactly when the status is [sent]; after a failed enrichment it has
    no analysis; the statuses [pending_review] and [sent] come with a
    [campaign_id], and a [campaign_id] comes with the draft, its quality
    check and the analysis. *)
Theorem outcome_keys_follow_status :
  forall (self : Orchestrator.t) (lead : Lead.t) (cc vp : string)
         (auto_send : bool) (w : World),
    let r := fst (process_lead self lead cc vp auto_send w) in
    Result.lead_id r = Lead.id lead
    /\ Result.lead_name r = Lead.name lead
    /\ is_Some (Result.enrichment r)
    /\ (is_Some (Result.error r) <-> Result.status r = "error")
    /\ (is_Some (Result.relevance_score r) <-> Result.status r = "low_relevance")
    /\ (is_Some (Result.send r) <-> Result.status r = "sent")
    /\ (Result.status r = "enrichment_failed" -> Result.analysis r = None)
    /\ (Result.status r = "pending_review" \/ Result.status r = "sent" ->
        is_Some (Result.campaign_id r))
    /\ (is_Some (Result.campaign_id r) ->
        is_Some (Result.email_generation r)
        /\ is_Some (Result.quality_check r)
        /\ is_Some (Result.analysis r)).
Proof.
intros self lead cc vp auto_send w r.
pose proof (process_lead_run self lead cc vp auto_send w) as HR. fold r in HR.
revert HR. generalize (snd (process_lead self lead cc vp auto_send w)).
generalize r. clear r. intros r w' HR.
destruct HR as [? ? ? ?|? ? ? ? ? ? ?|? ? ? ? ? ? ? ?|? ? ? ? ? ? ? ? ? ? ?
               |? ? ? ? ? ? ? ? ? ? ? ? ? ? HP];
  [| | | | destruct HP as [| | |campaign w4 e w5 ? ? Hsend
                           |campaign w4 send_result w5 ? ? Hsend];
           try (apply send_facts in Hsend as [_ Hsend]);
           try match type of Hsend with
               | _ /\ _ => destruct Hsend as [Hsuccess _]; rewrite Hsuccess
               end ];
  simpl; split_and!; try reflexivity; try (eexists; reflexivity);
  try (split; [intros [? ?]; discriminate | discriminate]);
  try (split; [reflexivity | eexists; reflexivity]);
  try (split; [eexists; reflexivity | reflexivity]);
  try (intros [? ?]; discriminate);
  try discriminate;
  try (intros [?|?]; discriminate);
  try (intros _; split_and!; eexists; reflexivity);
  try (intros; eexists; reflexivity).
Qed.

(** X3: a draft that lacks [subject_line] or [email_body] cannot be
    persisted.  When the outcome carries such a draft, [_create_campaign]
    raised [KeyError] for the first missing key before it touched the
    session: the status is [error], no [campaign_id] is set, no row is added
    and [db.add] is never called. *)
Theorem draft_without_subject_or_body_ends_in_error :
  forall (self : Orchestrator.t) (lead : Lead.t) (cc vp : string)
         (auto_send : bool) (w : World) (email : Email.t),
    let out := process_lead self lead cc vp auto_send w in
    Result.email_generation (fst out) = Some (Some email) ->
    Email.subject_line email = None \/ Email.email_body email = None ->
    Result.status (fst out) = "error"
    /\ Result.error (fst out)
       = Some (KeyError (match Email.subject_line email with
                         | None => "subject_line"
                         | Some _ => "email_body"
                         end))
    /\ Result.campaign_id (fst out) = None
    /\ campaigns (snd out) = campaigns w
    /\ count_calls is_artifact_create (new_events w (snd out)) = 0.
Proof.
intros self lead cc vp auto_send w email out Hdraft Hmissing.
pose proof (process_lead_run self lead cc vp auto_send w) as HR.
fold out in HR.
destruct HR as [? ? ? ?|? ? ? ? ? ? ?|? ? ? ? ? ? ? ?|? ? ? ? ? ? ? ? ? ? ?
               |enrichment w1 analysis w2 email' quality_check w3 result w'
                  He Hok Ha Hrel Hloop HP];
  try discriminate Hdraft.
destruct (persist_keeps_fields _ _ _ _ _ _ _ _ _ _ HP) as (_ & Hgen & _).
rewrite Hdraft in Hgen. simpl in Hgen. injection Hgen as <-.
destruct (enrich_facts _ _ _ _ _ He) as (evs1 & Hl1 & Hev1 & Hc1 & _).
destruct (analyze_facts _ _ _ _ _ _ Ha) as (evs2 & Hl2 & Hev2 & Hc2 & _).
destruct (loop_facts _ _ _ _ _ _ _ _ Hloop) as (evs3 & Hl3 & Hev3 & Hc3 & _).
assert (Hraise : _create_campaign self lead (Some email) analysis quality_check w3
                 = (Raise (KeyError (match Email.subject_line email with
                                     | None => "subject_line"
                                     | Some _ => "email_body"
                                     end)), w3)).
{ unfold _create_campaign, bind, of_exc, subscript, getitem.
  destruct (Email.subject_line email); [| reflexivity].
  destruct Hmissing as [Hm|Hm]; [discriminate |]. now rewrite Hm. }
destruct HP as [e w4 Hc|campaign w4 e Hc|campaign w4 Hc|campaign w4 e w5 Hc
               |campaign w4 send_result w5 Hc];
  rewrite Hraise in Hc; try discriminate Hc.
injection Hc as <- <-. simpl.
split_and!; try reflexivity.
- congruence.
- rewrite (new_events_app w w3 (evs1 ++ evs2 ++ evs3))
    by (rewrite Hl3, Hl2, Hl1, <- !app_assoc; reflexivity).
  rewrite !count_calls_app.
  rewrite (quiet enrichment_event is_artifact_create evs1), 
          (quiet analysis_event is_artifact_create evs2),
          (quiet generation_event is_artifact_create evs3); auto.
  + intros ev H. now apply generation_event_quiet in H.
  + intros ev H. now apply analysis_event_quiet in H.
  + intros ev H. now apply enrichment_event_quiet in H.
Qed.

Lemma analyze_lead_unparsed self lead data w content :
  call_kimi env (log w ++ [EvKimi AnalyzeLead (PyStr (Lead.name lead))])
    = Ok content ->
  (forall text, fenced content = Ok text -> json_loads text = None) ->
  db_commit env (log w ++ [EvKimi AnalyzeLead (PyStr (Lead.name lead));
                           EvDbCommit]) = Ok tt ->
  _analyze_lead self lead data w
  = (Ok {| Analysis.pain_points := None; Analysis.interests := None;
           Analysis.trigger_events := None;
           Analysis.communication_style := None;
           Analysis.relevance_score := Some 0.5%float;
           Analysis.raw_analysis := Some content |},
     set_leads
       (update_lead (Lead.id lead) (Lead.analysed [] [] [] 0.5%float) (leads w))
       (record_event EvDbCommit
          (record_event (EvKimi AnalyzeLead (PyStr (Lead.name lead))) w))).
Proof.
intros Hcall Hparse Hcommit.
unfold _analyze_lead, analyze_lead_profile, _call_kimi.
match goal with
| |- context [default PyNone (?m !! "name")] =>
    replace (default PyNone (m !! "name")) with (PyStr (Lead.name lead))
      by reflexivity
end.
unfold bind at 1. unfold bind at 1. unfold call at 1. simpl.
rewrite Hcall.
destruct (fenced_total content) as [text Ht].
unfold bind, of_exc, ret, commit, flush, call. rewrite Ht, (Hparse text Ht). simpl.
rewrite <- app_assoc. simpl. rewrite Hcommit. reflexivity.
Qed.

(** X4: an analysis reply that cannot be decoded is scored 0.5.  When the
    enrichment succeeded, the completion endpoint answered the analysis
    request, the decoder rejects the text and the commit goes through, the
    analysis stage holds the raw reply with [relevance_score] 0.5; under every
    configuration whose minimum is above 0.5 (the default is 0.7) the outcome
    is therefore [low_relevance]: no draft is requested and no row added. *)
Theorem unparsed_analysis_is_scored_one_half :
  forall (self : Orchestrator.t) (lead : Lead.t) (cc vp : string)
         (auto_send : bool) (w : World) (enrichment : Enrichment.t)
         (w1 : World) (content : string),
    _enrich_lead_data self lead w = (Ok enrichment, w1) ->
    Enrichment.status enrichment <> "failed" ->
    call_kimi env (log w1 ++ [EvKimi AnalyzeLead (PyStr (Lead.name lead))])
      = Ok content ->
    (forall text, fenced content = Ok text -> json_loads text = None) ->
    db_commit env (log w1 ++ [EvKimi AnalyzeLead (PyStr (Lead.name lead));
                              EvDbCommit]) = Ok tt ->
    (0.5 <? Orchestrator.min_personalization_score self)%float = true ->
    let out := process_lead self lead cc vp auto_send w in
    Result.status (fst out) = "low_relevance"
    /\ Result.relevance_score (fst out) = Some 0.5%float
    /\ (exists analysis,
          Result.analysis (fst out) = Some analysis
          /\ Analysis.raw_analysis analysis = Some content
          /\ Analysis.relevance_score analysis = Some 0.5%float)
    /\ count_calls is_generation_call (new_events w (snd out)) = 0
    /\ campaigns (snd out) = campaigns w.
Proof.
intros self lead cc vp auto_send w enrichment w1 content He Hok Hcall Hparse
  Hcommit Hmin out.
subst out. rewrite process_lead_unfold. cbv zeta. rewrite He.
destruct (String.eqb_spec (Enrichment.status enrichment) "failed") as [|_];
  [contradiction |].
rewrite (analyze_lead_unparsed self lead _ w1 content Hcall Hparse Hcommit).
simpl. rewrite Hmin. simpl.
destruct (enrich_facts _ _ _ _ _ He) as (evs1 & Hl1 & Hev1 & Hc1 & _).
split_and!; try reflexivity.
- eexists. split_and!; reflexivity.
- rewrite (new_events_app w _
             (evs1 ++ [EvKimi AnalyzeLead (PyStr (Lead.name lead)); EvDbCommit]))
    by (simpl; rewrite Hl1, <- !app_assoc; reflexivity).
  rewrite count_calls_app.
  rewrite (quiet enrichment_event is_generation_call evs1); auto.
  intros ev H. now apply enrichment_event_quiet in H.
- exact Hc1.
Qed.

Lemma update_campaign_absent i f rows :
  (forall c, c ∈ rows -> Campaign.id c <> i) -> update_campaign i f rows = rows.
Proof.
unfold update_campaign. induction rows as [|c rows IH]; intros H; simpl; [done |].
destruct (Z.eqb_spec (Campaign.id c) i) as [E|_].
- exfalso. apply (H c); [left | exact E].
- rewrite IH; [done |]. intros c' Hc'. apply H. now right.
Qed.

Lemma update_campaign_fresh f rows c :
  Campaign.id c = fresh_id rows ->
  update_campaign (fresh_id rows) f (rows ++ [c]) = rows ++ [f c].
Proof.
intros Hid. unfold update_campaign. rewrite map_app. simpl.
rewrite Hid, Z.eqb_refl. f_equal.
apply update_campaign_absent. intros c' Hc'.
pose proof (fresh_id_above rows c' Hc'). lia.
Qed.

Lemma persist_rows self lead auto_send analysis email quality_check r3 w3 r w' :
  Result.campaign_id r3 = None ->
  Persist self lead auto_send analysis email quality_check r3 w3 r w' ->
  leads w' = leads w3
  /\ match Result.campaign_id r with
     | None =>
         Result.status r = "error"
         /\ (campaigns w' = campaigns w3
             \/ exists c, campaigns w' = campaigns w3 ++ [c]
                          /\ stored_row lead email quality_check (campaigns w3) c)
     | Some cid =>
         cid = fresh_id (campaigns w3)
         /\ exists c, campaigns w' = campaigns w3 ++ [c]
                      /\ Campaign.id c = cid
                      /\ Campaign.lead_id c = Lead.id lead
     end.
Proof.
intros Hnone HP.
destruct HP as [e w4 Hc|campaign w4 e Hc Hg|campaign w4 Hc Hg
               |campaign w4 e w5 Hc Hg Hs|campaign w4 send_result w5 Hc Hg Hs];
  pose proof (create_campaign_run self lead email analysis quality_check w3) as H;
  rewrite Hc in H; simpl.
- rewrite Hnone. destruct H as [Hleads _]. split; [exact Hleads |].
  split; [done |].
  apply create_raised_facts in Hc as [[Hrows|(c & Hrows & Hc & _)] _];
    [now left | right; eauto].
- destruct H as (d & sj & b & _ & _ & _ & -> & Hrows & Hleads & _).
  simpl. split; [exact Hleads |]. split; [done |]. eexists. split_and!; eauto.
- destruct H as (d & sj & b & _ & _ & _ & -> & Hrows & Hleads & _).
  simpl. split; [exact Hleads |]. split; [done |]. eexists. split_and!; eauto.
- destruct H as (d & sj & b & _ & _ & _ & -> & Hrows & Hleads & _).
  match type of Hs with
  | _send_email _ ?c _ = _ => pose proof (send_email_run self c w4) as H'
  end.
  rewrite Hs in H'.
  destruct H' as (Hrows' & Hleads' & _).
  simpl. split; [congruence |]. split; [done |].
  eexists. rewrite Hrows', Hrows. split_and!; eauto.
- destruct H as (d & sj & b & _ & _ & _ & -> & Hrows & Hleads & _).
  match type of Hs with
  | _send_email _ ?c _ = _ => pose proof (send_email_run self c w4) as H'
  end.
  rewrite Hs in H'.
  destruct H' as (_ & Hrows' & Hleads' & _).
  simpl in *. split; [congruence |]. split; [done |].
  rewrite Hrows', Hrows, update_campaign_fresh by reflexivity.
  eexists. split_and!; eauto.
Qed.

(** A failed enrichment leaves the row of the lead as it was. *)
Lemma enrich_failed_rows self lead w enrichment w1 :
  _enrich_lead_data self lead w = (Ok enrichment, w1) ->
  Enrichment.status enrichment = "failed" -> leads w1 = leads w.
Proof.
unfold _enrich_lead_data, try_except, bind, call, now, commit, flush, call, ret.
destruct (truthy (Lead.linkedin_url lead));
  destruct (truthy (Lead.company lead)); simpl;
  repeat match goal with
         | |- context [scrape_profile env ?h] =>
             destruct (scrape_profile env h); simpl
         | |- context [get_recent_activity env ?h] =>
             destruct (get_recent_activity env h); simpl
         | |- context [enrich_company_data env ?h] =>
             destruct (enrich_company_data env h); simpl
         | |- context [db_commit env ?h] =>
             destruct (db_commit env h) as [[]|]; simpl
         end;
  intros [= <- <-]; simpl; first [discriminate | reflexivity].
Qed.

Lemma process_lead_rows self lead cc vp auto_send w :
  let out := process_lead self lead cc vp auto_send w in
  lead_written (Lead.id lead) (leads w) (leads (snd out))
  /\ (Result.status (fst out) = "enrichment_failed" -> leads (snd out) = leads w)
  /\ match Result.campaign_id (fst out) with
     | None =>
         campaigns (snd out) = campaigns w
         \/ (Result.status (fst out) = "error"
             /\ exists c, campaigns (snd out) = campaigns w ++ [c]
                          /\ Campaign.id c = fresh_id (campaigns w)
                          /\ Campaign.lead_id c = Lead.id lead
                          /\ Campaign.status c = READY)
     | Some cid =>
         cid = fresh_id (campaigns w)
         /\ exists c, campaigns (snd out) = campaigns w ++ [c]
                      /\ Campaign.id c = cid
                      /\ Campaign.lead_id c = Lead.id lead
     end.
Proof.
intros out.
pose proof (process_lead_run self lead cc vp auto_send w) as HR. fold out in HR.
destruct HR as [enrichment w1 He Hf|enrichment w1 e w2 He ? Ha
               |enrichment w1 analysis w2 He ? Ha ?
               |enrichment w1 analysis w2 e w3 He ? Ha ? Hloop
               |enrichment w1 analysis w2 email quality_check w3 result w'
                  He Hok Ha Hrel Hloop HP];
  destruct (enrich_facts _ _ _ _ _ He) as (evs1 & _ & _ & Hc1 & Hd1);
  try destruct (analyze_facts _ _ _ _ _ _ Ha) as (evs2 & _ & _ & Hc2 & Hd2);
  try destruct (loop_facts _ _ _ _ _ _ _ _ Hloop) as (evs3 & _ & _ & Hc3 & Hd3 & _);
  simpl.
- split; [exact Hd1 |]. split; [| left; congruence].
  intros _. eapply enrich_failed_rows; eauto.
- split; [eapply lead_written_trans; eauto |]. split; [discriminate |].
  left. congruence.
- split; [eapply lead_written_trans; eauto |]. split; [discriminate |].
  left. congruence.
- split; [do 2 (eapply lead_written_trans; eauto) |]. split; [discriminate |].
  left. congruence.
- pose proof (persist_status _ _ _ _ _ _ _ _ _ _ HP) as Hst.
  apply persist_rows in HP as [Hleads Hrows]; [| reflexivity].
  split; [rewrite Hleads; do 2 (eapply lead_written_trans; eauto) |].
  split; [intros E; rewrite E in Hst; intuition discriminate |].
  assert (Hold : campaigns w3 = campaigns w) by congruence.
  rewrite Hold in Hrows.
  destruct (Result.campaign_id result) as [cid|].
  + destruct Hrows as (-> & c & Hrows & Hid & Hlead).
    split; [done |]. exists c. split_and!; congruence.
  + destruct Hrows as [Herr [Hrows|(c & Hrows & Hid & Hlead & Hready & _)]];
      [now left | right].
    split; [exact Herr |]. exists c. split_and!; done.
Qed.

(** X5: what a run of [process_lead] does to the two tables.  In the table
    of leads it writes at most to the row of its lead, where it leaves the
    key and the columns it reads as they were; a run that ends as
    [enrichment_failed] writes nothing.  It never alters a campaign row that
    was there before it and adds at most one.  When the outcome has a
    [campaign_id], one row was added, for this lead, under that key, which is
    larger than every key in use.  When it has none, no row was added,
    unless the outcome is [error] because the refresh after the commit
    raised: the row is then stored, with status [READY], though the outcome
    does not name it. *)
Theorem run_adds_at_most_one_row :
  forall (self : Orchestrator.t) (lead : Lead.t) (cc vp : string)
         (auto_send : bool) (w : World),
    let out := process_lead self lead cc vp auto_send w in
    Forall2 (fun before after =>
               Lead.same_input before after
               /\ (Lead.id before <> Lead.id lead -> after = before))
      (leads w) (leads (snd out))
    /\ (Result.status (fst out) = "enrichment_failed" ->
        leads (snd out) = leads w)
    /\ match Result.campaign_id (fst out) with
       | None =>
           campaigns (snd out) = campaigns w
           \/ (Result.status (fst out) = "error"
               /\ exists c, campaigns (snd out) = campaigns w ++ [c]
                            /\ Campaign.lead_id c = Lead.id lead
                            /\ Campaign.status c = READY
                            /\ (forall c', c' ∈ campaigns w ->
                                           (Campaign.id c' < Campaign.id c)%Z))
       | Some cid =>
           exists c, campaigns (snd out) = campaigns w ++ [c]
                     /\ Campaign.id c = cid
                     /\ Campaign.lead_id c = Lead.id lead
                     /\ (forall c', c' ∈ campaigns w ->
                                    (Campaign.id c' < cid)%Z)
       end.
Proof.
intros self lead cc vp auto_send w out.
destruct (process_lead_rows self lead cc vp auto_send w) as (Hleads & Hfailed & Hrows).
fold out in Hleads, Hfailed, Hrows.
split; [now apply lead_written_rows |]. split; [exact Hfailed |].
destruct (Result.campaign_id (fst out)) as [cid|].
- destruct Hrows as (-> & c & Hrows & Hid & Hlead).
  exists c. split_and!; auto. intros c' Hc'. now apply fresh_id_above.
- destruct Hrows as [Hrows|(Herr & c & Hrows & Hid & Hlead & Hready)];
    [now left | right].
  split; [exact Herr |]. exists c. split_and!; auto.
  intros c' Hc'. rewrite Hid. now apply fresh_id_above.
Qed.

Lemma fresh_id_keeps_NoDup rows c :
  Campaign.id c = fresh_id rows ->
  NoDup (map Campaign.id rows) -> NoDup (map Campaign.id (rows ++ [c])).
Proof.
intros Hid Hnd. rewrite map_app. apply NoDup_app. split; [exact Hnd |].
split; [| apply NoDup_singleton].
intros i Hi Hi'. apply list_elem_of_singleton in Hi'. simpl in Hi'. subst i.
apply list_elem_of_fmap in Hi as (c' & Hc' & Hin).
pose proof (fresh_id_above rows c' Hin). lia.
Qed.


(** ** The routes *)

Lemma query_keys_NoDup lead_ids w :
  NoDup (map Lead.id (leads w)) ->
  NoDup (map Lead.id (query_leads lead_ids w)).
Proof.
intros Hkeys. apply (sublist_NoDup _ (map Lead.id (leads w))); [exact Hkeys |].
unfold query_leads. clear Hkeys.
induction (leads w) as [|l ls IH]; simpl; [constructor |].
destruct (bool_decide _); simpl; [now apply sublist_skip | now apply sublist_cons].
Qed.

Lemma query_keys_elem lead_ids w i :
  i ∈ map Lead.id (query_leads lead_ids w)
  <-> i ∈ lead_ids /\ i ∈ map Lead.id (leads w).
Proof.
unfold query_leads. rewrite !list_elem_of_fmap. split.
- intros (l & -> & Hl). apply list_elem_of_In, List.filter_In in Hl as [Hl Hb].
  apply bool_decide_eq_true in Hb. split; [exact Hb |].
  exists l. split; [done | now apply list_elem_of_In].
- intros (Hi & l & -> & Hl). exists l. split; [done |].
  apply list_elem_of_In, List.filter_In.
  split; [now apply list_elem_of_In | now apply bool_decide_eq_true].
Qed.

Lemma query_leads_count lead_ids w :
  NoDup (map Lead.id (leads w)) ->
  length (query_leads lead_ids w) = length lead_ids ->
  NoDup lead_ids /\ forall i, i ∈ lead_ids -> i ∈ map Lead.id (leads w).
Proof.
intros Hkeys Hlen.
assert (Hperm : map Lead.id (query_leads lead_ids w) ≡ₚ lead_ids).
{ apply submseteq_length_Permutation.
  - apply NoDup_submseteq; [now apply query_keys_NoDup |].
    intros i Hi. now apply query_keys_elem in Hi as [Hi _].
  - rewrite length_map. lia. }
split.
- rewrite <- Hperm. now apply query_keys_NoDup.
- intros i Hi. rewrite <- Hperm in Hi. now apply query_keys_elem in Hi as [_ Hi].
Qed.

(** X7: [POST /campaigns] answers 404 exactly when the submitted keys are not
    distinct keys of stored leads.  With distinct keys in the leads table, the
    count of fetched rows equals the count of submitted keys only if no key
    is repeated and every key has a row; a rejected request changes nothing
    and leaves no background task. *)
Theorem campaign_route_rejects_unknown_and_repeated_keys :
  forall (settings : Settings) (request : CampaignRequest.t) (w : World),
    NoDup (map Lead.id (leads w)) ->
    let ids := CampaignRequest.lead_ids request in
    (create_campaign settings request w
       = (HTTPException 404 "Some lead IDs not found", w, [])
     <-> ~ (NoDup ids /\ forall i, i ∈ ids -> i ∈ map Lead.id (leads w)))
    /\ (forall status_code detail w' background,
          create_campaign settings request w
            = (HTTPException status_code detail, w', background) ->
          status_code = 404%Z /\ w' = w /\ background = []).
Proof.
intros settings request w Hkeys ids. unfold create_campaign. fold ids.
destruct (Nat.eqb_spec (length (query_leads ids w)) (length ids)) as [Hlen|Hlen];
  simpl.
- split.
  + split.
    * intros H. exfalso.
      destruct (length ids <=? 5)%nat; [| discriminate H].
      destruct (batch_process_leads _ _ _ _ _ _ _) as [[| |] ?]; discriminate H.
    * intros H. exfalso. apply H. now apply query_leads_count.
  + intros status_code detail w' background H. exfalso.
    destruct (length ids <=? 5)%nat; [| discriminate H].
    destruct (batch_process_leads _ _ _ _ _ _ _) as [[| |] ?]; discriminate H.
- split.
  + split; [| reflexivity].
    intros _ [Hnd Hall]. apply Hlen. now apply query_leads_all_found.
  + intros status_code detail w' background H. injection H as <- _ <- <-. done.
Qed.

(** X8: a request that passes the validation of [POST /campaigns] is
    processed before the reply only when it names at most five leads: the
    reply is then [completed] with one outcome per submitted key, [total]
    equal to the number of keys, and no background task, and the route can
    neither raise nor block.  A larger request is answered [processing] with
    the world as it was and one background task holding the request.  The
    flag [generate_ab_variants] of the request is never read. *)
Theorem campaign_route_runs_small_batches_before_replying :
  forall (settings : Settings) (request : CampaignRequest.t) (w : World),
    let ids := CampaignRequest.lead_ids request in
    length (query_leads ids w) = length ids ->
    (length ids <= 5 ->
     exists results w',
       create_campaign settings request w
         = (Answer (CampaignReply.Completed results (compile_statistics results)),
            w', [])
       /\ batch_process_leads (__init__ settings) ids
            (CampaignRequest.company_context request)
            (CampaignRequest.value_proposition request)
            (CampaignRequest.auto_send request) 5 w
          = (Returned results (compile_statistics results), w')
       /\ map Result.lead_id results = map Lead.id (query_leads ids w)
       /\ Statistics.total (compile_statistics results) = length ids)
    /\ (5 < length ids ->
        create_campaign settings request w
          = (Answer
               (CampaignReply.Processing
                  ("Processing " +:+ PyStr.of_nat (length ids)
                   +:+ " leads in background") ids),
             w,
             [{| BackgroundTask.lead_ids := ids;
                 BackgroundTask.company_context :=
                   CampaignRequest.company_context request;
                 BackgroundTask.value_proposition :=
                   CampaignRequest.value_proposition request;
                 BackgroundTask.auto_send := CampaignRequest.auto_send request |}]))
    /\ (forall flag,
          create_campaign settings
            {| CampaignRequest.lead_ids := ids;
               CampaignRequest.company_context :=
                 CampaignRequest.company_context request;
               CampaignRequest.value_proposition :=
                 CampaignRequest.value_proposition request;
               CampaignRequest.auto_send := CampaignRequest.auto_send request;
               CampaignRequest.generate_ab_variants := flag |} w
          = create_campaign settings request w).
Proof.
intros settings request w ids Hlen. unfold create_campaign. fold ids. simpl.
rewrite Hlen, Nat.eqb_refl. simpl. split_and!.
- intros Hsmall. apply Nat.leb_le in Hsmall. rewrite Hsmall.
  unfold batch_process_leads. simpl.
  pose proof (gather_length (__init__ settings) (query_leads ids w)
                (CampaignRequest.company_context request)
                (CampaignRequest.value_proposition request)
                (CampaignRequest.auto_send request) w) as Hl.
  pose proof (gather_lead_ids (__init__ settings) (query_leads ids w)
                (CampaignRequest.company_context request)
                (CampaignRequest.value_proposition request)
                (CampaignRequest.auto_send request) w) as Hi.
  destruct (gather _ _ _ _ _ _) as [results w']. simpl in *.
  exists results, w'. split_and!; auto. congruence.
- intros Hlarge. apply Nat.leb_gt in Hlarge. now rewrite Hlarge.
- reflexivity.
Qed.

Lemma get_campaign_app_found i rows extra c :
  get_campaign i rows = Some c -> get_campaign i (rows ++ extra) = Some c.
Proof.
unfold get_campaign. induction rows as [|r rows IH]; simpl; [discriminate |].
destruct (Campaign.id r =? i)%Z; [done | exact IH].
Qed.

Lemma get_campaign_id i rows c :
  get_campaign i rows = Some c -> Campaign.id c = i /\ c ∈ rows.
Proof.
unfold get_campaign. intros H. apply List.find_some in H as [Hin Hid].
split; [now apply Z.eqb_eq | now apply list_elem_of_In].
Qed.

Lemma update_campaign_keeps_others i f rows c :
  c ∈ rows -> Campaign.id c <> i -> c ∈ update_campaign i f rows.
Proof.
intros Hin Hid. unfold update_campaign. apply list_elem_of_fmap.
exists c. split; [| exact Hin].
destruct (Z.eqb_spec (Campaign.id c) i); [contradiction | reflexivity].
Qed.

Lemma send_campaign_refuses settings i w c :
  get_campaign i (campaigns w) = Some c -> Campaign.status c = SENT ->
  send_campaign settings i w = (HTTPException 400 "Campaign already sent", w).
Proof. intros Hget Hs. unfold send_campaign. now rewrite Hget, Hs. Qed.

(** X9: [POST /campaigns/{campaign_id}/send] sends a campaign at most once.
    When it returns, the campaign was not yet sent, exactly one dispatch was
    made, the row is marked [SENT] with the time the reply reports, and no
    other campaign changed; from then on the route answers 400 for this
    campaign, also after any later run of [process_lead]. *)
Theorem route_sends_a_campaign_at_most_once :
  forall (settings : Settings) (cid : Z) (w w1 : World) (body : SendReply.t),
    send_campaign settings cid w = (Answer body, w1) ->
    SendReply.campaign_id body = cid
    /\ SendReply.status body = "sent"
    /\ (exists c,
          get_campaign cid (campaigns w) = Some c
          /\ Campaign.status c <> SENT
          /\ get_campaign cid (campaigns w1)
             = Some (Campaign.mark_sent (SendReply.sent_at body) c))
    /\ (forall c, c ∈ campaigns w -> Campaign.id c <> cid -> c ∈ campaigns w1)
    /\ count_calls is_send (new_events w w1) = 1
    /\ (forall settings',
          send_campaign settings' cid w1
          = (HTTPException 400 "Campaign already sent", w1))
    /\ (forall settings' self lead cc vp auto_send,
          let w2 := snd (process_lead self lead cc vp auto_send w1) in
          send_campaign settings' cid w2
          = (HTTPException 400 "Campaign already sent", w2)).
Proof.
intros settings cid w w1 body Hsend. unfold send_campaign in Hsend.
destruct (get_campaign cid (campaigns w)) as [c|] eqn:Hget; [| discriminate].
destruct (is_SENT (Campaign.status c)) eqn:Hst; [discriminate |].
pose proof (send_email_run (__init__ settings) c w) as Hrun.
destruct (_send_email (__init__ settings) c w) as [[result|e] w'];
  [| discriminate].
injection Hsend as <- <-. simpl.
destruct Hrun as (_ & Hrows & _ & Hlog).
destruct (get_campaign_id _ _ _ Hget) as [Hid Hin].
assert (Hnew : get_campaign cid (campaigns w')
               = Some (Campaign.mark_sent (SendResult.sent_at result) c)).
{ rewrite Hrows, Hid. now apply get_campaign_update. }
split_and!; try reflexivity.
- exists c. split_and!; auto. intros E. now rewrite E in Hst.
- intros c' Hin' Hid'. rewrite Hrows, Hid.
  now apply update_campaign_keeps_others.
- rewrite (new_events_app _ _ _ Hlog). reflexivity.
- intros settings'. now apply (send_campaign_refuses _ _ _ _ Hnew).
- intros settings' self lead cc vp auto_send.
  apply (send_campaign_refuses _ _ _
           (Campaign.mark_sent (SendResult.sent_at result) c)); [| reflexivity].
  destruct (process_lead_rows self lead cc vp auto_send w') as (_ & _ & Hrows2).
  destruct (Result.campaign_id _) as [cid2|].
  + destruct Hrows2 as (_ & c2 & -> & _). now apply get_campaign_app_found.
  + destruct Hrows2 as [-> |(_ & c2 & -> & _)]; [done |].
    now apply get_campaign_app_found.
Qed.

Lemma run_campaign_row self lead cc vp auto_send w cid :
  let out := process_lead self lead cc vp auto_send w in
  Result.campaign_id (fst out) = Some cid ->
  exists c,
    get_campaign cid (campaigns (snd out)) = Some c
    /\ Campaign.lead_id c = Lead.id lead
    /\ (Result.status (fst out) = "sent" -> Campaign.status c = SENT)
    /\ (Result.status (fst out) <> "sent" -> Campaign.status c = READY).
Proof.
intros out Hcid.
pose proof (process_lead_run self lead cc vp auto_send w) as HR. fold out in HR.
destruct HR as [? ? ? ?|? ? ? ? ? ? ?|? ? ? ? ? ? ? ?|? ? ? ? ? ? ? ? ? ? ?
               |enrichment w1 analysis w2 email quality_check w3 result w'
                  He Hok Ha Hrel Hloop HP];
  try discriminate Hcid.
apply persist_facts in HP; [| reflexivity ..].
destruct HP as [(_ & Hnone & _)|(c & post & Hc & Hid & Hlead & Hst & Hat & _ & _
                                 & Hget & _ & Hcases)];
  [congruence |].
rewrite Hcid in Hc. injection Hc as ->.
destruct Hcases as [(Hs & _ & _ & _ & Hrows)|[(Hs & _ & _ & _ & Hrows)
                   |[(Hs & _ & _ & _ & Hrows)|(Hs & _ & _ & sr & _ & _ & Hrows)]]];
  rewrite Hrows.
1-3: exists c; split_and!; auto; intros E; rewrite Hs in E; discriminate.
exists (Campaign.mark_sent (SendResult.sent_at sr) c). split_and!; auto.
- now apply get_campaign_update.
- intros E. now rewrite Hs in E.
Qed.

(** X10: what [POST /campaigns/{campaign_id}/send] does with the campaign of
    an outcome.  After an outcome [sent] the route answers 400 and dispatches
    nothing.  After any other outcome that carries a [campaign_id]
    ([pending_review], or [error] once the row was committed) the row is
    stored in status [READY] and the route dispatches it, exactly once: it
    returns [sent], or lets the exception of the dispatch through. *)
Theorem route_after_a_run :
  forall (self : Orchestrator.t) (settings : Settings) (lead : Lead.t)
         (cc vp : string) (auto_send : bool) (w : World) (cid : Z),
    let out := process_lead self lead cc vp auto_send w in
    let sent := send_campaign settings cid (snd out) in
    Result.campaign_id (fst out) = Some cid ->
    (Result.status (fst out) = "sent" ->
     sent = (HTTPException 400 "Campaign already sent", snd out))
    /\ (Result.status (fst out) <> "sent" ->
        count_calls is_send (new_events (snd out) (snd sent)) = 1
        /\ ((exists sent_at,
               fst sent = Answer {| SendReply.status := "sent";
                                    SendReply.campaign_id := cid;
                                    SendReply.sent_at := sent_at |}
               /\ exists c, get_campaign cid (campaigns (snd sent)) = Some c
                            /\ Campaign.status c = SENT
                            /\ Campaign.sent_at c = Some sent_at
                            /\ Campaign.lead_id c = Lead.id lead)
            \/ (exists e, fst sent = Unhandled e
                          /\ campaigns (snd sent) = campaigns (snd out)))).
Proof.
intros self settings lead cc vp auto_send w cid out sent Hcid.
destruct (run_campaign_row self lead cc vp auto_send w cid Hcid)
  as (c & Hget & Hlead & Hsent & Hready).
fold out in Hget, Hsent, Hready. split.
- intros Hs. apply (send_campaign_refuses _ _ _ c); auto.
- intros Hs. specialize (Hready Hs). subst sent. unfold send_campaign.
  rewrite Hget, Hready. simpl.
  pose proof (send_email_run (__init__ settings) c (snd out)) as Hrun.
  destruct (_send_email (__init__ settings) c (snd out)) as [[result|e] w'];
    simpl.
  + destruct Hrun as (_ & Hrows & _ & Hlog).
    rewrite (new_events_app _ _ _ Hlog). split; [reflexivity |].
    left. exists (SendResult.sent_at result). split; [reflexivity |].
    destruct (get_campaign_id _ _ _ Hget) as [Hid _].
    exists (Campaign.mark_sent (SendResult.sent_at result) c).
    split_and!; auto. rewrite Hrows, Hid. now apply get_campaign_update.
  + destruct Hrun as (Hrows & _ & Hlog).
    rewrite (new_events_app _ _ _ Hlog). split; [reflexivity |].
    right. exists e. split; [reflexivity | exact Hrows].
Qed.

(** ** The completion client *)

Lemma prefix_app p a b : PyStr.prefix p a = true -> PyStr.prefix p (a +:+ b) = true.
Proof.
revert a. induction p as [|c p IH]; intros a H; [reflexivity |].
destruct a as [|c' a]; [discriminate | simpl in *].
destruct (Ascii.eqb c c'); [now apply IH | discriminate].
Qed.

Lemma contains_app_l n a b :
  PyStr.contains n a = true -> PyStr.contains n (a +:+ b) = true.
Proof.
induction a as [|c a IH]; intros H.
- simpl in H. rewrite orb_false_r in H.
  destruct n; [| discriminate]. now destruct b.
- change (PyStr.prefix n (String c a) || PyStr.contains n a = true) in H.
  change (PyStr.prefix n (String c a +:+ b) || PyStr.contains n (a +:+ b) = true).
  apply orb_true_iff in H as [H|H]; apply orb_true_iff;
    [left; now apply prefix_app | right; now apply IH].
Qed.

Lemma contains_app_r n a b :
  PyStr.contains n b = true -> PyStr.contains n (a +:+ b) = true.
Proof.
intros H. induction a as [|c a IH]; [exact H |].
change (PyStr.prefix n (String c a +:+ b) || PyStr.contains n (a +:+ b) = true).
rewrite IH. apply orb_true_r.
Qed.

Lemma lower_app a b : PyStr.lower (a +:+ b) = PyStr.lower a +:+ PyStr.lower b.
Proof. induction a as [|c a IH]; simpl; [done | now rewrite IH]. Qed.

(** X11: the demonstration reply is chosen by the last message alone, read
    without regard to case.  With no message the lookup of the last one
    raises [IndexError]; otherwise the reply is the analysis document when the
    last message holds one of the two analysis markers, else the draft
    document when it holds the generation marker, else the generic
    sentence; it never carries tool calls. *)
Theorem mock_reply_reads_only_the_last_message :
  forall (earlier : list KimiAgent.Message.t) (last_message : KimiAgent.Message.t),
    KimiAgent._get_mock_response [] = Raise IndexError
    /\ KimiAgent._get_mock_response (earlier ++ [last_message])
       = KimiAgent._get_mock_response [last_message]
    /\ (forall other,
          PyStr.lower (KimiAgent.Message.content other)
            = PyStr.lower (KimiAgent.Message.content last_message) ->
          KimiAgent._get_mock_response (earlier ++ [other])
          = KimiAgent._get_mock_response [last_message])
    /\ exists completion,
         KimiAgent._get_mock_response (earlier ++ [last_message]) = Ok completion
         /\ KimiAgent.Completion.tool_calls completion = None
         /\ (KimiAgent.Completion.content completion = KimiAgent.mock_analysis
             \/ KimiAgent.Completion.content completion = KimiAgent.mock_email
             \/ KimiAgent.Completion.content completion = KimiAgent.mock_generic).
Proof.
intros earlier last_message. unfold KimiAgent._get_mock_response.
rewrite !last_snoc. simpl last. split_and!; try reflexivity.
- intros other H. now rewrite last_snoc, H.
- eexists. split; [reflexivity |]. split; [reflexivity |]. simpl.
  destruct (_ || _); [now left |].
  destruct (PyStr.contains _ _); [right; now left | right; now right].
Qed.

(** X12: with an empty key, or a key that holds [test-key], [_call_kimi]
    never reaches the client: it returns the demonstration reply and the
    list of calls is unchanged.  With any other key it calls the client
    exactly once, with the model of the agent and the messages, temperature
    and token limit it was given, sets [tool_choice] to [auto] exactly when
    tools were given, returns what the client returns and raises what the
    client raises. *)
Theorem call_kimi_reaches_the_client_only_with_a_real_key :
  forall (self : KimiAgent.t) (client : KimiAgent.Client)
         (messages : list KimiAgent.Message.t) (temperature : float)
         (max_tokens : Z) (tools : option (list Payload))
         (calls : list KimiAgent.Kwargs.t),
    let out := KimiAgent._call_kimi self client messages temperature
                 max_tokens tools calls in
    (KimiAgent.demo_key (KimiAgent.kimi_api_key self) = true ->
     out = (KimiAgent._get_mock_response messages, calls))
    /\ (KimiAgent.demo_key (KimiAgent.kimi_api_key self) = false ->
        exists kwargs,
          snd out = calls ++ [kwargs]
          /\ fst out = client (calls ++ [kwargs])
          /\ KimiAgent.Kwargs.model kwargs = KimiAgent.model self
          /\ KimiAgent.Kwargs.messages kwargs = messages
          /\ KimiAgent.Kwargs.temperature kwargs = temperature
          /\ KimiAgent.Kwargs.max_tokens kwargs = max_tokens
          /\ (KimiAgent.Kwargs.tool_choice kwargs = Some "auto"
              <-> exists tool rest, tools = Some (tool :: rest))
          /\ (KimiAgent.Kwargs.tool_choice kwargs = None
              <-> KimiAgent.Kwargs.tools kwargs = None)).
Proof.
intros self client messages temperature max_tokens tools calls out. subst out.
unfold KimiAgent._call_kimi.
destruct (KimiAgent.demo_key (KimiAgent.kimi_api_key self)); split;
  try discriminate; intros _; [reflexivity |].
unfold try_except, raise. eexists. 
destruct (client _) eqn:Hc; simpl; rewrite ?Hc;
  (split_and!; try reflexivity;
   destruct tools as [[|tool rest]|]; simpl; split; try done;
   try (intros (? & ? & ?); discriminate); eauto).
Qed.

Lemma analysis_prompt_marked lead_data_json :
  PyStr.contains "identify:"
    (PyStr.lower (KimiAgent.analysis_prompt lead_data_json)) = true.
Proof.
unfold KimiAgent.analysis_prompt. rewrite lower_app.
apply contains_app_l. vm_compute. reflexivity.
Qed.

Lemma generation_prompt_marked name company job_title analysis_json cc vp goal style :
  PyStr.contains "write a hyper-personalized cold outreach email"
    (PyStr.lower (KimiAgent.generation_prompt name company job_title
                    analysis_json cc vp goal style)) = true.
Proof.
unfold KimiAgent.generation_prompt. rewrite lower_app.
apply contains_app_l. vm_compute. reflexivity.
Qed.

Lemma generation_prompt_holds_the_context marker name company job_title
    analysis_json cc vp goal style :
  PyStr.contains marker (PyStr.lower cc) = true
  \/ PyStr.contains marker (PyStr.lower vp) = true ->
  PyStr.contains marker
    (PyStr.lower (KimiAgent.generation_prompt name company job_title
                    analysis_json cc vp goal style)) = true.
Proof.
unfold KimiAgent.generation_prompt. rewrite !lower_app. intros [H|H].
- do 9 apply contains_app_r. now apply contains_app_l.
- do 11 apply contains_app_r. now apply contains_app_l.
Qed.

(** X13: which demonstration reply each capability gets.  With a
    demonstration key the analysis request is answered with the analysis
    document for every lead, since the fixed text of its prompt holds a
    marker.  The generation request is answered with the draft document
    unless its prompt, read without regard to case, holds one of the two
    analysis markers; the prompt embeds the caller's texts, so a company
    context or a value proposition that holds [identify:] makes the
    generation request receive the analysis document.  Both documents are
    fenced, and the text extracted from each starts with a brace and holds no
    backquote. *)
Theorem demo_reply_is_chosen_by_markers_in_the_prompt :
  forall (self : KimiAgent.t) (client : KimiAgent.Client)
         (lead_data_json name company job_title analysis_json cc vp goal
            style : string)
         (temperature : float) (max_tokens : Z) (tools : option (list Payload))
         (calls : list KimiAgent.Kwargs.t),
    KimiAgent.demo_key (KimiAgent.kimi_api_key self) = true ->
    let ask system prompt :=
      KimiAgent._call_kimi self client (KimiAgent.messages_of system prompt)
        temperature max_tokens tools calls in
    let reply content :=
      (@Ok KimiAgent.Completion.t
         {| KimiAgent.Completion.content := content;
            KimiAgent.Completion.tool_calls := None;
            KimiAgent.Completion.usage :=
              Some {| KimiAgent.Usage.prompt_tokens := 100;
                      KimiAgent.Usage.completion_tokens := 150;
                      KimiAgent.Usage.total_tokens := 250 |} |}, calls) in
    let generation :=
      KimiAgent.generation_prompt name company job_title analysis_json cc vp
        goal style in
    ask KimiAgent.analysis_system (KimiAgent.analysis_prompt lead_data_json)
      = reply KimiAgent.mock_analysis
    /\ ask KimiAgent.generation_system generation
       = reply (if PyStr.contains "analyze this lead" (PyStr.lower generation)
                   || PyStr.contains "identify:" (PyStr.lower generation)
                then KimiAgent.mock_analysis else KimiAgent.mock_email)
    /\ (PyStr.contains "identify:" (PyStr.lower cc) = true
        \/ PyStr.contains "identify:" (PyStr.lower vp) = true ->
        ask KimiAgent.generation_system generation
          = reply KimiAgent.mock_analysis)
    /\ (exists document,
          fenced KimiAgent.mock_analysis = Ok document
          /\ PyStr.prefix "{" document = true
          /\ PyStr.contains "`" document = false)
    /\ (exists document,
          fenced KimiAgent.mock_email = Ok document
          /\ PyStr.prefix "{" document = true
          /\ PyStr.contains "`" document = false).
Proof.
intros self client lead_data_json name company job_title analysis_json cc vp
  goal style temperature max_tokens tools calls Hdemo ask reply generation.
assert (Hask : forall system prompt,
          ask system prompt
          = reply (if PyStr.contains "analyze this lead" (PyStr.lower prompt)
                      || PyStr.contains "identify:" (PyStr.lower prompt)
                   then KimiAgent.mock_analysis
                   else if PyStr.contains
                             "write a hyper-personalized cold outreach email"
                             (PyStr.lower prompt)
                        then KimiAgent.mock_email else KimiAgent.mock_generic)).
{ intros system prompt. subst ask reply. cbv beta.
  unfold KimiAgent._call_kimi. rewrite Hdemo. reflexivity. }
split_and!.
- rewrite Hask, analysis_prompt_marked, orb_true_r. reflexivity.
- rewrite Hask. subst generation. rewrite generation_prompt_marked. reflexivity.
- intros H. rewrite Hask. subst generation.
  rewrite (generation_prompt_holds_the_context "identify:" _ _ _ _ _ _ _ _ H).
  rewrite orb_true_r. reflexivity.
- eexists. vm_compute. split_and!; reflexivity.
- eexists. vm_compute. split_and!; reflexivity.
Qed.

Lemma fenced_json_total content : exists text, fenced_json content = Ok text.
Proof.
unfold fenced_json.
destruct (PyStr.contains "```json" content) eqn:H1; [| eauto].
unfold item, PyStr.split.
pose proof (split_go_two "```json" content [] ltac:(done) H1) as H.
destruct (PyStr.split_go "```json" 0 [] content) as [|a [|rest bs]];
  simpl in *; [lia | lia |].
pose proof (split_go_nonempty "```" rest 0 []) as H'.
destruct (PyStr.split_go "```" 0 [] rest) as [|b bs']; simpl in *; [lia | eauto].
Qed.

(** X14: [generate_ab_variants] turns a reply that cannot be decoded into
    the empty list.  When the original e-mail has its two keys and the
    completion call returns, the function returns: the extraction never
    raises, an undecodable text gives no variant, a decoded list is returned
    as it is and any other document is wrapped in a list of one.  A missing
    key of the original e-mail raises [KeyError] before any call is made, and
    an exception of the call is passed on. *)
Theorem ab_variants_fall_back_to_the_empty_list :
  forall (self : KimiAgent.t) (client : KimiAgent.Client)
         (original_email : Email.t) (lead_data : gmap string pyval)
         (num_variants : Z) (calls : list KimiAgent.Kwargs.t),
    let out := generate_ab_variants self client original_email lead_data
                 num_variants calls in
    match Email.subject_line original_email, Email.email_body original_email with
    | None, _ => out = (Raise (KeyError "subject_line"), calls)
    | Some _, None => out = (Raise (KeyError "email_body"), calls)
    | Some subject_line, Some email_body =>
        let messages :=
          KimiAgent.messages_of KimiAgent.variant_system
            (KimiAgent.variant_prompt (KimiAgent.format_int num_variants)
               subject_line email_body
               (KimiAgent.format_pyval (default PyNone (lead_data !! "name")))
               (KimiAgent.format_pyval (default PyNone (lead_data !! "company")))) in
        match KimiAgent._call_kimi self client messages 0.9%float 4000 None calls with
        | (Raise e, calls') => out = (Raise e, calls')
        | (Ok response, calls') =>
            exists text,
              fenced (KimiAgent.Completion.content response) = Ok text
              /\ out = (Ok match json_loads text with
                           | None => []
                           | Some variants =>
                               match as_list variants with
                               | Some items => items
                               | None => [variants]
                               end
                           end, calls')
        end
    end.
Proof.
intros self client original_email lead_data num_variants calls out. subst out.
unfold generate_ab_variants, bind, of_exc, getitem, ret.
destruct (Email.subject_line original_email) as [subject_line|]; [| reflexivity].
destruct (Email.email_body original_email) as [email_body|]; [| reflexivity].
cbv zeta.
destruct (KimiAgent._call_kimi _ _ _ _ _ _ _) as [[response|e] calls'];
  [| reflexivity].
destruct (fenced_total (KimiAgent.Completion.content response)) as [text Ht].
exists text. split; [exact Ht |]. rewrite Ht.
destruct (json_loads text); reflexivity.
Qed.

(** X15: [generate_follow_up] turns a reply that cannot be decoded into a
    reply to the original e-mail: the subject is [Re: ] followed by the
    original subject and the body is the raw reply.  It unwraps a block
    fenced with [```json] only: a reply without that fence is handed to the
    decoder as it is.  A missing key of the original e-mail raises [KeyError]
    before any call is made, and an exception of the call is passed on. *)
Theorem follow_up_falls_back_to_a_reply_to_the_original :
  forall (self : KimiAgent.t) (client : KimiAgent.Client)
         (original_email : Email.t) (days_since_sent : Z)
         (engagement_data : KimiAgent.Engagement.t) (sequence_number : Z)
         (calls : list KimiAgent.Kwargs.t),
    let out := generate_follow_up self client original_email days_since_sent
                 engagement_data sequence_number calls in
    match Email.subject_line original_email, Email.email_body original_email with
    | None, _ => out = (Raise (KeyError "subject_line"), calls)
    | Some _, None => out = (Raise (KeyError "email_body"), calls)
    | Some subject_line, Some email_body =>
        let messages :=
          KimiAgent.messages_of KimiAgent.followup_system
            (KimiAgent.followup_prompt (KimiAgent.format_int sequence_number)
               subject_line email_body (KimiAgent.format_int days_since_sent)
               (KimiAgent.format_bool
                  (default false (KimiAgent.Engagement.opened engagement_data)))
               (KimiAgent.format_bool
                  (default false (KimiAgent.Engagement.clicked engagement_data)))) in
        match KimiAgent._call_kimi self client messages 0.7%float 4000 None calls with
        | (Raise e, calls') => out = (Raise e, calls')
        | (Ok response, calls') =>
            let content := KimiAgent.Completion.content response in
            exists text,
              fenced_json content = Ok text
              /\ (PyStr.contains "```json" content = false -> text = content)
              /\ out = (Ok match json_loads text with
                           | Some document => Decoded document
                           | None => Fallback ("Re: " +:+ subject_line) content
                           end, calls')
        end
    end.
Proof.
intros self client original_email days_since_sent engagement_data
  sequence_number calls out. subst out.
unfold generate_follow_up, bind, of_exc, getitem, ret.
destruct (Email.subject_line original_email) as [subject_line|]; [| reflexivity].
destruct (Email.email_body original_email) as [email_body|]; [| reflexivity].
cbv zeta.
destruct (KimiAgent._call_kimi _ _ _ _ _ _ _) as [[response|e] calls'];
  [| reflexivity].
destruct (fenced_json_total (KimiAgent.Completion.content response)) as [text Ht].
exists text. split; [exact Ht |]. split.
- intros H. unfold fenced_json in Ht. rewrite H in Ht. congruence.
- rewrite Ht. destruct (json_loads text); reflexivity.
Qed.

(** ** The fenced block *)

Lemma split_go_skip sep s rest : forall cur,
  PyStr.split_go sep (String.length s) cur (s +:+ rest)
  = PyStr.split_go sep 0 cur rest.
Proof.
induction s as [|c s IH]; intros cur; [reflexivity |]. simpl. apply IH.
Qed.

Lemma prefix_refl_app p s : PyStr.prefix p (p +:+ s) = true.
Proof. induction p as [|c p IH]; simpl; [done |]. now rewrite Ascii.eqb_refl. Qed.

Lemma prefix_true_split p s :
  PyStr.prefix p s = true -> exists t, s = p +:+ t.
Proof.
revert s. induction p as [|c p IH]; intros s H; [now exists s |].
destruct s as [|a s]; [discriminate | simpl in H].
destruct (Ascii.eqb_spec c a) as [->|]; [| discriminate].
destruct (IH s H) as [t ->]. now exists t.
Qed.

Lemma contains_char c a t :
  PyStr.contains (String c EmptyString) (String a t)
  = Ascii.eqb c a || PyStr.contains (String c EmptyString) t.
Proof. simpl. now destruct (Ascii.eqb c a). Qed.

Lemma split_go_first c sep pre rest : forall cur,
  PyStr.contains (String c EmptyString) pre = false ->
  PyStr.split_go (String c sep) 0 cur (pre +:+ String c sep +:+ rest)
  = string_of_list_ascii (rev cur ++ list_ascii_of_string pre)
      :: PyStr.split_go (String c sep) 0 [] rest.
Proof.
induction pre as [|a pre IH]; intros cur Hfree.
- change (EmptyString +:+ String c sep +:+ rest) with (String c (sep +:+ rest)).
  cbn [PyStr.split_go].
  change (String c (sep +:+ rest)) with (String c sep +:+ rest).
  rewrite prefix_refl_app. rewrite app_nil_r. f_equal.
  replace (String.length (String c sep) - 1) with (String.length sep)
    by (simpl; lia).
  apply split_go_skip.
- rewrite contains_char in Hfree. apply orb_false_iff in Hfree as [Hc Hfree].
  change (String a pre +:+ String c sep +:+ rest)
    with (String a (pre +:+ String c sep +:+ rest)).
  cbn [PyStr.split_go PyStr.prefix]. rewrite Hc.
  rewrite IH by exact Hfree. simpl. now rewrite <- app_assoc.
Qed.

Lemma split_go_none sep s : forall cur,
  PyStr.contains sep s = false ->
  PyStr.split_go sep 0 cur s
  = [string_of_list_ascii (rev cur ++ list_ascii_of_string s)].
Proof.
induction s as [|a s IH]; intros cur H.
- simpl. now rewrite app_nil_r.
- change (PyStr.prefix sep (String a s) || PyStr.contains sep s = false) in H.
  apply orb_false_iff in H as [Hp Hc].
  cbn [PyStr.split_go]. rewrite Hp, IH by exact Hc. simpl.
  now rewrite <- app_assoc.
Qed.

Lemma free_contains c sep s :
  PyStr.contains (String c EmptyString) s = false ->
  PyStr.contains (String c sep) s = false.
Proof.
induction s as [|a s IH]; intros H; [reflexivity |].
rewrite contains_char in H. apply orb_false_iff in H as [Hc H].
change (PyStr.prefix (String c sep) (String a s)
        || PyStr.contains (String c sep) s = false).
rewrite (IH H). simpl. now rewrite Hc.
Qed.

Lemma free_contains_app c sep a b :
  PyStr.contains (String c EmptyString) a = false ->
  PyStr.contains (String c sep) (a +:+ b) = PyStr.contains (String c sep) b.
Proof.
induction a as [|x a IH]; intros H; [reflexivity |].
rewrite contains_char in H. apply orb_false_iff in H as [Hc H].
change (PyStr.prefix (String c sep) (String x (a +:+ b))
        || PyStr.contains (String c sep) (a +:+ b)
        = PyStr.contains (String c sep) b).
rewrite (IH H). simpl. now rewrite Hc.
Qed.

Lemma split_first_piece sep c s pre rest :
  sep = String c s ->
  PyStr.contains (String c EmptyString) pre = false ->
  PyStr.split sep (pre +:+ sep +:+ rest) = pre :: PyStr.split sep rest.
Proof.
intros -> Hfree. unfold PyStr.split. rewrite split_go_first by exact Hfree.
simpl. now rewrite string_of_list_ascii_of_string.
Qed.

Lemma split_no_piece sep s :
  PyStr.contains sep s = false -> PyStr.split sep s = [s].
Proof.
intros H. unfold PyStr.split. rewrite split_go_none by exact H.
simpl. now rewrite string_of_list_ascii_of_string.
Qed.

Lemma contains_prefix n s : PyStr.prefix n s = true -> PyStr.contains n s = true.
Proof. intros H. destruct s; simpl in *; now rewrite H. Qed.

Lemma free_prefix_false c sep s :
  PyStr.contains (String c EmptyString) s = false ->
  PyStr.prefix (String c sep) s = false.
Proof.
destruct s as [|a s]; [reflexivity |]. rewrite contains_char.
intros H. apply orb_false_iff in H as [H _]. simpl. now rewrite H.
Qed.

Lemma contains_cons n a t :
  PyStr.contains n (String a t)
  = PyStr.prefix n (String a t) || PyStr.contains n t.
Proof. reflexivity. Qed.

Lemma prefix_first_false c q a t :
  Ascii.eqb c a = false -> PyStr.prefix (String c q) (String a t) = false.
Proof. intros H. simpl. now rewrite H. Qed.

Lemma contains_fence b :
  PyStr.contains "```json" ("```" +:+ b)
  = PyStr.prefix "json" b
    || (PyStr.prefix "`json" b
        || (PyStr.prefix "``json" b || PyStr.contains "```json" b)).
Proof. reflexivity. Qed.

Lemma closing_fence_only post :
  PyStr.contains "`" post = false -> PyStr.prefix "json" post = false ->
  PyStr.contains "```json" ("```" +:+ post) = false.
Proof.
intros Hfree Hjson. rewrite contains_fence, Hjson.
rewrite !free_prefix_false by exact Hfree.
now rewrite free_contains by exact Hfree.
Qed.

Lemma prefix_app_cases p a x :
  PyStr.prefix p (a +:+ x) = true ->
  PyStr.prefix p a = true
  \/ exists c q, p = a +:+ String c q /\ PyStr.prefix (String c q) x = true.
Proof.
revert a. induction p as [|c p IH]; intros a H; [now left |].
destruct a as [|a0 a].
- right. exists c, p. split; [reflexivity | exact H].
- simpl in H. destruct (Ascii.eqb_spec c a0) as [->|]; [| discriminate].
  destruct (IH a H) as [Hl|(c' & q & -> & Hq)].
  + left. simpl. now rewrite Ascii.eqb_refl.
  + right. exists c', q. split; [reflexivity | exact Hq].
Qed.

Lemma opening_fence_only body post :
  PyStr.contains "`" body = false -> PyStr.contains "`" post = false ->
  PyStr.prefix "json" body = false -> PyStr.prefix "json" post = false ->
  PyStr.contains "```json" ("```" +:+ body +:+ "```" +:+ post) = false.
Proof.
intros Hbody Hpost Hjb Hjp. rewrite contains_fence.
assert (H1 : PyStr.prefix "json" (body +:+ "```" +:+ post) = false).
{ destruct (PyStr.prefix "json" (body +:+ "```" +:+ post)) eqn:E; [| done].
  apply prefix_app_cases in E as [E|(c & q & Hp & Hq)]; [congruence |].
  simpl in Hq. destruct (Ascii.eqb_spec c "`") as [->|]; [| discriminate].
  assert (Hin : PyStr.contains "`" "json" = true).
  { rewrite Hp. apply contains_app_r. now apply contains_prefix. }
  discriminate Hin. }
rewrite H1, orb_false_l.
destruct body as [|a body].
- replace (PyStr.prefix "`json" (EmptyString +:+ "```" +:+ post)) with false
    by reflexivity.
  replace (PyStr.prefix "``json" (EmptyString +:+ "```" +:+ post)) with false
    by reflexivity.
  rewrite !orb_false_l. now apply closing_fence_only.
- rewrite contains_char in Hbody. apply orb_false_iff in Hbody as [Ha Hbody].
  change (String a body +:+ "```" +:+ post)
    with (String a (body +:+ "```" +:+ post)).
  rewrite contains_cons, !(prefix_first_false _ _ _ _ Ha), !orb_false_l.
  rewrite free_contains_app by exact Hbody.
  now apply closing_fence_only.
Qed.

(** X16: the extraction of a fenced block gives back the block.  For a
    reply made of a text, a fence, a block, the closing fence and a text,
    none of the three holding a backquote, the extraction returns the block
    without its surrounding blanks: for the fence [```json] always, and for
    the plain fence provided neither the block nor the text after it starts
    with [json].  A reply without backquote is returned as it is, blanks
    included.  The extraction of [generate_follow_up] does not unwrap the
    plain fence: it returns such a reply whole. *)
Theorem fenced_block_round_trip :
  forall (pre body post : string),
    PyStr.contains "`" pre = false ->
    PyStr.contains "`" body = false ->
    PyStr.contains "`" post = false ->
    fenced (pre +:+ "```json" +:+ body +:+ "```" +:+ post)
      = Ok (PyStr.strip body)
    /\ fenced_json (pre +:+ "```json" +:+ body +:+ "```" +:+ post)
       = Ok (PyStr.strip body)
    /\ (PyStr.prefix "json" body = false -> PyStr.prefix "json" post = false ->
        fenced (pre +:+ "```" +:+ body +:+ "```" +:+ post)
          = Ok (PyStr.strip body)
        /\ fenced_json (pre +:+ "```" +:+ body +:+ "```" +:+ post)
           = Ok (pre +:+ "```" +:+ body +:+ "```" +:+ post))
    /\ fenced pre = Ok pre
    /\ fenced_json pre = Ok pre.
Proof.
intros pre body post Hpre Hbody Hpost.
assert (Hblock : forall rest,
          item (PyStr.split "```json" (pre +:+ "```json" +:+ rest)) 1
          = item (PyStr.split "```json" rest) 0).
{ intros rest. erewrite split_first_piece; [| reflexivity | exact Hpre].
  reflexivity. }
assert (Hplain : forall rest,
          item (PyStr.split "```" (pre +:+ "```" +:+ rest)) 1
          = item (PyStr.split "```" rest) 0).
{ intros rest. erewrite split_first_piece; [| reflexivity | exact Hpre].
  reflexivity. }
assert (Hbody0 : item (PyStr.split "```" body) 0 = Ok body).
{ rewrite split_no_piece; [reflexivity |]. now apply free_contains. }
assert (Hfirst : item (PyStr.split "```" (body +:+ "```" +:+ post)) 0 = Ok body).
{ erewrite split_first_piece; [| reflexivity | exact Hbody]. reflexivity. }
assert (Hjson : item (PyStr.split "```json" (body +:+ "```" +:+ post)) 0
                = Ok body
                \/ item (PyStr.split "```json" (body +:+ "```" +:+ post)) 0
                   = Ok (body +:+ "```" +:+ post)).
{ destruct (PyStr.prefix "json" post) eqn:Hj.
  - left. apply prefix_true_split in Hj as [post' ->].
    change ("```" +:+ "json" +:+ post') with ("```json" +:+ post').
    erewrite split_first_piece; [| reflexivity | exact Hbody]. reflexivity.
  - right. rewrite split_no_piece; [reflexivity |].
    rewrite free_contains_app by exact Hbody.
    now apply closing_fence_only. }
assert (Hin : PyStr.contains "```json"
                (pre +:+ "```json" +:+ body +:+ "```" +:+ post) = true).
{ apply contains_app_r, contains_prefix, prefix_refl_app. }
split_and!.
- unfold fenced. rewrite Hin.
  rewrite (Hblock (body +:+ "```" +:+ post)).
  destruct Hjson as [E|E]; rewrite E; [now rewrite Hbody0 | now rewrite Hfirst].
- unfold fenced_json. rewrite Hin.
  rewrite (Hblock (body +:+ "```" +:+ post)).
  destruct Hjson as [E|E]; rewrite E; [now rewrite Hbody0 | now rewrite Hfirst].
- intros Hjb Hjp.
  assert (Hno : PyStr.contains "```json"
                  (pre +:+ "```" +:+ body +:+ "```" +:+ post) = false).
  { rewrite free_contains_app by exact Hpre. now apply opening_fence_only. }
  split.
  + unfold fenced. rewrite Hno.
    replace (PyStr.contains "```" (pre +:+ "```" +:+ body +:+ "```" +:+ post))
      with true
      by (symmetry; apply contains_app_r, contains_prefix, prefix_refl_app).
    rewrite (Hplain (body +:+ "```" +:+ post)).
    now rewrite Hfirst, Hbody0.
  + unfold fenced_json. now rewrite Hno.
- unfold fenced. now rewrite !free_contains by exact Hpre.
- unfold fenced_json. now rewrite free_contains by exact Hpre.
Qed.

(** ** Progress of the limiter *)

Lemma count_insert (p : Task -> bool) (ts : list Task) i t t' :
  ts !! i = Some t ->
  length (List.filter p (<[i := t']> ts)) + (if p t then 1 else 0)
  = length (List.filter p ts) + (if p t' then 1 else 0).
Proof.
revert i. induction ts as [|a ts IH]; intros [|i] H; simpl in *; try done.
- injection H as ->. destruct (p t), (p t'); simpl; lia.
- specialize (IH i H). destruct (p a); simpl; lia.
Qed.

Lemma count_positive (p : Task -> bool) (ts : list Task) :
  0 < length (List.filter p ts) -> exists i t, ts !! i = Some t /\ p t = true.
Proof.
induction ts as [|a ts IH]; simpl; [lia |].
destruct (p a) eqn:Ha.
- intros _. now exists 0, a.
- intros H. destruct (IH H) as (i & t & Hi & Ht). now exists (S i), t.
Qed.

Lemma count_zero_completed (ts : list Task) :
  length (List.filter is_unfinished ts) = 0 ->
  Forall (fun t => is_Some (outcome_of t)) ts.
Proof.
induction ts as [|a ts IH]; simpl; [constructor |].
destruct a; simpl; try lia. intros H. constructor; [eauto | auto].
Qed.

Lemma limiter_finishes self cc vp auto_send max_concurrent n : forall s,
  length (List.filter is_unfinished (tasks s)) = n ->
  permits s + in_flight s = max_concurrent ->
  0 < max_concurrent ->
  exists s', rtc (limiter_step self cc vp auto_send) s s' /\ completed s'.
Proof.
induction n as [|n IH]; intros s Hn Hinv Hpos.
- exists s. split; [apply rtc_refl | now apply count_zero_completed].
- assert (Hrelease : forall s1 i lead,
            tasks s1 !! i = Some (InFlight lead) ->
            length (List.filter is_unfinished (tasks s1)) = S n ->
            permits s1 + in_flight s1 = max_concurrent ->
            exists s', rtc (limiter_step self cc vp auto_send) s1 s'
                       /\ completed s').
  { intros s1 i lead Hi Hn1 Hinv1.
    pose proof (step_release self cc vp auto_send s1 i lead Hi) as Hstep.
    destruct (limiter_step_counts _ _ _ _ _ _ Hstep) as [Hc _].
    match type of Hstep with
    | limiter_step _ _ _ _ _ ?s2 =>
        destruct (IH s2) as (s' & Hrtc & Hdone); [| lia | exact Hpos |]
    end.
    - simpl.
      pose proof (count_insert is_unfinished (tasks s1) i _
                    (Finished (fst (process_lead self lead cc vp auto_send
                                      (world s1)))) Hi) as Hcount.
      simpl in Hcount. lia.
    - exists s'. split; [| exact Hdone]. eapply rtc_l; eauto. }
  destruct (Nat.eq_dec (in_flight s) 0) as [Hnone|Hsome].
  + destruct (count_positive is_unfinished (tasks s)) as (i & t & Hi & Ht);
      [lia |].
    destruct t as [lead|lead|r]; [| | discriminate Ht].
    * destruct (permits s) as [|k] eqn:Hp; [lia |].
      pose proof (step_acquire self cc vp auto_send s i lead k Hi Hp) as Hstep.
      destruct (limiter_step_counts _ _ _ _ _ _ Hstep) as [Hc _].
      match type of Hstep with
      | limiter_step _ _ _ _ _ ?s2 =>
          destruct (Hrelease s2 i lead) as (s' & Hrtc & Hdone)
      end.
      -- simpl. apply list_lookup_insert_eq. eapply lookup_lt_Some; eauto.
      -- simpl.
         pose proof (count_insert is_unfinished (tasks s) i _ (InFlight lead) Hi)
           as Hcount.
         simpl in Hcount. lia.
      -- lia.
      -- exists s'. split; [| exact Hdone]. eapply rtc_l; eauto.
    * now apply (Hrelease s i lead).
  + destruct (count_positive is_in_flight (tasks s)) as (i & t & Hi & Ht);
      [unfold in_flight in Hsome; lia |].
    destruct t as [lead|lead|r]; try discriminate Ht.
    now apply (Hrelease s i lead).
Qed.

(** X27: with a positive limit the limiter never blocks a batch, and with
    the limit 0 it blocks every batch that has a record.  From every state a
    batch can reach under a positive limit, the tasks can still all end, each
    with an outcome; under the limit 0 no task ever starts, so a batch with at
    least one record never completes. *)
Theorem limiter_lets_every_batch_finish :
  forall (self : Orchestrator.t) (cc vp : string) (auto_send : bool)
         (max_concurrent : nat) (leads : list Lead.t) (w : World) (s : Limiter),
    reachable self cc vp auto_send max_concurrent leads w s ->
    (0 < max_concurrent ->
     exists s',
       rtc (limiter_step self cc vp auto_send) s s'
       /\ reachable self cc vp auto_send max_concurrent leads w s'
       /\ completed s'
       /\ length (outcomes s') = length leads)
    /\ (max_concurrent = 0 ->
        s = limiter_start 0 leads w /\ (leads <> [] -> ~ completed s)).
Proof.
intros self cc vp auto_send max_concurrent leads w s Hreach. split.
- intros Hpos.
  destruct (limiter_invariant _ _ _ _ _ _ _ _ Hreach) as [Hinv _].
  destruct (limiter_finishes self cc vp auto_send max_concurrent _ s eq_refl
              Hinv Hpos) as (s' & Hrtc & Hdone).
  assert (Hreach' : reachable self cc vp auto_send max_concurrent leads w s')
    by (unfold reachable in *; etransitivity; eauto).
  exists s'. split_and!; auto.
  now destruct (schedule_outcomes _ _ _ _ _ _ _ _ Hreach' Hdone) as (_ & H & _).
- intros ->.
  assert (Hstart : s = limiter_start 0 leads w).
  { unfold reachable in Hreach.
    apply rtc_ind_r with (P := fun s => s = limiter_start 0 leads w) in Hreach;
      [exact Hreach | reflexivity |].
    intros s1 s2 _ Hstep ->. exfalso.
    inversion Hstep as [s0 i lead n Hi Hp|s0 i lead Hi]; subst; simpl in *;
      [discriminate Hp |].
    apply list_lookup_fmap_Some in Hi as (l & Hl & _). discriminate Hl. }
  split; [exact Hstart |]. subst s. intros Hne Hdone.
  destruct leads as [|lead rest]; [done |].
  unfold completed in Hdone. simpl in Hdone.
  apply Forall_cons in Hdone as [[r Hr] _]. discriminate Hr.
Qed.

(** ** The rows that a batch leaves behind *)

Lemma outcomes_acquire (ts : list Task) i lead :
  ts !! i = Some (Waiting lead) ->
  omap outcome_of (<[i := InFlight lead]> ts) = omap outcome_of ts.
Proof.
revert i. induction ts as [|t ts IH]; intros [|i] H; simpl in *; try done.
- now injection H as ->.
- fold (omap outcome_of (<[i:=InFlight lead]> ts)).
  fold (omap outcome_of ts). now rewrite (IH i H).
Qed.

Lemma outcomes_release (ts : list Task) i lead r :
  ts !! i = Some (InFlight lead) ->
  omap outcome_of (<[i := Finished r]> ts) ≡ₚ r :: omap outcome_of ts.
Proof.
revert i. induction ts as [|t ts IH]; intros [|i] H; simpl in *; try done.
- now injection H as ->.
- fold (omap outcome_of (<[i:=Finished r]> ts)).
  fold (omap outcome_of ts).
  destruct (outcome_of t) as [r'|]; [| now apply IH].
  rewrite (IH i H). apply Permutation_swap.
Qed.

Lemma batch_rows_reachable self cc vp auto_send max_concurrent ls w s :
  reachable self cc vp auto_send max_concurrent ls w s ->
  map Lead.id (leads (world s)) = map Lead.id (leads w)
  /\ exists new, batch_rows w s new.
Proof.
unfold reachable. intros H.
apply rtc_ind_r with
  (P := fun s => map Lead.id (leads (world s)) = map Lead.id (leads w)
                 /\ exists new, batch_rows w s new) in H.
- exact H.
- split; [done |]. exists []. unfold batch_rows, outcomes. simpl.
  rewrite app_nil_r.
  assert (omap outcome_of (map Waiting ls) = []) as ->
    by (clear; induction ls; simpl; auto).
  split_and!; try done; constructor.
- intros s1 s2 _ Hstep (Hkeys & new & Hrows & Hsub & Hall & Hlen & Hnd & Habove).
  destruct Hstep as [s1 i lead n Hi Hp|s1 i lead Hi]; simpl.
  + split; [exact Hkeys |]. exists new. unfold batch_rows, outcomes in *. simpl.
    rewrite (outcomes_acquire _ _ _ Hi). by split_and!.
  + pose proof (process_lead_rows self lead cc vp auto_send (world s1))
      as (Hleads & _ & Hrun).
    pose proof (process_lead_lead_id self lead cc vp auto_send (world s1)) as Hlid.
    cbv zeta in Hleads, Hrun.
    destruct (process_lead self lead cc vp auto_send (world s1)) as [r w1].
    simpl in *.
    split; [rewrite (lead_written_keys _ _ _ Hleads); exact Hkeys |].
    pose proof (outcomes_release _ _ _ r Hi) as Hperm.
    assert (Hin : forall r', r' ∈ omap outcome_of (tasks s1) ->
                             r' ∈ omap outcome_of (<[i:=Finished r]> (tasks s1))).
    { intros r' Hr'. rewrite Hperm. now right. }
    assert (Hnew : r ∈ omap outcome_of (<[i:=Finished r]> (tasks s1)))
      by (rewrite Hperm; left).
    assert (Hold : Forall
              (fun c => exists r0,
                 r0 ∈ omap outcome_of (<[i:=Finished r]> (tasks s1))
                 /\ Campaign.lead_id c = Result.lead_id r0
                 /\ (Result.campaign_id r0 = Some (Campaign.id c)
                     \/ (Result.campaign_id r0 = None
                         /\ Result.status r0 = "error"))) new).
    { eapply Forall_impl; [exact Hall |].
      intros c (r0 & Hr0 & Hrest). exists r0. split; [now apply Hin | exact Hrest]. }
    assert (Hfresh : forall c, Campaign.id c = fresh_id (campaigns (world s1)) ->
                               NoDup (map Campaign.id (new ++ [c]))
                               /\ forall c', c' ∈ campaigns w ->
                                             (Campaign.id c' < Campaign.id c)%Z).
    { intros c Hid. split.
      - rewrite map_app. apply NoDup_app. split; [exact Hnd |].
        split; [| apply NoDup_singleton].
        intros k Hk Hk'. apply list_elem_of_singleton in Hk'. simpl in Hk'. subst k.
        apply list_elem_of_fmap in Hk as (c' & Hc' & Hc'in).
        pose proof (fresh_id_above (campaigns (world s1)) c') as Hab.
        rewrite Hrows in Hab at 1.
        specialize (Hab ltac:(apply elem_of_app; now right)). lia.
      - intros c' Hc'.
        pose proof (fresh_id_above (campaigns (world s1)) c') as Hab.
        rewrite Hrows in Hab at 1.
        specialize (Hab ltac:(apply elem_of_app; now left)). lia. }
    unfold batch_rows, outcomes in *. simpl.
    destruct (Result.campaign_id r) as [cid|] eqn:Hcid.
    * destruct Hrun as (-> & c & Hrun & Hid & Hlead).
      destruct (Hfresh c Hid) as [Hnd' Hab'].
      exists (new ++ [c]). rewrite Hrun, Hrows, <- app_assoc.
      split; [done |]. split.
      { rewrite Hperm. simpl. unfold named_campaign at 1. rewrite Hcid. simpl.
        rewrite map_app. simpl.
        etransitivity; [| apply Permutation_submseteq, Permutation_cons_append].
        replace (campaign_key c)
          with (fresh_id (campaigns (world s1)), Result.lead_id r)
          by (unfold campaign_key; now rewrite Hid, Hlead, Hlid).
        now apply submseteq_skip. }
      split.
      { apply Forall_app. split; [exact Hold |]. constructor; [| constructor].
        exists r. split; [exact Hnew |]. split; [congruence |]. left. congruence. }
      split.
      { rewrite length_app, Hperm. simpl. lia. }
      split; [exact Hnd' |].
      apply Forall_app. split; [exact Habove |]. constructor; [exact Hab' | constructor].
    * assert (Hsub' : omap named_campaign
                        (omap outcome_of (<[i:=Finished r]> (tasks s1)))
                      ⊆+ map campaign_key new).
      { rewrite Hperm. simpl. unfold named_campaign at 1. rewrite Hcid. simpl.
        exact Hsub. }
      destruct Hrun as [Hrun|(Herr & c & Hrun & Hid & Hlead & _)].
      -- exists new. rewrite Hrun.
         split_and!; try done. rewrite Hperm. simpl. lia.
      -- destruct (Hfresh c Hid) as [Hnd' Hab'].
         exists (new ++ [c]). rewrite Hrun, Hrows, <- app_assoc.
         split; [done |]. split.
         { rewrite map_app. now apply submseteq_inserts_r. }
         split.
         { apply Forall_app. split; [exact Hold |]. constructor; [| constructor].
           exists r. split; [exact Hnew |]. split; [congruence |]. right. done. }
         split.
         { rewrite length_app, Hperm. simpl. lia. }
         split; [exact Hnd' |].
         apply Forall_app. split; [exact Habove |].
         constructor; [exact Hab' | constructor].
Qed.

(** X6: the rows that a batch leaves behind, whatever the order in which
    its tasks run.  In every state that a batch can reach, the rows that
    were there before are in place and unchanged, and the leads table has
    the rows it had, under the same keys.  Every outcome that carries a
    [campaign_id] has its row, stored under that key for the lead of the
    outcome, and no two outcomes carry the same [campaign_id].  Every row
    added belongs to an outcome: the one that carries its key, or an outcome
    [error] without [campaign_id] (the refresh raised after the commit); so
    there are at most as many new rows as outcomes.  The new keys are
    distinct and larger than the keys that were in use.  Nothing is said of
    the order of the new rows: it need not be the order of the outcomes. *)
Theorem batch_adds_one_row_per_campaign_id :
  forall (self : Orchestrator.t) (cc vp : string) (auto_send : bool)
         (max_concurrent : nat) (ls : list Lead.t) (w : World) (s : Limiter),
    reachable self cc vp auto_send max_concurrent ls w s ->
    map Lead.id (leads (world s)) = map Lead.id (leads w)
    /\ exists new,
         campaigns (world s) = campaigns w ++ new
         /\ (forall r cid,
               r ∈ outcomes s -> Result.campaign_id r = Some cid ->
               exists c, c ∈ new /\ Campaign.id c = cid
                         /\ Campaign.lead_id c = Result.lead_id r)
         /\ NoDup (omap Result.campaign_id (outcomes s))
         /\ (forall c,
               c ∈ new ->
               exists r, r ∈ outcomes s
                         /\ Campaign.lead_id c = Result.lead_id r
                         /\ (Result.campaign_id r = Some (Campaign.id c)
                             \/ (Result.campaign_id r = None
                                 /\ Result.status r = "error")))
         /\ length new <= length (outcomes s)
         /\ NoDup (map Campaign.id new)
         /\ (forall c c', c ∈ new -> c' ∈ campaigns w ->
                          (Campaign.id c' < Campaign.id c)%Z).
Proof.
intros self cc vp auto_send max_concurrent ls w s Hreach.
destruct (batch_rows_reachable _ _ _ _ _ _ _ _ Hreach)
  as (Hkeys & new & Hrows & Hsub & Hall & Hlen & Hnd & Habove).
split; [exact Hkeys |]. exists new.
split; [exact Hrows |]. split.
{ intros r cid Hr Hcid.
  assert (Hin : (cid, Result.lead_id r) ∈ omap named_campaign (outcomes s)).
  { apply list_elem_of_omap. exists r. split; [exact Hr |].
    unfold named_campaign. now rewrite Hcid. }
  apply (elem_of_submseteq _ _ _ Hin) in Hsub.
  apply list_elem_of_fmap in Hsub as (c & Hc & Hcin).
  injection Hc as Hc1 Hc2. exists c. split_and!; done. }
split.
{ apply (fmap_submseteq fst) in Hsub.
  apply submseteq_Permutation in Hsub as (k & Hk).
  assert (Hfst : fst <$> map campaign_key new = map Campaign.id new).
  { clear. induction new as [|c new IH]; simpl; [done | now rewrite <- IH]. }
  assert (Hids : fst <$> omap named_campaign (outcomes s)
                 = omap Result.campaign_id (outcomes s)).
  { clear. induction (outcomes s) as [|r rs IH]; [done |].
    cbn. unfold named_campaign at 1.
    destruct (Result.campaign_id r) as [cid|]; cbn; [f_equal |]; exact IH. }
  rewrite Hfst, Hids in Hk. rewrite Hk in Hnd.
  now apply NoDup_app in Hnd as [Hnd _]. }
split.
{ intros c Hc. rewrite Forall_forall in Hall. now apply Hall. }
split; [exact Hlen |]. split; [exact Hnd |].
intros c c' Hc Hc'. rewrite Forall_forall in Habove. now apply Habove.
Qed.

End Pipeline.


(** ** The scrapers *)

Section Scrapers.
Import Web.
Local Open Scope web_scope.

Variable net : Net.
Variable html : Html.

Lemma for_each_done {S A B} (f : A -> W S B) (g : A -> B) (l : list A) (s : S) :
  (forall x s, f x s = (Done (g x), s)) ->
  for_each f l s = (Done (map g l), s).
Proof.
intros Hf. induction l as [|x l IH]; [reflexivity |].
simpl. unfold bind. now rewrite Hf, IH.
Qed.

Lemma hiring_signals_are_always_empty_aux company_name history :
  CompanyIntelligence.check_hiring_signals net html company_name history
  = (Done {| CompanyIntelligence.HiringSignals.is_hiring := false;
             CompanyIntelligence.HiringSignals.open_positions := 0;
             CompanyIntelligence.HiringSignals.recent_postings := [] |},
     history ++ [GET ("https://www.linkedin.com/jobs/search/?keywords="
                      +:+ company_name) []]).
Proof.
unfold CompanyIntelligence.check_hiring_signals, try_except, bind,
  CompanyIntelligence.request.
destruct (send net _); reflexivity.
Qed.

(** X17: [check_hiring_signals] never reports a hiring company.  The module
    does not bind the name [re], so building the first pattern raises
    [NameError] once the page has been fetched; the handler answers that the
    company is not hiring, with no open position and no posting, whatever the
    page holds.  One request is made and nothing is raised. *)
Theorem hiring_signals_are_always_empty :
  forall (company_name : string) (history : list Request),
    CompanyIntelligence.check_hiring_signals net html company_name history
    = (Done {| CompanyIntelligence.HiringSignals.is_hiring := false;
               CompanyIntelligence.HiringSignals.open_positions := 0;
               CompanyIntelligence.HiringSignals.recent_postings := [] |},
       history ++ [GET ("https://www.linkedin.com/jobs/search/?keywords="
                        +:+ company_name) []]).
Proof. exact hiring_signals_are_always_empty_aux. Qed.

Lemma try_except_done {S A} (c : W S A) (h : error -> W S A) (s : S) :
  (forall e s1, exists a s2, h e s1 = (Done a, s2)) ->
  exists a s', try_except c h s = (Done a, s').
Proof.
intros Hh. unfold try_except. destruct (c s) as [[a|e] s1]; eauto.
Qed.

Lemma google_news_never_raises company_name days_back max_articles history :
  exists articles history',
    CompanyIntelligence._scrape_google_news net html company_name days_back
      max_articles history = (Done articles, history').
Proof. apply try_except_done. intros e s1. now eexists _, _. Qed.

Lemma company_news_never_raises self company_name days_back max_articles history :
  exists articles history',
    CompanyIntelligence.get_company_news net html self company_name days_back
      max_articles history = (Done articles, history').
Proof.
unfold CompanyIntelligence.get_company_news.
destruct (negb _); [apply google_news_never_raises |].
apply try_except_done. intros e s1. now eexists _, _.
Qed.

Lemma funding_info_never_raises self company_name history :
  exists info history',
    CompanyIntelligence.get_funding_info net html self company_name history
    = (Done info, history').
Proof. apply try_except_done. intros e s1. now eexists _, _. Qed.

Lemma website_content_never_raises website_url history :
  exists content history',
    CompanyIntelligence.get_company_website_content net html website_url history
    = (Done content, history').
Proof. apply try_except_done. intros e s1. now eexists _, _. Qed.

(** X18: [enrich_company_data] never raises, and its trigger score never
    counts hiring.  Every task of the gather catches its own exceptions, so
    the substitutes for failed tasks are never used; the hiring signals are
    always the empty ones, so the 0.3 for more than five open positions is
    never added: the score is 0.4 for a funding announcement plus 0.2 for
    more than five news articles, 0.6000000000000001 at most.  The key
    [website_data] is set exactly when a website was given. *)
Theorem trigger_score_never_counts_hiring :
  forall (self : CompanyIntelligence.t) (company_name : string)
         (website : option string) (history : list Request),
    exists data history',
      CompanyIntelligence.enrich_company_data net html self company_name website
        history = (Done data, history')
      /\ CompanyIntelligence.CompanyData.company_name data = company_name
      /\ CompanyIntelligence.CompanyData.website data = website
      /\ CompanyIntelligence.CompanyData.hiring_signals data
         = Some {| CompanyIntelligence.HiringSignals.is_hiring := false;
                   CompanyIntelligence.HiringSignals.open_positions := 0;
                   CompanyIntelligence.HiringSignals.recent_postings := [] |}
      /\ CompanyIntelligence.CompanyData.trigger_score data
         = match CompanyIntelligence.CompanyData.funding_info data,
                 (5 <? length (CompanyIntelligence.CompanyData.recent_news data))%nat
           with
           | Some _, true => (0.4 + 0.2)%float
           | Some _, false => 0.4%float
           | None, true => 0.2%float
           | None, false => 0%float
           end
      /\ (is_Some (CompanyIntelligence.CompanyData.website_data data)
          <-> truthy website = true)
      /\ CompanyIntelligence.CompanyData.website_data data <> Some None
      /\ (forall content,
            CompanyIntelligence.CompanyData.website_data data
              = Some (Some content) ->
            exists url, website = Some url
              /\ match content with
                 | CompanyIntelligence.Scraped u _ _ _ _ => u = url
                 | CompanyIntelligence.NotScraped u _ => u = url
                 end).
Proof.
intros self company_name website history.
unfold CompanyIntelligence.enrich_company_data, bind, captured.
destruct (company_news_never_raises self company_name 30 10 history)
  as (news & h1 & ->).
rewrite hiring_signals_are_always_empty_aux.
destruct (funding_info_never_raises self company_name
            (h1 ++ [GET ("https://www.linkedin.com/jobs/search/?keywords="
                         +:+ company_name) []]))
  as (funding & h2 & ->).
destruct (truthy website) eqn:Hw.
- destruct website as [url|]; [| discriminate Hw]. simpl default.
  unfold bind, captured, ret.
  pose proof (website_content_never_raises url h2) as (content & h3 & Hc).
  rewrite Hc. cbn [CompanyIntelligence.utcnow CompanyIntelligence.result_or].
  eexists _, _. split; [reflexivity |]. cbn.
  split_and!; try reflexivity.
  + destruct funding, (5 <? length news)%nat; reflexivity.
  + split; [reflexivity | eauto].
  + discriminate.
  + intros c E. injection E as <-.
    exists url. split; [reflexivity |].
    unfold CompanyIntelligence.get_company_website_content, try_except, bind,
      CompanyIntelligence.request, CompanyIntelligence.utcnow, ret in Hc.
    destruct (send net _); injection Hc as <- _; reflexivity.
- unfold ret. cbn [CompanyIntelligence.utcnow CompanyIntelligence.result_or].
  eexists _, _. split; [reflexivity |]. cbn.
  split_and!; try reflexivity.
  + destruct funding, (5 <? length news)%nat; reflexivity.
  + split; [intros [? ?]; discriminate | discriminate].
  + discriminate.
  + discriminate.
Qed.

Lemma for_each_of_try {S A B} (g : A -> Try B) (l : list A) (s : S) :
  match for_each (fun x => of_try (g x)) l s with
  | (Done ys, s') => s' = s /\ Forall2 (fun x y => g x = Done y) l ys
  | (Failed e, s') => s' = s /\ exists x, x ∈ l /\ g x = Failed e
  end.
Proof.
induction l as [|x l IH]; simpl; [by split |].
unfold bind, of_try at 1. destruct (g x) as [y|e] eqn:Hx.
- destruct (for_each _ l s) as [[ys|e] s'].
  + destruct IH as [-> IH]. simpl. split; [done |]. now constructor.
  + destruct IH as [-> (x' & Hin & Hx')]. split; [done |].
    exists x'. split; [now right | done].
- split; [done |]. exists x. split; [now left | done].
Qed.

Lemma null_content_fails members :
  lookup "content" members = Some JNull ->
  exists e, CompanyIntelligence.article_entry (JObject members) = Failed e.
Proof.
intros H. unfold CompanyIntelligence.article_entry, subscript, get_method.
rewrite H. simpl slice_to.
destruct (lookup "title" members); [| eauto].
destruct (lookup "url" members); [| eauto].
destruct (lookup "source" members) as [source|]; [| eauto].
destruct source as [| | | | | |source_members]; eauto.
destruct (lookup "name" source_members); [| eauto].
destruct (lookup "publishedAt" members); eauto.
Qed.

(** X19: with a NewsAPI key, [get_company_news] returns all the articles of
    the reply or none, and never raises.  When the date cannot be computed
    it makes no request and returns the empty list.  Otherwise it makes the
    one request; when the request, the status check, the decoding, the
    lookup of [articles] or its iteration fails, it returns the empty list;
    when they all succeed it returns one entry for each article of the
    reply, in order, unless an entry cannot be built, in which case the list
    is empty: the entries already built are dropped.  An article whose
    [content] is null is such an article. *)
Theorem company_news_is_all_or_nothing :
  forall (self : CompanyIntelligence.t) (company_name : string)
         (days_back max_articles : Z) (history : list Request),
    truthy (CompanyIntelligence.newsapi_key self) = true ->
    exists articles history',
      CompanyIntelligence.get_company_news net html self company_name days_back
        max_articles history = (Done articles, history')
      /\ match date_days_back net days_back history with
         | Failed _ => history' = history /\ articles = []
         | Done from_date =>
             history'
             = history
               ++ [GET "https://newsapi.org/v2/everything"
                     [("q", double_quote +:+ company_name +:+ double_quote);
                      ("from", from_date);
                      ("sortBy", "publishedAt");
                      ("language", "en");
                      ("pageSize", KimiAgent.format_int max_articles);
                      ("apiKey",
                        default EmptyString
                          (CompanyIntelligence.newsapi_key self))]]
             /\ match send net history' with
                | Failed _ => articles = []
                | Done response =>
                  match raise_for_status response with
                  | Failed _ => articles = []
                  | Done _ =>
                    match json_body response with
                    | Failed _ => articles = []
                    | Done data =>
                      match get_method data "articles" (JArray []) with
                      | Failed _ => articles = []
                      | Done listed =>
                        match iterate listed with
                        | Failed _ => articles = []
                        | Done items =>
                            Forall2
                              (fun item entry =>
                                 CompanyIntelligence.article_entry item
                                 = Done entry)
                              items articles
                            \/ (articles = []
                                /\ exists item e,
                                     item ∈ items
                                     /\ CompanyIntelligence.article_entry item
                                        = Failed e)
                        end
                      end
                    end
                  end
                end
         end
      /\ (forall members,
            lookup "content" members = Some JNull ->
            exists e,
              CompanyIntelligence.article_entry (JObject members) = Failed e).
Proof.
intros self company_name days_back max_articles history Hkey.
unfold CompanyIntelligence.get_company_news. rewrite Hkey.
change (negb true) with false. cbv iota.
unfold try_except, CompanyIntelligence.fetch_news, bind,
  CompanyIntelligence.from_date, CompanyIntelligence.request.
destruct (date_days_back net days_back history) as [from_date|e].
2: { exists [], history. split; [reflexivity |].
     split; [by split | apply null_content_fails]. }
match goal with
| |- context [send net ?h] => set (h1 := h)
end.
destruct (send net h1) as [response|e] eqn:Hsend.
2: { exists [], h1. split; [reflexivity |].
     split; [split; [reflexivity |]; now rewrite Hsend
            | apply null_content_fails]. }
unfold of_try at 1.
destruct (raise_for_status response) as [[]|e] eqn:Hstatus.
2: { exists [], h1. split; [reflexivity |].
     split; [split; [reflexivity |]; now rewrite Hsend, Hstatus
            | apply null_content_fails]. }
unfold of_try at 1.
destruct (json_body response) as [data|e] eqn:Hdata.
2: { exists [], h1. split; [reflexivity |].
     split; [split; [reflexivity |]; now rewrite Hsend, Hstatus, Hdata
            | apply null_content_fails]. }
unfold of_try at 1.
destruct (get_method data "articles" (JArray [])) as [listed|e] eqn:Hlisted.
2: { exists [], h1. split; [reflexivity |].
     split; [split; [reflexivity |];
             now rewrite Hsend, Hstatus, Hdata, Hlisted
            | apply null_content_fails]. }
unfold of_try at 1.
destruct (iterate listed) as [items|e] eqn:Hitems.
2: { exists [], h1. split; [reflexivity |].
     split; [split; [reflexivity |];
             now rewrite Hsend, Hstatus, Hdata, Hlisted, Hitems
            | apply null_content_fails]. }
pose proof (for_each_of_try CompanyIntelligence.article_entry items h1) as Hfor.
destruct (for_each _ items h1) as [[entries|e] h2]; destruct Hfor as [-> Hfor].
- exists entries, h1. split; [reflexivity |].
  split; [| apply null_content_fails].
  split; [reflexivity |].
  rewrite Hsend, Hstatus, Hdata, Hlisted, Hitems. now left.
- exists [], h1. split; [reflexivity |].
  split; [| apply null_content_fails].
  split; [reflexivity |].
  rewrite Hsend, Hstatus, Hdata, Hlisted, Hitems. right.
  split; [reflexivity |]. destruct Hfor as (x & Hin & Hx). eauto.
Qed.

Lemma slice_list_length {A} (limit : Z) (l : list A) :
  (0 <= limit)%Z ->
  length (slice_list limit l) = Nat.min (Z.to_nat limit) (length l).
Proof.
intros H. unfold slice_list.
destruct (Z.leb_spec 0 limit); [apply length_take | lia].
Qed.

Lemma flat_map_at_most_one {A B} (f : A -> list B) (l : list A) :
  (forall x, length (f x) <= 1) -> length (flat_map f l) <= length l.
Proof.
intros Hf. induction l as [|x l IH]; simpl; [lia |].
rewrite length_app. specialize (Hf x). lia.
Qed.

Lemma Forall_flat_map {A B} (P : B -> Prop) (f : A -> list B) (l : list A) :
  (forall x, Forall P (f x)) -> Forall P (flat_map f l).
Proof.
intros Hf. induction l as [|x l IH]; simpl; [constructor |].
apply Forall_app. split; [apply Hf | exact IH].
Qed.

(** X20: without a NewsAPI key, [get_company_news] is the Google News
    fallback, which never raises and makes one request.  For a limit that is
    not negative it returns at most [max_articles] entries; every entry has a
    title, the source [Google News] and a link that starts with
    [https://news.google.com]; elements without a heading or without a link
    are skipped.  The number of days asked for is not used. *)
Theorem google_news_is_bounded_and_ignores_the_period :
  forall (self : CompanyIntelligence.t) (company_name : string)
         (days_back max_articles : Z) (history : list Request),
    (0 <= max_articles)%Z ->
    exists articles,
      CompanyIntelligence._scrape_google_news net html company_name days_back
        max_articles history
      = (Done articles,
         history ++ [GET ("https://news.google.com/search?q="
                          +:+ (company_name +:+ " news")
                          +:+ "&hl=en-US&gl=US&ceid=US:en") []])
      /\ length articles <= Z.to_nat max_articles
      /\ Forall (fun article =>
                   exists title href published_at,
                     article
                     = JObject [("title", JString title);
                                ("url", JString ("https://news.google.com"
                                                 +:+ href));
                                ("published_at", published_at);
                                ("source", JString "Google News")])
           articles
      /\ (forall other_days,
            CompanyIntelligence._scrape_google_news net html company_name
              other_days max_articles history
            = (Done articles,
               history ++ [GET ("https://news.google.com/search?q="
                                +:+ (company_name +:+ " news")
                                +:+ "&hl=en-US&gl=US&ceid=US:en") []]))
      /\ (truthy (CompanyIntelligence.newsapi_key self) = false ->
          CompanyIntelligence.get_company_news net html self company_name
            days_back max_articles history
          = (Done articles,
             history ++ [GET ("https://news.google.com/search?q="
                              +:+ (company_name +:+ " news")
                              +:+ "&hl=en-US&gl=US&ceid=US:en") []])).
Proof.
intros self company_name days_back max_articles history Hlimit.
assert (Hnokey : forall articles history',
          CompanyIntelligence._scrape_google_news net html company_name
            days_back max_articles history = (Done articles, history') ->
          truthy (CompanyIntelligence.newsapi_key self) = false ->
          CompanyIntelligence.get_company_news net html self company_name
            days_back max_articles history = (Done articles, history')).
{ intros articles history' H Hkey.
  unfold CompanyIntelligence.get_company_news. now rewrite Hkey. }
revert Hnokey.
unfold CompanyIntelligence._scrape_google_news, try_except, bind,
  CompanyIntelligence.request.
destruct (send net _) as [response|e]; intros Hnokey.
- eexists. split; [reflexivity |]. split_and!.
  + etransitivity; [apply flat_map_at_most_one |].
    * intros article. destruct (find html article (Tag "h3")),
        (find html article (Tag "a")); simpl; lia.
    * rewrite slice_list_length by exact Hlimit. lia.
  + apply Forall_flat_map. intros article.
    destruct (find html article (Tag "h3")), (find html article (Tag "a"));
      constructor; [| constructor]. eauto.
  + reflexivity.
  + now apply Hnokey.
- exists []. split; [reflexivity |]. split_and!; simpl; try lia; auto.
Qed.



(** X22: [get_company_website_content] never raises and makes one request.
    From a page it keeps at most five links, those whose target holds [blog],
    [news] or [press], in the order of the page; a target that starts with
    [http] is kept as it is and any other is appended to the address of the
    site, so every link kept starts with [http] or with that address.  When
    the request fails, the error is returned with the address. *)
Theorem website_content_keeps_at_most_five_links :
  forall (website_url : string) (history : list Request),
    exists content,
      CompanyIntelligence.get_company_website_content net html website_url
        history
      = (Done content, history ++ [GET website_url []])
      /\ match content with
         | CompanyIntelligence.Scraped url title description blog_section _ =>
             url = website_url
             /\ length blog_section <= 5
             /\ Forall (fun link =>
                          PyStr.prefix "http"
                            (CompanyIntelligence.BlogLink.url link) = true
                          \/ PyStr.prefix website_url
                               (CompanyIntelligence.BlogLink.url link) = true)
                  blog_section
             /\ exists response,
                  send net (history ++ [GET website_url []]) = Done response
         | CompanyIntelligence.NotScraped url e =>
             url = website_url
             /\ send net (history ++ [GET website_url []]) = Failed e
         end.
Proof.
intros website_url history.
unfold CompanyIntelligence.get_company_website_content, try_except, bind,
  CompanyIntelligence.request, CompanyIntelligence.utcnow, ret.
destruct (send net (history ++ [GET website_url []])) as [response|e] eqn:Hs.
- eexists. split; [reflexivity |]. split_and!; [reflexivity | | | eauto].
  + rewrite length_take. lia.
  + apply Forall_take, Forall_flat_map. intros link.
    destruct (_ || _); [| constructor].
    constructor; [| constructor]. simpl.
    match goal with
    | |- context [if ?b then _ else _] => destruct b eqn:Hp
    end; [now left | right].
    apply prefix_refl_app.
- eexists. split; [reflexivity |]. now split.
Qed.

(** *** [LinkedInScraper] *)

(** X23: [login] never raises, and makes no request without credentials.
    When the e-mail or the password is missing (or empty) after falling back
    on the settings, it returns [False] and leaves the scraper as it was.
    Otherwise it posts the credentials once; it returns [True] only for a
    reply with status 200, and then the scraper is logged in.  A failed
    attempt never logs out a scraper that was logged in. *)
Theorem login_needs_credentials_and_never_logs_out :
  forall (settings : LinkedInScraper.Credentials)
         (email password : option string) (self : LinkedInScraper.t),
    let credentials_email :=
      or_else email (LinkedInScraper.linkedin_email settings) in
    let credentials_password :=
      or_else password (LinkedInScraper.linkedin_password settings) in
    exists result after,
      LinkedInScraper.login net settings email password self
      = (Done result, after)
      /\ (LinkedInScraper.is_logged_in self = true ->
          LinkedInScraper.is_logged_in after = true)
      /\ (truthy credentials_email = false \/ truthy credentials_password = false ->
          result = false /\ after = self)
      /\ (truthy credentials_email = true ->
          truthy credentials_password = true ->
          LinkedInScraper.history after
          = LinkedInScraper.history self
            ++ [POST "https://www.linkedin.com/uas/login-submit"
                  [("session_key", default EmptyString credentials_email);
                   ("session_password",
                     default EmptyString credentials_password)]])
      /\ (result = true ->
          LinkedInScraper.is_logged_in after = true
          /\ exists response,
               send net (LinkedInScraper.history after) = Done response
               /\ status_code response = 200%Z
               /\ url_holds_feed response = Done true)
      /\ (result = false ->
          LinkedInScraper.is_logged_in after = LinkedInScraper.is_logged_in self).
Proof.
intros settings email password self credentials_email credentials_password.
unfold LinkedInScraper.login. fold credentials_email credentials_password.
destruct (truthy credentials_email) eqn:He;
  [destruct (truthy credentials_password) eqn:Hp |]; simpl;
  [| exists false, self; split; [reflexivity |]; split_and!; auto;
     try discriminate; destruct self; reflexivity ..].
unfold try_except, bind, LinkedInScraper.request, ret, of_try. simpl.
destruct (send net _) as [response|e] eqn:Hsend.
- destruct (Z.eqb_spec (status_code response) 200) as [Hcode|Hcode].
  + destruct (url_holds_feed response) as [[|]|e] eqn:Hfeed.
    * eexists _, _. split; [reflexivity |]. simpl.
      split_and!; auto; try discriminate.
      -- intros [?|?]; discriminate.
      -- intros _. split; [reflexivity |]. eauto.
    * eexists _, _. split; [reflexivity |]. simpl.
      split_and!; auto; try discriminate. intros [?|?]; discriminate.
    * eexists _, _. split; [reflexivity |]. simpl.
      split_and!; auto; try discriminate. intros [?|?]; discriminate.
  + eexists _, _. split; [reflexivity |]. simpl.
    split_and!; auto; try discriminate. intros [?|?]; discriminate.
- eexists _, _. split; [reflexivity |]. simpl.
  split_and!; auto; try discriminate. intros [?|?]; discriminate.
Qed.

Lemma parse_profile_done soup url self :
  exists profile,
    LinkedInScraper._parse_profile_html net html soup url self
    = (Done profile, self)
    /\ LinkedInScraper.Profile.linkedin_url profile = url
    /\ (forall skills,
          LinkedInScraper.Profile.skills profile = Some skills ->
          length skills <= 10)
    /\ (is_Some (LinkedInScraper.Profile.current_job_title profile)
        <-> is_Some (LinkedInScraper.Profile.current_company profile)).
Proof.
unfold LinkedInScraper._parse_profile_html, bind, of_try, LinkedInScraper.utcnow,
  ret.
change (re_compile LinkedInScraper.globals) with (fun p : string => Done p).
cbv beta.
destruct (find html soup (TagId "section" "experience")) as [section|] eqn:He;
  [destruct (find html section (Tag "li")) as [first_job|] eqn:Hj |];
  destruct (find html soup (TagId "section" "skills")) as [skills_section|]
    eqn:Hk;
  cbv beta iota zeta; rewrite ?He, ?Hj, ?Hk; cbv beta iota zeta;
  (eexists; (split; [reflexivity |]); simpl;
   (split; [reflexivity |]); split;
   [ intros skills H; try discriminate H; injection H as <-;
     rewrite length_take; lia
   | split; intros [? H]; try discriminate H; eauto ]).
Qed.

Lemma profile_url_is_absolute linkedin_url :
  PyStr.prefix "http" (LinkedInScraper.profile_url linkedin_url) = true.
Proof.
unfold LinkedInScraper.profile_url.
destruct (PyStr.prefix "http" linkedin_url) eqn:H; simpl; [exact H | reflexivity].
Qed.

(** X24: [scrape_profile] fetches the page once and never raises, so its
    retry decorator never makes a second attempt.  The address fetched is the
    one given when it starts with [http], and otherwise the public profile
    address of that user name; normalising an address twice changes nothing.
    The result is the parsed profile, with at most ten skills, when the
    request and its status check succeed, and otherwise the dictionary that
    holds the address and the error.  The login flag is left as it was. *)
Theorem scrape_profile_fetches_once_and_never_raises :
  forall (linkedin_url : string) (self : LinkedInScraper.t),
    let url := LinkedInScraper.profile_url linkedin_url in
    exists scraped after,
      LinkedInScraper.scrape_profile net html linkedin_url self
      = (Done scraped, after)
      /\ LinkedInScraper.history after
         = LinkedInScraper.history self ++ [GET url []]
      /\ LinkedInScraper.is_logged_in after = LinkedInScraper.is_logged_in self
      /\ PyStr.prefix "http" url = true
      /\ LinkedInScraper.profile_url url = url
      /\ match scraped with
         | LinkedInScraper.Parsed profile =>
             LinkedInScraper.Profile.linkedin_url profile = url
             /\ (forall skills,
                   LinkedInScraper.Profile.skills profile = Some skills ->
                   length skills <= 10)
             /\ exists response,
                  send net (LinkedInScraper.history after) = Done response
                  /\ raise_for_status response = Done tt
         | LinkedInScraper.NotScraped address e _ =>
             address = url
             /\ (send net (LinkedInScraper.history after) = Failed e
                 \/ exists response,
                      send net (LinkedInScraper.history after) = Done response
                      /\ raise_for_status response = Failed e)
         end.
Proof.
intros linkedin_url self url.
assert (Habs : PyStr.prefix "http" url = true)
  by apply profile_url_is_absolute.
assert (Hidem : LinkedInScraper.profile_url url = url).
{ unfold LinkedInScraper.profile_url at 1. now rewrite Habs. }
unfold LinkedInScraper.scrape_profile, retry.
unfold try_except at 1.
unfold LinkedInScraper.scrape_profile_once. fold url.
unfold try_except, bind, LinkedInScraper.request, of_try.
destruct (send net _) as [response|e] eqn:Hsend; simpl.
- destruct (raise_for_status response) as [[]|e] eqn:Hstatus.
  + match goal with
    | |- context [LinkedInScraper._parse_profile_html net html ?soup url ?s] =>
        destruct (parse_profile_done soup url s) as (profile & -> & Hp1 & Hp2 & _)
    end.
    simpl. eexists _, _. split; [reflexivity |]. simpl.
    split_and!; auto. eauto.
  + simpl. eexists _, _. split; [reflexivity |]. simpl.
    split_and!; auto. right. eauto.
- eexists _, _. split; [reflexivity |]. simpl. split_and!; auto.
Qed.

Lemma split_profile_url user_name :
  PyStr.contains "/in/" user_name = false ->
  PyStr.split "/in/" ("https://www.linkedin.com/in/" +:+ user_name)
  = ["https://www.linkedin.com"; user_name].
Proof.
intros H. unfold PyStr.split. simpl.
change (EmptyString +:+ user_name) with user_name.
rewrite split_go_none by exact H. simpl.
now rewrite string_of_list_ascii_of_string.
Qed.

Lemma list_ascii_of_string_app a b :
  list_ascii_of_string (a +:+ b)
  = list_ascii_of_string a ++ list_ascii_of_string b.
Proof. induction a as [|c a IH]; simpl; [done | now rewrite IH]. Qed.

Lemma string_of_list_ascii_cons c l :
  string_of_list_ascii (c :: l) = String c (string_of_list_ascii l).
Proof. reflexivity. Qed.

Lemma rstrip_char_drops_the_last c s :
  rstrip_char c (s +:+ String c EmptyString) = rstrip_char c s.
Proof.
unfold rstrip_char. rewrite list_ascii_of_string_app. simpl.
rewrite rev_app_distr. simpl. now rewrite Ascii.eqb_refl.
Qed.

(** X25: the two scraping functions agree on the address of a user.  For a
    user name that does not start with [http] and holds no [/in/],
    [get_recent_activity] recovers from the address that [scrape_profile]
    builds the user name without its trailing slashes, and asks for the
    activity page of that user; a slash added at the end of the user name
    changes nothing. *)
Theorem activity_address_of_a_user_name :
  forall (user_name : string),
    PyStr.prefix "http" user_name = false ->
    PyStr.contains "/in/" user_name = false ->
    LinkedInScraper.profile_url user_name
      = "https://www.linkedin.com/in/" +:+ user_name
    /\ LinkedInScraper.username_of (LinkedInScraper.profile_url user_name)
       = rstrip_char "/" user_name
    /\ LinkedInScraper.activity_url (LinkedInScraper.profile_url user_name)
       = "https://www.linkedin.com/in/" +:+ rstrip_char "/" user_name
         +:+ "/recent-activity/all/"
    /\ rstrip_char "/" (user_name +:+ "/") = rstrip_char "/" user_name.
Proof.
intros user_name Hhttp Hin.
assert (Hurl : LinkedInScraper.profile_url user_name
               = "https://www.linkedin.com/in/" +:+ user_name).
{ unfold LinkedInScraper.profile_url. now rewrite Hhttp. }
assert (Hname : LinkedInScraper.username_of (LinkedInScraper.profile_url user_name)
                = rstrip_char "/" user_name).
{ unfold LinkedInScraper.username_of.
  now rewrite Hurl, split_profile_url by exact Hin. }
split_and!; [exact Hurl | exact Hname | | apply rstrip_char_drops_the_last].
unfold LinkedInScraper.activity_url. now rewrite Hname.
Qed.

(** X26: the two listing functions never raise and respect their limit.
    [get_recent_activity] and [search_people] make one request each and leave
    the login flag as it was; for a limit that is not negative they return as
    many entries as the page holds, up to the limit, every activity with the
    type [post]; when the request fails they return the empty list. *)
Theorem listings_are_bounded_by_the_limit :
  forall (linkedin_url : string) (keywords company title location : option string)
         (limit : Z) (self : LinkedInScraper.t),
    (0 <= limit)%Z ->
    (exists activities after,
       LinkedInScraper.get_recent_activity net html linkedin_url limit self
       = (Done activities, after)
       /\ LinkedInScraper.history after
          = LinkedInScraper.history self
            ++ [GET (LinkedInScraper.activity_url linkedin_url) []]
       /\ LinkedInScraper.is_logged_in after = LinkedInScraper.is_logged_in self
       /\ length activities <= Z.to_nat limit
       /\ Forall (fun a => LinkedInScraper.Activity.type a = "post") activities
       /\ match send net (LinkedInScraper.history after) with
          | Done response =>
              length activities
              = Nat.min (Z.to_nat limit)
                  (length (find_all html (BeautifulSoup html (text response))
                             (TagClass "div" "feed-shared-update-v2")))
          | Failed _ => activities = []
          end)
    /\ (exists people after,
          LinkedInScraper.search_people net html keywords company title location
            limit self
          = (Done people, after)
          /\ LinkedInScraper.history after
             = LinkedInScraper.history self
               ++ [GET (LinkedInScraper.search_url keywords company title
                          location) []]
          /\ LinkedInScraper.is_logged_in after
             = LinkedInScraper.is_logged_in self
          /\ length people <= Z.to_nat limit
          /\ match send net (LinkedInScraper.history after) with
             | Done response =>
                 length people
                 = Nat.min (Z.to_nat limit)
                     (length (find_all html (BeautifulSoup html (text response))
                                (TagClass "li"
                                   "reusable-search__result-container")))
             | Failed _ => people = []
             end).
Proof.
intros linkedin_url keywords company title location limit self Hlimit. split.
- unfold LinkedInScraper.get_recent_activity, try_except, bind,
    LinkedInScraper.request, of_try.
  change (re_compile LinkedInScraper.globals) with (fun p : string => Done p).
  cbv beta.
  destruct (send net _) as [response|e] eqn:Hsend; simpl.
  + erewrite for_each_done by (intros x s; reflexivity).
    eexists _, _. split; [reflexivity |]. simpl. rewrite Hsend.
    rewrite length_map, slice_list_length by exact Hlimit.
    split_and!; auto; try lia.
    apply Forall_map, Forall_true. reflexivity.
  + eexists _, _. split; [reflexivity |]. simpl. rewrite Hsend.
    split_and!; auto; simpl; lia.
- unfold LinkedInScraper.search_people, try_except, bind,
    LinkedInScraper.request, of_try.
  change (re_compile LinkedInScraper.globals) with (fun p : string => Done p).
  cbv beta.
  destruct (send net _) as [response|e] eqn:Hsend; simpl.
  + erewrite for_each_done by (intros x s; reflexivity).
    eexists _, _. split; [reflexivity |]. simpl. rewrite Hsend.
    rewrite length_map, slice_list_length by exact Hlimit.
    split_and!; auto; lia.
  + eexists _, _. split; [reflexivity |]. simpl. rewrite Hsend.
    split_and!; auto; simpl; lia.
Qed.

End Scrapers.
(** ** The scenarios, run *)

Module Examples.
Import Scenario.

(** [process_lead] and [batch_process_leads] on the scenario's decoder,
    orchestrator and store. *)
Abbreviation run env lead auto_send :=
  (process_lead env string json_loads analysis_of_json email_of_json
     orchestrator lead "Developer tooling" "Faster deployments" auto_send store).

Abbreviation run_batch env lead_ids auto_send max_concurrent :=
  (batch_process_leads env string json_loads analysis_of_json email_of_json
     orchestrator lead_ids "Developer tooling" "Faster deployments" auto_send
     max_concurrent store).

(** The draft with that body and nothing else scores 0.4: 0.2 for its 50
    words and 0.2 for the absence of spam phrases. *)
Lemma words_between_unicode_blanks :
  QualityCheck.word_count
    (_quality_control env_demo orchestrator (draft None Cases.next_line_body [])
       (analysis_with None)) = 50
  /\ QualityCheck.quality_score
       (_quality_control env_demo orchestrator (draft None Cases.next_line_body [])
          (analysis_with None)) = (0 + 0.2 + 0 + 0.2 + 0 * 0.1)%float
  /\ length (QualityCheck.issues
               (_quality_control env_demo orchestrator
                  (draft None Cases.next_line_body []) (analysis_with None))) = 2.
Proof.
destruct (quality_score_is_sum_of_checks env_demo orchestrator
            (draft None Cases.next_line_body []) (analysis_with None))
  as (Hsum & Hp & Hl & Hc & Hg & Hr & _ & _ & _ & _ & _ & _ & Hissues & Hwords & _).
split; [rewrite Hwords; vm_compute; reflexivity |].
split; [| rewrite Hissues; vm_compute; reflexivity].
rewrite Hsum, Hp, Hl, Hc, Hg, Hr. vm_compute. reflexivity.
Defined.

(** The demonstration draft with the relevance 0.92 passes the four checks. *)
Example demo_draft_score :
  QualityCheck.quality_score
    (_quality_control env_demo orchestrator demo_draft
       (analysis_with (Some 0.92%float)))
  = (0.3 + 0.2 + 0.2 + 0.2 + 0.92 * 0.1)%float
  /\ QualityCheck.issues
       (_quality_control env_demo orchestrator demo_draft
          (analysis_with (Some 0.92%float))) = []
  /\ QualityCheck.word_count
       (_quality_control env_demo orchestrator demo_draft
          (analysis_with (Some 0.92%float))) = 62.
Proof. vm_compute. repeat split; reflexivity. Qed.

(** The commit that ends the enrichment raises: the outcome is
    [enrichment_failed], with no call to the completion endpoint and no
    campaign. *)
Lemma failed_enrichment_skips_everything :
  Result.status (fst (run env_store_down rahul true)) = "enrichment_failed"
  /\ count_calls is_kimi
       (new_events store (snd (run env_store_down rahul true))) = 0
  /\ count_calls is_artifact_create
       (new_events store (snd (run env_store_down rahul true))) = 0
  /\ campaigns (snd (run env_store_down rahul true)) = campaigns store
  /\ Result.campaign_id (fst (run env_store_down rahul true)) = None.
Proof.
refine (proj1 (early_exits_skip_generation_and_persistence
                 env_store_down string json_loads analysis_of_json email_of_json
                 orchestrator rahul "Developer tooling" "Faster deployments" true
                 store
                 {| Enrichment.status := "failed";
                    Enrichment.payload := Enrichment.no_data;
                    Enrichment.error := Some (External "service unavailable") |}
                 _ _) _).
- vm_compute. reflexivity.
- reflexivity.
Defined.

(** The relevance 0.4 is below the minimum 0.7: the outcome is
    [low_relevance] and the generation service is never called. *)
Example low_relevance_run :
  Result.status (fst (run env_low rahul true)) = "low_relevance"
  /\ count_calls is_generation_call
       (new_events store (snd (run env_low rahul true))) = 0
  /\ campaigns (snd (run env_low rahul true)) = [].
Proof. vm_compute. repeat split; reflexivity. Qed.

(** The demonstration run with [auto_send]: the campaign gets the key 1 and
    the outcome is [sent]. *)
Lemma demo_run_is_sent :
  Result.campaign_id (fst (run env_demo rahul true)) = Some 1%Z
  /\ Result.status (fst (run env_demo rahul true)) = "sent"
  /\ exists c sent_at,
       get_campaign 1 (campaigns (snd (run env_demo rahul true))) = Some c
       /\ Campaign.status c = SENT /\ Campaign.sent_at c = Some sent_at
       /\ Campaign.lead_id c = Lead.id rahul.
Proof.
assert (H : Result.campaign_id (fst (run env_demo rahul true)) = Some 1%Z)
  by (vm_compute; reflexivity).
assert (Hs : Result.status (fst (run env_demo rahul true)) = "sent")
  by (vm_compute; reflexivity).
split; [exact H |]. split; [exact Hs |].
destruct (persisted_before_send_decision
            env_demo string json_loads analysis_of_json email_of_json
            orchestrator rahul "Developer tooling" "Faster deployments" true
            store (Some demo_draft)) as [Hdecided _].
- vm_compute. reflexivity.
- destruct (Hdecided 1%Z H)
    as (q & pre & post & _ & _ & _ & _ & _ & _ & _ & _ & _ & Hsent & _).
  exact (Hsent Hs).
Defined.

(** Without [auto_send] the same run ends as [pending_review], with one
    campaign in status [READY]. *)
Example demo_run_pending_review :
  Result.status (fst (run env_demo rahul false)) = "pending_review"
  /\ map Campaign.status (campaigns (snd (run env_demo rahul false))) = [READY].
Proof. vm_compute. split; reflexivity. Qed.

(** [auto_send] holds, the draft scores above 0.8, the campaign is created,
    and the commit of the dispatch raises: the outcome is [error], which is
    neither [sent], [send_failed] nor [pending_review]; the campaign stays in
    status [READY]. *)
Lemma failed_dispatch_ends_in_error :
  Result.status (fst (run env_dispatch_down rahul true)) = "error"
  /\ Result.error (fst (run env_dispatch_down rahul true))
     = Some (External "service unavailable")
  /\ Result.campaign_id (fst (run env_dispatch_down rahul true)) = Some 1%Z
  /\ (exists q,
        Result.quality_check (fst (run env_dispatch_down rahul true))
          = Some (Some q)
        /\ (0.8 <=? QualityCheck.quality_score q)%float = true)
  /\ map Campaign.status (campaigns (snd (run env_dispatch_down rahul true)))
     = [READY].
Proof.
vm_compute. repeat split; try reflexivity.
eexists. split; reflexivity.
Qed.

(** The same run seen from the result: an artifact was created and the
    outcome is none of [sent], [send_failed] and [pending_review]. *)
Lemma artifact_then_error :
  Result.campaign_id (fst (run env_dispatch_down rahul true)) <> None
  /\ Result.status (fst (run env_dispatch_down rahul true)) <> "sent"
  /\ Result.status (fst (run env_dispatch_down rahul true)) <> "send_failed"
  /\ Result.status (fst (run env_dispatch_down rahul true)) <> "pending_review".
Proof. vm_compute. repeat split; discriminate. Qed.

(** The database is lost between the commit of the campaign and its
    refresh: the outcome is [error] and names no campaign, and the row is
    stored all the same. *)
Example row_stored_without_campaign_id :
  Result.status (fst (run env_refresh_down rahul false)) = "error"
  /\ Result.campaign_id (fst (run env_refresh_down rahul false)) = None
  /\ map Campaign.status (campaigns (snd (run env_refresh_down rahul false)))
     = [READY]
  /\ map Campaign.email_body (campaigns (snd (run env_refresh_down rahul false)))
     = ["Worth a quick chat?"].
Proof. vm_compute. repeat split; reflexivity. Qed.

(** A short draft scores 0.792: it passes the evaluator's own threshold,
    the loop rejects it twice, and the run ends as [pending_review] with the
    second draft stored. *)
Example short_draft_run :
  Result.status (fst (run env_short rahul true)) = "pending_review"
  /\ count_calls is_generation_call
       (new_events store (snd (run env_short rahul true))) = 2
  /\ count_calls is_quality_call
       (new_events store (snd (run env_short rahul true))) = 2
  /\ map Campaign.email_body (campaigns (snd (run env_short rahul true)))
     = ["Worth a quick chat?"].
Proof. vm_compute. repeat split; reflexivity. Qed.

(** The same run through the property of the loop: two calls, the first
    draft rejected, the second kept although it is below 0.8. *)
Lemma short_draft_is_kept_after_two_attempts :
  count_calls is_generation_call
    (new_events store (snd (run env_short rahul true))) <= 2
  /\ Result.email_generation (fst (run env_short rahul true))
     = Some (Some short_draft)
  /\ accepted env_demo orchestrator (analysis_with (Some 0.92%float)) short_draft = false
  /\ Result.status (fst (run env_short rahul true)) = "pending_review".
Proof.
destruct (refinement_is_bounded_and_keeps_last_attempt
            env_short string json_loads analysis_of_json email_of_json
            orchestrator rahul "Developer tooling" "Faster deployments" true
            store)
  as (_ & Hgen & _ & _ & Hrun).
split; [exact Hgen |].
destruct (Hrun (analysis_with (Some 0.92%float))) as (_ & Hlast);
  [vm_compute; reflexivity |].
destruct (Hlast (Some short_draft)
            (Some (_quality_control env_demo orchestrator short_draft
                     (analysis_with (Some 0.92%float)))))
  as (final & Hf & He & _ & _ & _ & Hlow); [vm_compute; reflexivity ..|].
injection He as <-.
assert (Hrej : accepted env_demo orchestrator (analysis_with (Some 0.92%float)) short_draft
               = false) by (vm_compute; reflexivity).
split; [vm_compute; reflexivity |]. split; [exact Hrej |].
destruct (Hlow Hrej) as [[Hs _]|[Hs [Hc _]]]; [exact Hs |].
vm_compute in Hc. discriminate Hc.
Defined.

(** A batch over both leads with the default limit returns two outcomes. *)
Lemma demo_batch_returns :
  exists results w',
    run_batch env_demo [1%Z; 2%Z] false 5
      = (Returned results (compile_statistics results), w')
    /\ Statistics.total (compile_statistics results) = 2.
Proof.
destruct (batch_returns_one_outcome_per_fetched_lead
            env_demo string json_loads analysis_of_json email_of_json
            orchestrator [1%Z; 2%Z] "Developer tooling" "Faster deployments"
            false 5%Z store)
  as (results & w' & Hret & _ & Htotal & _); [reflexivity |].
exists results, w'. split; [exact Hret |]. rewrite Htotal. reflexivity.
Defined.

(** One key is submitted and the store has no lead with it: the batch
    returns no outcome and [total] is 0, not 1. *)
Lemma unknown_key_is_dropped_from_total :
  exists statistics w',
    run_batch env_demo [7%Z] false 5 = (Returned [] statistics, w')
    /\ Statistics.total statistics = 0
    /\ length [7%Z] = 1.
Proof. eexists _, _. vm_compute. repeat split; reflexivity. Qed.

(** The same key submitted twice is fetched once. *)
Example repeated_key_is_fetched_once :
  exists results statistics w',
    run_batch env_demo [1%Z; 1%Z] false 5 = (Returned results statistics, w')
    /\ Statistics.total statistics = 1.
Proof. eexists _, _, _. vm_compute. split; reflexivity. Qed.

(** The limiter refuses a negative limit and blocks on the limit 0. *)
Example batch_without_slots :
  fst (run_batch env_demo [1%Z] false (-1)) = BatchRaised ValueError
  /\ fst (run_batch env_demo [1%Z] false 0) = Blocked.
Proof. vm_compute. split; reflexivity. Qed.


(** The generation request is answered with plain text for a lead that has
    no company: the fallback raises [TypeError]. *)
Lemma fallback_raises_without_company :
  fst (generate_personalized_email env_garbled string json_loads email_of_json
         (list_to_map [("name", PyStr "Priya Patel"); ("company", PyNone);
                       ("job_title", PyNone)])
         (analysis_with (Some 0.92%float)) "Developer tooling"
         "Faster deployments" "schedule_call" store)
  = Raise TypeError.
Proof.
erewrite (parse_failure_fallbacks env_garbled string json_loads
            analysis_of_json email_of_json _ _ _ _ _ store _ WriteEmail
            "I am the Kimi Agent. For this demo, a generic confirmation."
            "I am the Kimi Agent. For this demo, a generic confirmation.").
- vm_compute. reflexivity.
- vm_compute. reflexivity.
- vm_compute. reflexivity.
- vm_compute. reflexivity.
Defined.

(** With a company the fallback is the draft the source builds; the run of
    such a lead goes on, and for a lead without company it ends in [error]. *)
Example garbled_runs :
  Result.status (fst (run env_garbled rahul false)) = "pending_review"
  /\ map Campaign.subject_line (campaigns (snd (run env_garbled rahul false)))
     = ["Quick question about your work at TechCorp India"]
  /\ Result.status (fst (run env_garbled priya false)) = "error"
  /\ Result.error (fst (run env_garbled priya false)) = Some TypeError.
Proof. vm_compute. repeat split; reflexivity. Qed.

(** The statistics of the batch over both leads: two outcomes, both left
    for review, so that nothing is counted as successful or failed. *)
Lemma demo_batch_statistics :
  exists results statistics w',
    run_batch env_demo [1%Z; 2%Z] false 5 = (Returned results statistics, w')
    /\ map Result.status results = ["pending_review"; "pending_review"]
    /\ Statistics.total statistics = 2
    /\ Statistics.successful statistics = 0
    /\ Statistics.failed statistics = 0.
Proof.
destruct (run_batch env_demo [1%Z; 2%Z] false 5)
  as [[results statistics| |] w'] eqn:Hb;
  try (vm_compute in Hb; discriminate Hb).
destruct (statistics_count_by_status
            env_demo string json_loads analysis_of_json email_of_json
            orchestrator [1%Z; 2%Z] "Developer tooling" "Faster deployments"
            false 5%Z store w' results statistics Hb)
  as (Ht & Hs & _ & _ & Hf & _).
exists results, statistics, w'. split; [reflexivity |].
assert (Hr : map Result.status results = ["pending_review"; "pending_review"]).
{ vm_compute in Hb. injection Hb as <- _ _. reflexivity. }
split; [exact Hr |].
assert (Hlen : length results = 2)
  by (rewrite <- (length_map Result.status), Hr; reflexivity).
split; [now rewrite Ht |].
destruct results as [|r1 [|r2 [|r3 rest]]]; try discriminate Hlen.
injection Hr as Hr1 Hr2.
split.
- rewrite Hs. unfold count_status. rewrite !filter_cons, Hr1, Hr2. reflexivity.
- rewrite Hf. unfold count_status. rewrite !filter_cons, Hr1, Hr2. reflexivity.
Defined.

(** A batch over both leads under the limit 1, once the first task has
    passed the acquire: one task is in flight, which is the limit, and the
    second lead waits.  The only move is the end of the first task; after it
    the second can enter. *)
Abbreviation first_in_flight :=
  {| permits := 0; tasks := [InFlight rahul; Waiting priya]; world := store |}.

Lemma second_lead_waits_at_the_limit :
  in_flight first_in_flight = 1
  /\ tasks first_in_flight !! 1 = Some (Waiting priya)
  /\ (forall s',
        limiter_step env_demo string json_loads analysis_of_json email_of_json
          orchestrator "Developer tooling" "Faster deployments" false
          first_in_flight s' ->
        in_flight s' = 0 /\ tasks s' !! 1 = Some (Waiting priya))
  /\ exists s',
       limiter_step env_demo string json_loads analysis_of_json email_of_json
         orchestrator "Developer tooling" "Faster deployments" false
         first_in_flight s'
       /\ permits s' = 1.
Proof.
assert (Hreach :
  reachable env_demo string json_loads analysis_of_json email_of_json
    orchestrator "Developer tooling" "Faster deployments" false 1
    [rahul; priya] store first_in_flight).
{ apply rtc_once.
  exact (step_acquire env_demo string json_loads analysis_of_json email_of_json
           orchestrator "Developer tooling" "Faster deployments" false
           (limiter_start 1 [rahul; priya] store) 0 rahul 0 eq_refl eq_refl). }
destruct (limiter_bounds_tasks_in_flight
            env_demo string json_loads analysis_of_json email_of_json
            orchestrator "Developer tooling" "Faster deployments" false 1
            [rahul; priya] store first_in_flight Hreach)
  as (_ & _ & Hfull & _ & Hend & Hone).
split; [reflexivity |]. split; [reflexivity |]. split.
- intros s' Hstep. split.
  + specialize (Hfull eq_refl s' Hstep). simpl in Hfull.
    change (in_flight first_in_flight) with 1 in Hfull. lia.
  + pose proof (Hfull eq_refl s' Hstep) as Hless.
    destruct (Hone s' Hstep) as [i Hi].
    destruct (decide (i = 1)) as [-> |Hne]; [| now rewrite (Hi 1)].
    exfalso. pose proof (Hi 0 ltac:(lia)) as H0. simpl in H0.
    change (in_flight first_in_flight) with 1 in Hless.
    unfold in_flight in Hless.
    destruct (tasks s') as [|t ts]; [discriminate H0 |].
    simpl in H0. injection H0 as ->. simpl in Hless. lia.
- destruct (Hend 0 rahul eq_refl) as (s' & Hstep & _ & Hp & _).
  exists s'. split; [exact Hstep | exact Hp].
Defined.

(** *** Further scenarios *)

(** The decoder yields drafts without subject line: the run ends in
    [error] with the missing key, and no campaign is stored. *)
Lemma draft_without_subject_is_not_stored :
  Result.status
    (fst (process_lead env_demo string json_loads analysis_of_json
            Cases.email_without_subject orchestrator rahul "Developer tooling"
            "Faster deployments" false store)) = "error"
  /\ Result.error
       (fst (process_lead env_demo string json_loads analysis_of_json
               Cases.email_without_subject orchestrator rahul
               "Developer tooling" "Faster deployments" false store))
     = Some (KeyError "subject_line")
  /\ campaigns
       (snd (process_lead env_demo string json_loads analysis_of_json
               Cases.email_without_subject orchestrator rahul
               "Developer tooling" "Faster deployments" false store)) = [].
Proof.
destruct (draft_without_subject_or_body_ends_in_error env_demo string
            json_loads analysis_of_json Cases.email_without_subject
            orchestrator rahul "Developer tooling" "Faster deployments" false
            store (Cases.email_without_subject EmptyString))
  as (H1 & H2 & _ & H4 & _).
- vm_compute. reflexivity.
- left. reflexivity.
- split; [exact H1 |]. split; [exact H2 | exact H4].
Defined.

(** The analysis request is answered with plain text: the run ends as
    [low_relevance] with the score 0.5. *)
Lemma unparsed_analysis_run :
  Result.status (fst (run Cases.env_unparsed rahul false)) = "low_relevance"
  /\ Result.relevance_score (fst (run Cases.env_unparsed rahul false))
     = Some 0.5%float.
Proof.
edestruct (unparsed_analysis_is_scored_one_half Cases.env_unparsed string
             json_loads analysis_of_json email_of_json orchestrator rahul
             "Developer tooling" "Faster deployments" false store)
  as (H1 & H2 & _).
- reflexivity.
- simpl. discriminate.
- reflexivity.
- intros text H. vm_compute in H. injection H as <-. reflexivity.
- reflexivity.
- reflexivity.
- split; [exact H1 | exact H2].
Defined.

(** A batch over the two leads of the store in which the second task ends
    first: the campaign of the second lead gets the key 1 and that of the
    first lead the key 2, so the rows are not in the order of the outcomes;
    each outcome has its row, under the key it reports. *)
Lemma second_task_ends_first :
  exists s : Limiter,
    reachable env_demo string json_loads analysis_of_json email_of_json
      orchestrator "Developer tooling" "Faster deployments" false 2
      [rahul; priya] store s
    /\ map Result.lead_id (outcomes s) = [1; 2]%Z
    /\ map Result.campaign_id (outcomes s) = [Some 2; Some 1]%Z
    /\ map Campaign.id (campaigns (world s)) = [1; 2]%Z
    /\ map Campaign.lead_id (campaigns (world s)) = [2; 1]%Z
    /\ NoDup (omap Result.campaign_id (outcomes s))
    /\ forall r cid,
         r ∈ outcomes s -> Result.campaign_id r = Some cid ->
         exists c, c ∈ campaigns (world s) /\ Campaign.id c = cid
                   /\ Campaign.lead_id c = Result.lead_id r.
Proof.
eexists.
match goal with
| |- ?R /\ _ => assert (Hreach : R)
end.
{ eapply rtc_l.
  { exact (step_acquire env_demo string json_loads analysis_of_json
             email_of_json orchestrator "Developer tooling"
             "Faster deployments" false
             (limiter_start 2 [rahul; priya] store) 0 rahul 1 eq_refl eq_refl). }
  eapply rtc_l.
  { eapply (step_acquire env_demo string json_loads analysis_of_json
              email_of_json orchestrator "Developer tooling"
              "Faster deployments" false _ 1 priya 0); reflexivity. }
  eapply rtc_l.
  { eapply (step_release env_demo string json_loads analysis_of_json
              email_of_json orchestrator "Developer tooling"
              "Faster deployments" false _ 1 priya); reflexivity. }
  eapply rtc_l.
  { eapply (step_release env_demo string json_loads analysis_of_json
              email_of_json orchestrator "Developer tooling"
              "Faster deployments" false _ 0 rahul); reflexivity. }
  apply rtc_refl. }
split; [exact Hreach |].
destruct (batch_adds_one_row_per_campaign_id env_demo string json_loads
            analysis_of_json email_of_json orchestrator "Developer tooling"
            "Faster deployments" false 2 [rahul; priya] store _ Hreach)
  as (_ & new & Hrows & Hhas & Hnd & _).
split; [vm_compute; reflexivity |]. split; [vm_compute; reflexivity |].
split; [vm_compute; reflexivity |]. split; [vm_compute; reflexivity |].
split; [exact Hnd |].
intros r cid Hr Hcid. destruct (Hhas r cid Hr Hcid) as (c & Hc & Hid & Hlead).
exists c. split; [| split; assumption].
rewrite Hrows. apply elem_of_app. now right.
Defined.

(** A request that names the key 7, which no lead has, is answered with
    404 and changes nothing. *)
Lemma unknown_key_is_rejected :
  create_campaign env_demo string json_loads analysis_of_json email_of_json
    settings (Cases.request_for [1; 7]%Z) store
  = (HTTPException 404 "Some lead IDs not found", store, []).
Proof.
destruct (campaign_route_rejects_unknown_and_repeated_keys env_demo string
            json_loads analysis_of_json email_of_json settings
            (Cases.request_for [1; 7]%Z) store) as [[_ H] _].
- apply (bool_decide_unpack _). vm_compute. reflexivity.
- apply H. intros [_ Hall].
  specialize (Hall 7%Z ltac:(set_solver)).
  apply (bool_decide_pack _) in Hall. vm_compute in Hall. exact Hall.
Defined.

(** A request for the two leads of the store is processed before the
    route replies, and the statistics count both. *)
Lemma demo_request_is_completed :
  exists (results : list Result.t) (w' : World),
    create_campaign env_demo string json_loads analysis_of_json email_of_json
      settings (Cases.request_for [1; 2]%Z) store
    = (Answer (CampaignReply.Completed results (compile_statistics results)),
       w', [])
    /\ Statistics.total (compile_statistics results) = 2.
Proof.
destruct (campaign_route_runs_small_batches_before_replying env_demo string
            json_loads analysis_of_json email_of_json settings
            (Cases.request_for [1; 2]%Z) store) as (H & _ & _).
- vm_compute. reflexivity.
- destruct H as (results & w' & Hc & _ & _ & Ht); [simpl; lia |].
  exists results, w'. split; [exact Hc | exact Ht].
Defined.

(** The campaign of a reviewed run is sent by the route once; a second
    request is refused. *)
Lemma reviewed_campaign_is_sent_once :
  exists (body : SendReply.t) (w1 : World),
    send_campaign env_demo settings 1 (snd (run env_demo rahul false))
    = (Answer body, w1)
    /\ send_campaign env_demo settings 1 w1
       = (HTTPException 400 "Campaign already sent", w1).
Proof.
destruct (send_campaign env_demo settings 1 (snd (run env_demo rahul false)))
  as [[body | | |] w1] eqn:Hs;
  try (vm_compute in Hs; discriminate Hs).
exists body, w1. split; [reflexivity |].
destruct (route_sends_a_campaign_at_most_once env_demo string json_loads
            analysis_of_json email_of_json settings 1 _ w1 body Hs)
  as (_ & _ & _ & _ & _ & H & _).
apply H.
Defined.

(** After a run that sent its email, the route refuses the campaign. *)
Lemma sent_run_is_refused_by_the_route :
  send_campaign env_demo settings 1 (snd (run env_demo rahul true))
  = (HTTPException 400 "Campaign already sent",
     snd (run env_demo rahul true)).
Proof.
destruct (route_after_a_run env_demo string json_loads analysis_of_json
            email_of_json orchestrator settings rahul "Developer tooling"
            "Faster deployments" true store 1) as [Hsent _].
- vm_compute. reflexivity.
- apply Hsent. vm_compute. reflexivity.
Defined.

(** With a demonstration key and a context that holds "identify:", the
    request for an email is answered with the canned analysis. *)
Lemma demo_email_request_gets_the_analysis :
  fst (KimiAgent._call_kimi Cases.demo_agent Cases.no_client
         (KimiAgent.messages_of KimiAgent.generation_system
            (KimiAgent.generation_prompt "Rahul Sharma" "TechCorp"
               "VP Engineering" "{}" "We identify: slow pipelines"
               "Faster deployments" "schedule_call" "semi-formal"))
         0.8%float 4000 None [])
  = Ok {| KimiAgent.Completion.content := KimiAgent.mock_analysis;
          KimiAgent.Completion.tool_calls := None;
          KimiAgent.Completion.usage :=
            Some {| KimiAgent.Usage.prompt_tokens := 100;
                    KimiAgent.Usage.completion_tokens := 150;
                    KimiAgent.Usage.total_tokens := 250 |} |}.
Proof.
destruct (demo_reply_is_chosen_by_markers_in_the_prompt Cases.demo_agent
            Cases.no_client "{}" "Rahul Sharma" "TechCorp" "VP Engineering"
            "{}" "We identify: slow pipelines" "Faster deployments"
            "schedule_call" "semi-formal" 0.8%float 4000 None [])
  as (_ & _ & H & _).
- vm_compute. reflexivity.
- rewrite H; [reflexivity |]. left. vm_compute. reflexivity.
Defined.

(** A reply with text around a fenced block, the block between blanks
    that are not ASCII. *)
Lemma fenced_reply_with_text_around :
  fenced ("Here is the analysis: " ++ "```json" ++ Cases.wrapped_block ++ "```"
          ++ " Let me know.") = Ok "{}".
Proof.
destruct (fenced_block_round_trip "Here is the analysis: " Cases.wrapped_block
            " Let me know.") as (H & _).
- reflexivity.
- reflexivity.
- reflexivity.
- exact H.
Defined.

(** NewsAPI lists two articles, the second with a null content: the
    method returns no article at all. *)
Lemma one_null_content_loses_every_article :
  fst (CompanyIntelligence.get_company_news Cases.news_net Cases.blank_page
         Cases.with_key "Acme" 30 10 []) = Web.Done [].
Proof.
destruct (company_news_is_all_or_nothing Cases.news_net Cases.blank_page
            Cases.with_key "Acme" 30 10 [])
  as (articles & history' & Heq & Hcases & _).
- reflexivity.
- rewrite Heq. simpl. cbn in Hcases.
  destruct Hcases as [_ [Hall | [-> _]]]; [| reflexivity].
  apply Forall2_cons_inv_l in Hall as (y1 & l1 & _ & Hall & _).
  apply Forall2_cons_inv_l in Hall as (y2 & l2 & Hy & _ & _).
  vm_compute in Hy. discriminate Hy.
Defined.

(** Without key the news come from the search page, which holds no
    article here. *)
Lemma search_page_without_articles :
  exists articles : list Web.json,
    fst (CompanyIntelligence.get_company_news Cases.news_net Cases.blank_page
           Cases.without_key "Acme" 30 10 []) = Web.Done articles
    /\ length articles <= 10.
Proof.
destruct (google_news_is_bounded_and_ignores_the_period Cases.news_net
            Cases.blank_page Cases.without_key "Acme" 30 10 [])
  as (articles & _ & Hlen & _ & _ & Hnews).
- lia.
- exists articles. rewrite Hnews by reflexivity. split; [reflexivity |].
  exact Hlen.
Defined.

(** The activity page of the user name "rahulsharma". *)
Lemma activity_address_of_rahulsharma :
  LinkedInScraper.activity_url (LinkedInScraper.profile_url "rahulsharma")
  = "https://www.linkedin.com/in/rahulsharma/recent-activity/all/".
Proof.
destruct (activity_address_of_a_user_name "rahulsharma")
  as (_ & _ & H & _).
- reflexivity.
- reflexivity.
- exact H.
Defined.

(** A page without posts gives no activity, after one request. *)
Lemma blank_activity_page :
  exists (activities : list LinkedInScraper.Activity.t)
         (after : LinkedInScraper.t),
    LinkedInScraper.get_recent_activity Cases.news_net Cases.blank_page
      "rahulsharma" 5 Cases.fresh_scraper = (Web.Done activities, after)
    /\ length (LinkedInScraper.history after) = 1
    /\ length activities <= 5.
Proof.
destruct (listings_are_bounded_by_the_limit Cases.news_net Cases.blank_page
            "rahulsharma" None None None None 5 Cases.fresh_scraper)
  as [(activities & after & Heq & Hhist & _ & Hlen & _) _].
- lia.
- exists activities, after. split; [exact Heq |].
  split; [rewrite Hhist; reflexivity | exact Hlen].
Defined.

(** From its start, a limiter with two permits lets the batch over both
    leads finish with two outcomes. *)
Lemma two_permits_finish_the_batch :
  exists s' : Limiter,
    reachable env_demo string json_loads analysis_of_json email_of_json
      orchestrator "Developer tooling" "Faster deployments" false 2
      [rahul; priya] store s'
    /\ completed s' /\ length (outcomes s') = 2.
Proof.
destruct (limiter_lets_every_batch_finish env_demo string json_loads
            analysis_of_json email_of_json orchestrator "Developer tooling"
            "Faster deployments" false 2 [rahul; priya] store
            (limiter_start 2 [rahul; priya] store)) as [H _].
- apply rtc_refl.
- destruct H as (s' & _ & Hreach & Hdone & Hlen); [lia |].
  exists s'. split; [exact Hreach |]. split; [exact Hdone | exact Hlen].
Defined.
End Examples.
